(** * SnapVersion+Plus: the version-grouping and diff-summarisation pipeline

    A shallow embedding of the core of the two launchers of the repository,

      - [SnapVersion+Plus.py]           (module [Snap] below), and
      - [DocumentVersionExplorer.py]    (module [Dve] below),

    together with the part of Python's [difflib] that both launchers call.

    Python [str] values are modelled by [string]; a character is a code point
    below 256.  A file is modelled by the text Python's text layer hands to
    the program (after decoding, without byte-order mark). *)

From Stdlib Require Import ZArith Ascii String List Bool Lia Permutation.
From Stdlib Require Import DecimalString DecimalNat.
From stdpp Require Import base gmap strings list sorting.

Local Open Scope string_scope.
Local Open Scope nat_scope.
Local Open Scope list_scope.

(** ** Characters and strings as Python sees them *)

Definition LF : ascii := ascii_of_nat 10.

Definition NL : string := String LF "".

(** [str.isspace] on one character; the white space of Python among the code
    points below 256. *)
Definition isspace (c : ascii) : bool :=
  let n := nat_of_ascii c in
  ((9 <=? n) && (n <=? 13)) || ((28 <=? n) && (n <=? 32))
  || (n =? 133) || (n =? 160).

(** A decimal digit, the class [\d] of [re] among the code points below 256. *)
Definition isdigit (c : ascii) : bool :=
  let n := nat_of_ascii c in (48 <=? n) && (n <=? 57).

Fixpoint lstrip (s : string) : string :=
  match s with
  | "" => ""
  | String c s' => if isspace c then lstrip s' else s
  end.

Fixpoint rstrip (s : string) : string :=
  match s with
  | "" => ""
  | String c s' =>
      match rstrip s' with
      | "" => if isspace c then "" else String c ""
      | r => String c r
      end
  end.

(** [s.strip()] *)
Definition strip (s : string) : string := lstrip (rstrip s).

(** [c in s] for a one-character [c]. *)
Fixpoint contains (c : ascii) (s : string) : bool :=
  match s with
  | "" => false
  | String d s' => if Ascii.eqb c d then true else contains c s'
  end.

(** [s.split(c)[0]]: the part of [s] before the first [c], all of [s] when
    there is none. *)
Fixpoint split_first (c : ascii) (s : string) : string :=
  match s with
  | "" => ""
  | String d s' => if Ascii.eqb c d then "" else String d (split_first c s')
  end.

(** [s.startswith(p)] *)
Definition startswith (s p : string) : bool := String.prefix p s.

(** [s.endswith(p)] *)
Fixpoint endswith (s p : string) : bool :=
  if String.eqb s p then true
  else match s with
       | "" => false
       | String _ s' => endswith s' p
       end.

(** [str(n)] for a natural number. *)
Definition str_of_nat (n : nat) : string :=
  NilEmpty.string_of_uint (Nat.to_uint n).

(** [f.readlines()] on the text of a file: the lines, each with its line
    feed, the last one possibly without. *)
Fixpoint readlines (s : string) : list string :=
  match s with
  | "" => []
  | String c s' =>
      if Ascii.eqb c LF then String c "" :: readlines s'
      else match readlines s' with
           | [] => [String c ""]
           | l :: ls => String c l :: ls
           end
  end.

(** ** Regular expressions

    The two patterns of interest are built from matchers in continuation
    style: a matcher takes what must match the rest of the input.  Greedy
    repetition tries the longer match first and falls back, as [re] does. *)

Module Re.

Definition cont := string -> bool.

(** [$]: the end of the string, or just before a line feed that ends it. *)
Definition eos : cont := fun s => String.eqb s "" || String.eqb s NL.

(** One character of a class. *)
Definition cls (p : ascii -> bool) (k : cont) : cont := fun s =>
  match s with
  | "" => false
  | String c s' => p c && k s'
  end.

Definition chr (c : ascii) : (cont -> cont) := cls (Ascii.eqb c).

(** [r{n}] *)
Fixpoint rep (n : nat) (r : cont -> cont) (k : cont) : cont :=
  match n with
  | O => k
  | S n' => r (rep n' r k)
  end.

(** A literal string. *)
Fixpoint lit (l : string) (k : cont) : cont :=
  match l with
  | "" => k
  | String c l' => chr c (lit l' k)
  end.




(** [.]: any character but a line feed. *)
Definition dot (c : ascii) : bool := negb (Ascii.eqb c LF).

(** The capturing group of [.*] followed by [k], at the start of the
    input: the text the group captures, [None] when there is no match.
    The group takes as many characters as it can and gives them back one
    by one. *)
Fixpoint group_dotstar (k : cont) (s : string) : option string :=
  match s with
  | "" => if k "" then Some "" else None
  | String c s' =>
      if dot c then
        match group_dotstar k s' with
        | Some g => Some (String c g)
        | None => if k s then Some "" else None
        end
      else if k s then Some "" else None
  end.

End Re.

(** [\.\d{4}-\d{2}-\d{2}_\d{6}\.bak$], what follows the group in the pattern
    of [_get_base_name]. *)
Definition stamp_tail : Re.cont :=
  Re.chr "." (Re.rep 4 (Re.cls isdigit) (Re.chr "-" (Re.rep 2 (Re.cls isdigit)
    (Re.chr "-" (Re.rep 2 (Re.cls isdigit) (Re.chr "_" (Re.rep 6 (Re.cls isdigit)
      (Re.lit ".bak" Re.eos)))))))).

(** [re.match(pattern, filename)] for the pattern of [_get_base_name], a
    capturing group of [.*] followed by the stamp; gives [match.group(1)]. *)
Definition match_backup_pattern (filename : string) : option string :=
  Re.group_dotstar stamp_tail filename.

(** A string of [n] decimal digits. *)
Definition is_digits (n : nat) (s : string) : bool :=
  (String.length s =? n) && forallb isdigit (list_ascii_of_string s).

(** The suffix of a backup, [.YYYY-MM-DD_HHMMSS.bak], from its four fields. *)
Definition stamp_suffix (y m d t : string) : string :=
  "." +:+ y +:+ "-" +:+ m +:+ "-" +:+ d +:+ "_" +:+ t +:+ ".bak".


(** ** Python's [difflib], as far as [unified_diff] goes

    [SequenceMatcher(None, a, b)]: no junk predicate, [autojunk] on. *)

Module Difflib.

Inductive tag := Replace | Delete | Insert | Equal.

(** An opcode [(tag, i1, i2, j1, j2)]. *)
Record opcode := Op { op_tag : tag; op_i1 : nat; op_i2 : nat; op_j1 : nat; op_j2 : nat }.

Definition is_equal (o : opcode) : bool :=
  match op_tag o with Equal => true | _ => false end.

(** A matching block [(i, j, k)]. *)
Definition block : Type := nat * nat * nat.

(** The order of Python on triples. *)
Definition block_leb (x y : block) : bool :=
  let '(i1, j1, k1) := x in
  let '(i2, j2, k2) := y in
  (i1 <? i2) || ((i1 =? i2) && ((j1 <? j2) || ((j1 =? j2) && (k1 <=? k2)))).

Fixpoint insert_block (x : block) (l : list block) : list block :=
  match l with
  | [] => [x]
  | y :: l' => if block_leb x y then x :: l else y :: insert_block x l'
  end.

(** [matching_blocks.sort()] *)
Definition sort_blocks (l : list block) : list block :=
  foldr insert_block [] l.

Section SequenceMatcher.

Context {A : Type} `{EqDecision A}.
Variables a b : list A.

Fixpoint indices_from (x : A) (l : list A) (j : nat) : list nat :=
  match l with
  | [] => []
  | y :: l' =>
      if decide (y = x) then j :: indices_from x l' (S j)
      else indices_from x l' (S j)
  end.

(** [__chain_b]: an element is popular when [b] has 200 elements or more
    and the element fills more than one hundredth of it, plus one. *)
Definition popular (x : A) : bool :=
  (200 <=? length b) && (length b / 100 + 1 <? length (indices_from x b 0)).

(** [b2j.get(x, [])]: where [x] occurs in [b], nothing for a popular
    element. *)
Definition b2j (x : A) : list nat :=
  if popular x then [] else indices_from x b 0.

(** [a[i] == b[j]] *)
Definition same_at (i j : nat) : bool :=
  match a !! i, b !! j with
  | Some x, Some y => bool_decide (x = y)
  | _, _ => false
  end.

(** [j2len.get(j-1, 0)] *)
Definition j2lenget (j2len : gmap nat nat) (j : nat) : nat :=
  match j with
  | O => 0
  | S j' => default 0 (j2len !! j')
  end.

(** The inner loop of [find_longest_match], over the places of [a[i]] in
    [b]. *)
Fixpoint inner (i blo bhi : nat) (j2len : gmap nat nat) (js : list nat)
    (newj2len : gmap nat nat) (best : block) : gmap nat nat * block :=
  match js with
  | [] => (newj2len, best)
  | j :: js' =>
      if j <? blo then inner i blo bhi j2len js' newj2len best
      else if bhi <=? j then (newj2len, best)
      else
        let k := j2lenget j2len j + 1 in
        let '(_, _, bestsize) := best in
        inner i blo bhi j2len js' (<[j := k]> newj2len)
          (if bestsize <? k then (i + 1 - k, j + 1 - k, k) else best)
  end.

(** The outer loop, [for i in range(alo, ahi)]. *)
Fixpoint outer (range : list nat) (blo bhi : nat) (j2len : gmap nat nat)
    (best : block) : block :=
  match range with
  | [] => best
  | i :: range' =>
      let js := match a !! i with Some x => b2j x | None => [] end in
      let '(newj2len, best') := inner i blo bhi j2len js ∅ best in
      outer range' blo bhi newj2len best'
  end.

(** The first [while] after the loops: the match grows to the left. *)
Fixpoint extend_left (alo blo besti bestj bestsize : nat) {struct besti} : block :=
  match besti, bestj with
  | S i', S j' =>
      if (alo <? besti) && (blo <? bestj) && same_at i' j'
      then extend_left alo blo i' j' (S bestsize)
      else (besti, bestj, bestsize)
  | _, _ => (besti, bestj, bestsize)
  end.

(** The second [while]: the match grows to the right. *)
Fixpoint extend_right (fuel ahi bhi besti bestj bestsize : nat) : nat :=
  match fuel with
  | O => bestsize
  | S fuel' =>
      if (besti + bestsize <? ahi) && (bestj + bestsize <? bhi)
         && same_at (besti + bestsize) (bestj + bestsize)
      then extend_right fuel' ahi bhi besti bestj (S bestsize)
      else bestsize
  end.

(** [find_longest_match(alo, ahi, blo, bhi)].  The two last [while] loops
    of the Python take junk elements only, and there is no junk. *)
Definition find_longest_match (alo ahi blo bhi : nat) : block :=
  let '(besti, bestj, bestsize) :=
    outer (seq alo (ahi - alo)) blo bhi ∅ (alo, blo, 0) in
  let '(besti, bestj, bestsize) := extend_left alo blo besti bestj bestsize in
  (besti, bestj, extend_right ahi ahi bhi besti bestj bestsize).

(** The [while queue:] loop of [get_matching_blocks].  The head of
    [queue] is the end of the Python list, where [pop] and [append]
    work.  Every turn either finds no block or takes an element of [a]
    into one, so [2 * length a + 1] turns empty the queue. *)
Fixpoint blocks_loop (fuel : nat) (queue : list (nat * nat * nat * nat))
    (matching_blocks : list block) : list block :=
  match fuel with
  | O => matching_blocks
  | S fuel' =>
      match queue with
      | [] => matching_blocks
      | (alo, ahi, blo, bhi) :: queue' =>
          let '(i, j, k) := find_longest_match alo ahi blo bhi in
          if k =? 0 then blocks_loop fuel' queue' matching_blocks
          else
            let q1 := if (alo <? i) && (blo <? j)
                      then (alo, i, blo, j) :: queue' else queue' in
            let q2 := if (i + k <? ahi) && (j + k <? bhi)
                      then (i + k, ahi, j + k, bhi) :: q1 else q1 in
            blocks_loop fuel' q2 (matching_blocks ++ [(i, j, k)])
      end
  end.

(** The loop that joins adjacent blocks. *)
Fixpoint collapse (blocks : list block) (i1 j1 k1 : nat) : list block :=
  match blocks with
  | [] => if k1 =? 0 then [] else [(i1, j1, k1)]
  | (i2, j2, k2) :: rest =>
      if (i1 + k1 =? i2) && (j1 + k1 =? j2) then collapse rest i1 j1 (k1 + k2)
      else (if k1 =? 0 then [] else [(i1, j1, k1)]) ++ collapse rest i2 j2 k2
  end.

Definition get_matching_blocks : list block :=
  let la := length a in
  let lb := length b in
  let matching_blocks := blocks_loop (2 * la + 1) [(0, la, 0, lb)] [] in
  collapse (sort_blocks matching_blocks) 0 0 0 ++ [(la, lb, 0)].

Fixpoint opcodes_from (blocks : list block) (i j : nat) : list opcode :=
  match blocks with
  | [] => []
  | (ai, bj, size) :: rest =>
      (if (i <? ai) && (j <? bj) then [Op Replace i ai j bj]
       else if i <? ai then [Op Delete i ai j bj]
       else if j <? bj then [Op Insert i ai j bj]
       else [])
      ++ (if size =? 0 then [] else [Op Equal ai (ai + size) bj (bj + size)])
      ++ opcodes_from rest (ai + size) (bj + size)
  end.

Definition get_opcodes : list opcode := opcodes_from get_matching_blocks 0 0.

(** The two fix-ups of [get_grouped_opcodes] on the first and the last
    opcode. *)
Definition trim_first (n : nat) (codes : list opcode) : list opcode :=
  match codes with
  | Op Equal i1 i2 j1 j2 :: rest =>
      Op Equal (Nat.max i1 (i2 - n)) i2 (Nat.max j1 (j2 - n)) j2 :: rest
  | _ => codes
  end.

Fixpoint trim_last (n : nat) (codes : list opcode) : list opcode :=
  match codes with
  | [] => []
  | [Op Equal i1 i2 j1 j2] =>
      [Op Equal i1 (Nat.min i2 (i1 + n)) j1 (Nat.min j2 (j1 + n))]
  | c :: rest => c :: trim_last n rest
  end.

(** The loop of [get_grouped_opcodes]; [group] is the group being
    filled. *)
Fixpoint group_loop (n : nat) (codes : list opcode) (group : list opcode)
    : list (list opcode) :=
  match codes with
  | [] =>
      match group with
      | [] => []
      | [o] => if is_equal o then [] else [group]
      | _ => [group]
      end
  | Op t i1 i2 j1 j2 :: rest =>
      if is_equal (Op t i1 i2 j1 j2) && (n + n <? i2 - i1) then
        (group ++ [Op t i1 (Nat.min i2 (i1 + n)) j1 (Nat.min j2 (j1 + n))])
        :: group_loop n rest [Op t (Nat.max i1 (i2 - n)) i2 (Nat.max j1 (j2 - n)) j2]
      else group_loop n rest (group ++ [Op t i1 i2 j1 j2])
  end.

Definition get_grouped_opcodes (n : nat) : list (list opcode) :=
  let codes := match get_opcodes with
               | [] => [Op Equal 0 1 0 1]
               | c => c
               end in
  group_loop n (trim_last n (trim_first n codes)) [].

(** [l[i1:i2]] *)
Definition slice (l : list A) (i1 i2 : nat) : list A := take (i2 - i1) (drop i1 l).

End SequenceMatcher.

(** A line of a unified diff, by what it stands for. *)
Inductive dline :=
| FileHeader (s : string)
| HunkHeader (s : string)
| Context (l : string)
| Removal (l : string)
| Addition (l : string).

(** The line as [unified_diff] yields it. *)
Definition render (d : dline) : string :=
  match d with
  | FileHeader s => s
  | HunkHeader s => s
  | Context l => " " +:+ l
  | Removal l => "-" +:+ l
  | Addition l => "+" +:+ l
  end.

Definition _format_range_unified (start stop : nat) : string :=
  let beginning := start + 1 in
  let length := stop - start in
  if length =? 1 then str_of_nat beginning
  else str_of_nat (if length =? 0 then beginning - 1 else beginning)
       +:+ "," +:+ str_of_nat length.

Definition group_lines (a b : list string) (group : list opcode) : list dline :=
  flat_map (fun o =>
    match op_tag o with
    | Equal => map Context (slice a (op_i1 o) (op_i2 o))
    | Replace => map Removal (slice a (op_i1 o) (op_i2 o))
                 ++ map Addition (slice b (op_j1 o) (op_j2 o))
    | Delete => map Removal (slice a (op_i1 o) (op_i2 o))
    | Insert => map Addition (slice b (op_j1 o) (op_j2 o))
    end) group.

Definition hunk (a b : list string) (group : list opcode) : list dline :=
  match group, last group with
  | first :: _, Some lst =>
      HunkHeader ("@@ -" +:+ _format_range_unified (op_i1 first) (op_i2 lst)
                  +:+ " +" +:+ _format_range_unified (op_j1 first) (op_j2 lst)
                  +:+ " @@")
      :: group_lines a b group
  | _, _ => []
  end.

(** [unified_diff(a, b, lineterm='')] with its lines still told apart: no
    file names, no dates, three lines of context. *)
Definition unified_diff_lines (a b : list string) : list dline :=
  match get_grouped_opcodes a b 3 with
  | [] => []
  | groups => FileHeader "--- " :: FileHeader "+++ " :: flat_map (hunk a b) groups
  end.

(** [list(difflib.unified_diff(a, b, lineterm=''))] *)
Definition unified_diff (a b : list string) : list string :=
  map render (unified_diff_lines a b).

End Difflib.

(** ** The file system and the log

    Files and their alternate data streams live in one store, keyed by path:
    the stream [:source] of [P] is the entry [P:source].  An entry is the
    text Python reads from it, or bytes that are no UTF-8.  Opening a path
    can be refused, for reading or for writing. *)

Inductive exn :=
| FileNotFoundError
| PermissionError
| NotADirectoryError
| UnicodeDecodeError.

(** [isinstance(e, OSError)] *)
Definition is_OSError (e : exn) : bool :=
  match e with
  | UnicodeDecodeError => false
  | _ => true
  end.

(** [str(e)], up to the text of the operating system. *)
Definition exn_str (e : exn) : string :=
  match e with
  | FileNotFoundError => "No such file or directory"
  | PermissionError => "Permission denied"
  | NotADirectoryError => "Not a directory"
  | UnicodeDecodeError => "invalid start byte"
  end.

Inductive node :=
| Text (s : string)
| Undecodable.

Record world := World {
  nodes : gmap string node;          (* files and streams *)
  rdeny : gset string;               (* paths that cannot be opened for reading *)
  wdeny : gset string;               (* paths that cannot be opened for writing *)
  dirs : gmap string (list string);  (* directories, with what [os.listdir] gives *)
  ctimes : gmap string Z;            (* creation times that can be read *)
  log : list string                  (* what [log_action] has written *)
}.

Definition set_nodes (f : gmap string node -> gmap string node) (w : world) : world :=
  World (f (nodes w)) (rdeny w) (wdeny w) (dirs w) (ctimes w) (log w).

Definition set_log (f : list string -> list string) (w : world) : world :=
  World (nodes w) (rdeny w) (wdeny w) (dirs w) (ctimes w) (f (log w)).

(** *** A computation that may raise *)

Inductive result (A : Type) :=
| Ok (a : A)
| Raise (e : exn).
Arguments Ok {A} a.
Arguments Raise {A} e.

Definition M (A : Type) : Type := world -> result A * world.

#[global] Instance M_ret : MRet M := fun A a w => (Ok a, w).

#[global] Instance M_bind : MBind M := fun A B f c w =>
  match c w with
  | (Ok a, w') => f a w'
  | (Raise e, w') => (Raise e, w')
  end.

Definition raise {A : Type} (e : exn) : M A := fun w => (Raise e, w).

(** [try: c  except Exception as e: h e] *)
Definition try_except {A : Type} (c : M A) (h : exn -> M A) : M A := fun w =>
  match c w with
  | (Ok a, w') => (Ok a, w')
  | (Raise e, w') => h e w'
  end.

(** [try: c  except OSError as e: h e]; any other exception goes on. *)
Definition try_except_OSError {A : Type} (c : M A) (h : exn -> M A) : M A :=
  try_except c (fun e => if is_OSError e then h e else raise e).

(** *** What the program asks of the operating system *)

(** [open(p, 'r', encoding='utf-8').read()], the same for [utf-8-sig]. *)
Definition read_text (p : string) : M string := fun w =>
  if decide (p ∈ rdeny w) then (Raise PermissionError, w)
  else match nodes w !! p with
       | None => (Raise FileNotFoundError, w)
       | Some Undecodable => (Raise UnicodeDecodeError, w)
       | Some (Text s) => (Ok s, w)
       end.

(** [open(p, 'rb').read()] *)
Definition read_bytes (p : string) : M node := fun w =>
  if decide (p ∈ rdeny w) then (Raise PermissionError, w)
  else match nodes w !! p with
       | None => (Raise FileNotFoundError, w)
       | Some n => (Ok n, w)
       end.

Definition node_app (old new : node) : node :=
  match old, new with
  | Text s, Text t => Text (s +:+ t)
  | _, _ => Undecodable
  end.

(** [open(p, 'wb').write(n)].  A file that is made by a write is not
    entered in the listing of its directory and gets no creation time:
    [dirs] and [ctimes] say what the system answers while a load lists and
    dates the backups, and no property speaks of them after a write. *)
Definition write_bytes (p : string) (n : node) : M unit := fun w =>
  if decide (p ∈ wdeny w) then (Raise PermissionError, w)
  else (Ok tt, set_nodes (insert p n) w).

(** [open(p, 'ab').write(n)] *)
Definition append_bytes (p : string) (n : node) : M unit := fun w =>
  if decide (p ∈ wdeny w) then (Raise PermissionError, w)
  else (Ok tt, set_nodes (insert p (node_app (default (Text "") (nodes w !! p)) n)) w).

(** [open(p, 'ab')] alone: the file is there afterwards. *)
Definition open_append (p : string) : M unit := fun w =>
  if decide (p ∈ wdeny w) then (Raise PermissionError, w)
  else (Ok tt, set_nodes (insert p (default (Text "") (nodes w !! p))) w).

(** [open(p, 'w', encoding='utf-8').write(s)].  A node holds a text as the
    text layer of Python hands it to a reader.  The translation of line
    ends by that layer is not modelled: a carriage return that is written
    comes back as a line feed, so a property that reads back what was
    written asks for a text without carriage return. *)
Definition write_text (p s : string) : M unit := write_bytes p (Text s).

(** [open(p, 'a', encoding='utf-8').write(s)]; as for [write_text], what
    is appended and read back holds no carriage return. *)
Definition append_text (p s : string) : M unit := append_bytes p (Text s).

(** [os.remove(p)] *)
Definition remove (p : string) : M unit := fun w =>
  match nodes w !! p with
  | None => (Raise FileNotFoundError, w)
  | Some _ => (Ok tt, set_nodes (delete p) w)
  end.

(** [os.path.exists(p)] *)
Definition path_exists (p : string) : M bool := fun w =>
  (Ok (bool_decide (is_Some (nodes w !! p)) || bool_decide (is_Some (dirs w !! p))), w).

(** [os.path.isdir(p)] *)
Definition path_isdir (p : string) : M bool := fun w =>
  (Ok (bool_decide (is_Some (dirs w !! p))), w).

(** [os.listdir(d)] *)
Definition listdir (d : string) : M (list string) := fun w =>
  if decide (d ∈ rdeny w) then (Raise PermissionError, w)
  else match dirs w !! d with
       | Some names => (Ok names, w)
       | None => (Raise (if bool_decide (is_Some (nodes w !! d))
                         then NotADirectoryError else FileNotFoundError), w)
       end.

(** [os.path.getctime(p)]; it raises an [OSError] when the time cannot be
    read. *)
Definition getctime (p : string) : M Z := fun w =>
  match ctimes w !! p with
  | Some t => (Ok t, w)
  | None => (Raise (if bool_decide (is_Some (nodes w !! p))
                    then PermissionError else FileNotFoundError), w)
  end.

(** [log_action(message)].  The sink swallows its own failures; the time
    stamp it puts before the message is left out. *)
Definition log_action (message : string) : M unit := fun w =>
  (Ok tt, set_log (fun l => l ++ [message]) w).

(** *** Paths *)

Definition is_sep (c : ascii) : bool := Ascii.eqb c "\" || Ascii.eqb c "/".

Fixpoint has_sep (s : string) : bool :=
  match s with
  | "" => false
  | String c s' => is_sep c || has_sep s'
  end.

(** [os.path.basename(p)]: what follows the last separator. *)
Fixpoint basename (p : string) : string :=
  match p with
  | "" => ""
  | String c p' =>
      if has_sep p' then basename p'
      else if is_sep c then p' else p
  end.

Fixpoint ends_with_sep (d : string) : bool :=
  match d with
  | "" => false
  | String c "" => is_sep c || Ascii.eqb c ":"
  | String _ d' => ends_with_sep d'
  end.

(** [os.path.join(d, name)] for a plain [name]. *)
Definition path_join (d name : string) : string :=
  if String.eqb d "" then name
  else if ends_with_sep d then d +:+ name
  else d +:+ "\" +:+ name.

(** ** What the two launchers share in shape *)

(** An element of [entries]: creation time, base name, file name, path.
    The time is the date and time [datetime.fromtimestamp] makes of the
    creation time, read as a number: it is what the sort compares. *)
Record entry := Entry {
  e_time : Z;
  e_base : string;
  e_name : string;
  e_path : string
}.

(** [entries.sort(key=lambda x: x[0], reverse=True)]: newest first, entries
    of one time in the order they had. *)
Fixpoint insert_entry (x : entry) (l : list entry) : list entry :=
  match l with
  | [] => [x]
  | y :: l' => if (e_time x <? e_time y)%Z then y :: insert_entry x l' else x :: l
  end.

Definition sort_entries (l : list entry) : list entry := foldr insert_entry [] l.

(** A row of the tree: date, base name, version label, change descriptor,
    total lines, meta tag; and the path kept with the item.  The date column
    is a rendering of the creation time, which stands for it here. *)
Record row := Row {
  row_time : Z;
  row_base : string;
  row_version : string;
  row_diff : string;
  row_total : string;
  row_meta : string;
  row_path : string
}.

(** What a load does to the tree: nothing, or the rows it puts there. *)
Inductive outcome :=
| Untouched
| Shown (rows : list row).

(** [[line.strip() for line in lines if line.strip()]] *)
Definition stripped_lines (lines : list string) : list string :=
  map strip (filter (fun l => strip l ≠ "") lines).

(** The text [writelines(f"{entry}\n" for entry in entries)] writes. *)
Definition entry_lines (entries : list string) : string :=
  String.concat "" (map (fun e => e +:+ NL) entries).

(** [[f for f in names if f.startswith(base) and f.endswith('.bak')]] *)
Definition backups_of (base : string) (names : list string) : list string :=
  filter (fun f => startswith f base && endswith f ".bak") names.

(** [MetaTagEditor.save_meta], the same in both launchers apart from the
    wording of the log: [text] is what the editor holds and [timestamp] the
    time of the save, formatted. *)
Definition save_meta (file_path text timestamp : string) : M unit :=
  try_except
    (let content := strip text in
     write_text (file_path +:+ ":source") content;;
     try_except
       (let history_entry := "[" +:+ timestamp +:+ "] " +:+ content +:+ NL in
        append_text (file_path +:+ ":meta_audit") history_entry)
       (fun e => log_action ("ERROR: Failed to write to metadata audit stream for "
                             +:+ file_path +:+ ": " +:+ exn_str e)))
    (fun e => log_action ("ERROR: Failed to update metadata for "
                          +:+ file_path +:+ ": " +:+ exn_str e)).

(** [sum(1 for line in diff if p(line))] *)
Definition count_lines_where (p : string -> bool) (diff : list string) : nat :=
  length (filter (fun line => p line) diff).

(** The sign both launchers put before the count. *)
Definition change_sign (curr_total next_total : nat) : string :=
  if next_total <? curr_total then "+"
  else if curr_total <? next_total then "-"
  else "".

(** The three attempts of the audit stream functions. *)
Definition max_retries : nat := 3.

(** [zip(entries, diff_counts, total_lines)] *)
Fixpoint zip3 (es : list entry) (ds ts : list string) : list (entry * string * string) :=
  match es, ds, ts with
  | e :: es', d :: ds', t :: ts' => (e, d, t) :: zip3 es' ds' ts'
  | _, _, _ => []
  end.

(** ** [SnapVersion+Plus.py]: class [BackupViewer] *)

Module Snap.

(** The loop [while '.' in base: base = base.split('.')[0]].  Each turn
    shortens [base], so [String.length base] turns are enough. *)
Fixpoint strip_extensions (fuel : nat) (base : string) : string :=
  match fuel with
  | O => base
  | S fuel' =>
      if contains "." base then strip_extensions fuel' (split_first "." base)
      else base
  end.

(** [BackupViewer._get_base_name] *)
Definition _get_base_name (filename : string) : string :=
  let base :=
    match match_backup_pattern filename with
    | Some g => g
    | None => split_first "." filename
    end in
  strip_extensions (String.length base) base.

Section BackupViewer.

(** The directory of the script, a constant of the module. *)
Variable BASE_DIR : string.

(** [BackupViewer.read_ads_metadata] *)
Definition read_ads_metadata (file_path : string) : M string :=
  try_except
    (let ads_path := file_path +:+ ":source" in
     s ← read_text ads_path;
     mret (strip s))
    (fun _ => mret "").

Definition temp_path_of (file_path : string) : string :=
  path_join BASE_DIR ("temp_meta_audit_" +:+ basename file_path +:+ ".txt").

(** The [while retry_count < max_retries] loop of [read_meta_audit];
    [left] is [max_retries - retry_count]. *)
Fixpoint read_meta_audit_loop (left retry_count : nat) (file_path : string)
    : M (list string) :=
  match left with
  | O => mret []
  | S left' =>
      let ads_path := file_path +:+ ":meta_audit" in
      try_except
        (s ← read_text ads_path;
         log_action ("INFO: Successfully read :meta_audit stream for " +:+ file_path);;
         mret (stripped_lines (readlines s)))
        (fun e =>
           let retry_count := retry_count + 1 in
           log_action ("ERROR: Failed to read :meta_audit stream for " +:+ file_path
                       +:+ " (attempt " +:+ str_of_nat retry_count +:+ "/"
                       +:+ str_of_nat max_retries +:+ "): " +:+ exn_str e);;
           if retry_count =? max_retries then
             try_except
               (let temp_path := temp_path_of file_path in
                n ← read_bytes ads_path;
                write_bytes temp_path n;;
                s ← read_text temp_path;
                remove temp_path;;
                log_action ("INFO: Successfully read :meta_audit stream via temp file for "
                            +:+ file_path);;
                mret (stripped_lines (readlines s)))
               (fun e2 =>
                  log_action ("ERROR: Fallback failed to read :meta_audit stream for "
                              +:+ file_path +:+ ": " +:+ exn_str e2);;
                  mret [])
           else read_meta_audit_loop left' retry_count file_path)
  end.

(** [BackupViewer.read_meta_audit] *)
Definition read_meta_audit (file_path : string) : M (list string) :=
  read_meta_audit_loop max_retries 0 file_path.

(** The [while] loop of [append_meta_audit]. *)
Fixpoint append_meta_audit_loop (left retry_count : nat) (file_path : string)
    (new_entries : list string) : M unit :=
  match left with
  | O => mret tt
  | S left' =>
      let ads_path := file_path +:+ ":meta_audit" in
      try_except
        (append_text ads_path (entry_lines new_entries);;
         log_action ("INFO: Successfully appended " +:+ str_of_nat (length new_entries)
                     +:+ " new :meta_audit entries to " +:+ file_path))
        (fun e =>
           let retry_count := retry_count + 1 in
           log_action ("ERROR: Failed to append to :meta_audit for " +:+ file_path
                       +:+ " (attempt " +:+ str_of_nat retry_count +:+ "/"
                       +:+ str_of_nat max_retries +:+ "): " +:+ exn_str e);;
           if retry_count =? max_retries then
             try_except
               (let temp_path := temp_path_of file_path in
                append_text temp_path (entry_lines new_entries);;
                open_append ads_path;;
                n ← read_bytes temp_path;
                append_bytes ads_path n;;
                remove temp_path;;
                log_action ("INFO: Successfully appended :meta_audit entries via temp file for "
                            +:+ file_path))
               (fun e2 =>
                  log_action ("ERROR: Fallback failed to append :meta_audit for "
                              +:+ file_path +:+ ": " +:+ exn_str e2))
           else append_meta_audit_loop left' retry_count file_path new_entries)
  end.

(** [BackupViewer.append_meta_audit] *)
Definition append_meta_audit (file_path : string) (entries : list string) : M unit :=
  match entries with
  | [] => mret tt
  | _ =>
      read ← read_meta_audit file_path;
      let existing_entries : gset string := list_to_set read in
      let new_entries :=
        filter (fun entry => strip entry ≠ "" ∧ strip entry ∉ existing_entries) entries in
      match new_entries with
      | [] => log_action ("INFO: No new :meta_audit entries to append for " +:+ file_path)
      | _ => append_meta_audit_loop max_retries 0 file_path new_entries
      end
  end.

(** The first loop of [load_backups_from_name]: the creation time of each
    backup; a backup whose time cannot be read is logged and left out. *)
Fixpoint collect_entries (home_directory base : string) (backups : list string)
    : M (list entry) :=
  match backups with
  | [] => mret []
  | name :: rest =>
      let path := path_join home_directory name in
      here ← try_except_OSError
               (timestamp ← getctime path;
                mret [Entry timestamp base name path])
               (fun e =>
                  log_action ("ERROR: Failed to access " +:+ path +:+ ": " +:+ exn_str e);;
                  mret []);
      entries ← collect_entries home_directory base rest;
      mret (here ++ entries)
  end.

(** The loop that gathers the audit entries of all files of the batch. *)
Fixpoint collect_meta_audit (entries : list entry) : M (list string) :=
  match entries with
  | [] => mret []
  | entry :: rest =>
      let file_path := e_path entry in
      meta_audit_entries ← read_meta_audit file_path;
      match meta_audit_entries with
      | [] => log_action ("INFO: No :meta_audit entries found for " +:+ file_path)
      | _ => mret tt
      end;;
      more ← collect_meta_audit rest;
      mret (meta_audit_entries ++ more)
  end.

(** The loop that appends them to every file of the batch. *)
Fixpoint spread_meta_audit (entries : list entry) (all_meta_audit_entries : list string)
    : M unit :=
  match entries with
  | [] => mret tt
  | entry :: rest =>
      append_meta_audit (e_path entry) all_meta_audit_entries;;
      spread_meta_audit rest all_meta_audit_entries
  end.

(** Lines 938 to 951 of [load_backups_from_name]: the audit streams of the
    batch are brought together. *)
Definition sync_meta_audit (entries : list entry) : M unit :=
  all_meta_audit_entries ← collect_meta_audit entries;
  spread_meta_audit entries all_meta_audit_entries.

(** The count of changed lines as the launcher takes it from the diff. *)
Definition change_count (diff : list string) : nat :=
  let change_count :=
    count_lines_where (fun line => startswith line "+" || startswith line "-") diff in
  Z.to_nat (Z.max 0 (Z.of_nat change_count - 3)).

(** The body of the [try] that compares a file with the next older one. *)
Definition change_descriptor (curr_lines next_lines : list string) : string :=
  let diff := Difflib.unified_diff next_lines curr_lines in
  change_sign (length curr_lines) (length next_lines)
  +:+ str_of_nat (change_count diff) +:+ " lines".

Definition compare_versions (curr_path next_path : string) : M string :=
  try_except
    (curr ← read_text curr_path;
     next ← read_text next_path;
     mret (change_descriptor (readlines curr) (readlines next)))
    (fun e =>
       log_action ("ERROR: Failed to compare " +:+ curr_path +:+ " with " +:+ next_path
                   +:+ ": " +:+ exn_str e);;
       mret "Error").

Definition count_total_lines (path : string) : M string :=
  try_except
    (s ← read_text path;
     mret (str_of_nat (length (readlines s))))
    (fun e =>
       log_action ("ERROR: Failed to count lines in " +:+ path +:+ ": " +:+ exn_str e);;
       mret "Error").

(** The loop [for i in range(len(entries))], giving [diff_counts] and
    [total_lines]. *)
Fixpoint diff_loop (entries : list entry) : M (list string * list string) :=
  match entries with
  | [] => mret ([], [])
  | entry :: rest =>
      total ← count_total_lines (e_path entry);
      diff ← match rest with
             | [] => mret "N/A"
             | older :: _ => compare_versions (e_path entry) (e_path older)
             end;
      more ← diff_loop rest;
      mret (diff :: fst more, total :: snd more)
  end.

(** The loop that fills the tree. *)
Fixpoint build_rows (total_versions idx : nat) (items : list (entry * string * string))
    : M (list row) :=
  match items with
  | [] => mret []
  | (entry, diff_count, total_line_count) :: rest =>
      let version_number := total_versions - idx in
      meta ← read_ads_metadata (e_path entry);
      rows ← build_rows total_versions (S idx) rest;
      mret (Row (e_time entry) (e_base entry) ("V" +:+ str_of_nat version_number)
                diff_count total_line_count meta (e_path entry) :: rows)
  end.

(** [BackupViewer.load_backups_from_name], with the two attributes it
    reads. *)
Definition load_backups_from_name (batch_file_name home_directory : string) : M outcome :=
  if String.eqb batch_file_name "" then
    log_action "ERROR: No batch file selected";; mret Untouched
  else
    found ← path_exists home_directory;
    if negb found then
      log_action ("ERROR: Selected directory not found: " +:+ home_directory);;
      mret Untouched
    else
      let filename := basename batch_file_name in
      let base := _get_base_name filename in
      listed ← try_except
                 (names ← listdir home_directory;
                  mret (Some (backups_of base names)))
                 (fun e =>
                    log_action ("ERROR: Failed to list files in directory "
                                +:+ home_directory +:+ ": " +:+ exn_str e);;
                    mret None);
      match listed with
      | None => mret Untouched
      | Some [] =>
          log_action ("INFO: No backups found for: " +:+ base +:+ " in " +:+ home_directory);;
          mret (Shown [])
      | Some backups =>
          entries ← collect_entries home_directory base backups;
          let entries := sort_entries entries in
          sync_meta_audit entries;;
          counts ← diff_loop entries;
          let total_versions := length entries in
          rows ← build_rows total_versions 0 (zip3 entries (fst counts) (snd counts));
          mret (Shown rows)
      end.

End BackupViewer.

End Snap.

(** ** [DocumentVersionExplorer.py]: class [DocumentVersionExplorer] *)

Module Dve.

(** [DocumentVersionExplorer._get_base_name] *)
Definition _get_base_name (filename : string) : string :=
  match match_backup_pattern filename with
  | Some g => g
  | None => split_first "." filename
  end.

(** [DocumentVersionExplorer.read_ads_metadata] *)
Definition read_ads_metadata (file_path : string) : M string :=
  try_except
    (let ads_path := file_path +:+ ":source" in
     there ← path_exists ads_path;
     if negb there then
       main ← path_exists file_path;
       (if negb main then log_action ("WARNING: Main file missing " +:+ file_path)
        else mret tt);;
       mret ""
     else
       s ← read_text ads_path;
       mret (strip s))
    (fun e =>
       match e with
       | FileNotFoundError => mret ""
       | _ =>
           log_action ("ERROR: Read ADS source fail " +:+ file_path +:+ ": " +:+ exn_str e);;
           mret ""
       end).

(** The loop [for attempt in range(1, max_retries + 1)] of
    [read_meta_audit]; [left] is the number of attempts still to make. *)
Fixpoint read_meta_audit_loop (left attempt : nat) (file_path : string)
    : M (list string) :=
  match left with
  | O => mret []
  | S left' =>
      try_except
        (let ads_path := file_path +:+ ":meta_audit" in
         there ← path_exists ads_path;
         if negb there then
           _ ← path_exists file_path;
           mret []
         else
           s ← read_text ads_path;
           mret (stripped_lines (readlines s)))
        (fun e =>
           match e with
           | FileNotFoundError => mret []
           | _ =>
               log_action ("ERROR: Read meta audit fail " +:+ file_path +:+ " (Att "
                           +:+ str_of_nat attempt +:+ "): " +:+ exn_str e);;
               if attempt =? max_retries then
                 log_action ("ERROR: Max retries read meta audit " +:+ file_path);;
                 mret []
               else read_meta_audit_loop left' (S attempt) file_path
           end)
  end.

(** [DocumentVersionExplorer.read_meta_audit] *)
Definition read_meta_audit (file_path : string) : M (list string) :=
  read_meta_audit_loop max_retries 1 file_path.

(** The loop of [append_meta_audit]. *)
Fixpoint append_meta_audit_loop (left attempt : nat) (file_path : string)
    (new_unique_entries : list string) : M unit :=
  match left with
  | O => mret tt
  | S left' =>
      try_except
        (let ads_path := file_path +:+ ":meta_audit" in
         main ← path_exists file_path;
         if negb main then
           log_action ("ERROR: Append meta audit fail, file missing: " +:+ file_path)
         else append_text ads_path (entry_lines new_unique_entries))
        (fun e =>
           log_action ("ERROR: Append meta audit fail " +:+ file_path +:+ " (Att "
                       +:+ str_of_nat attempt +:+ "): " +:+ exn_str e);;
           if attempt =? max_retries then
             log_action ("ERROR: Max retries append meta audit " +:+ file_path)
           else append_meta_audit_loop left' (S attempt) file_path new_unique_entries)
  end.

(** [DocumentVersionExplorer.append_meta_audit] *)
Definition append_meta_audit (file_path : string) (entries_to_append : list string)
    : M unit :=
  match entries_to_append with
  | [] => mret tt
  | _ =>
      read ← read_meta_audit file_path;
      let existing_entries_set : gset string := list_to_set read in
      let new_unique_entries :=
        filter (fun entry => strip entry ≠ "" ∧ strip entry ∉ existing_entries_set)
               entries_to_append in
      match new_unique_entries with
      | [] => mret tt
      | _ => append_meta_audit_loop max_retries 1 file_path new_unique_entries
      end
  end.

(** [sorted(list(s))] for a set of strings. *)
Definition sorted_elements (s : gset string) : list string :=
  merge_sort String.le (elements s).

Fixpoint read_all (file_paths : list string) (all_unique_entries : gset string)
    : M (gset string) :=
  match file_paths with
  | [] => mret all_unique_entries
  | file_path :: rest =>
      read ← read_meta_audit file_path;
      read_all rest (all_unique_entries ∪ list_to_set read)
  end.

Fixpoint append_all (file_paths : list string) (entries_to_append_list : list string)
    : M unit :=
  match file_paths with
  | [] => mret tt
  | file_path :: rest =>
      append_meta_audit file_path entries_to_append_list;;
      append_all rest entries_to_append_list
  end.

(** [DocumentVersionExplorer.sync_meta_audit_streams] *)
Definition sync_meta_audit_streams (sorted_entries : list entry) : M unit :=
  match sorted_entries with
  | [] => mret tt
  | _ =>
      let file_paths := map e_path sorted_entries in
      all_unique_entries ← read_all file_paths ∅;
      if decide (all_unique_entries = ∅) then mret tt
      else
        let entries_to_append_list := sorted_elements all_unique_entries in
        append_all file_paths entries_to_append_list
  end.

(** The first loop of [load_versions]. *)
Fixpoint collect_entries (backup_directory base_name : string) (backups : list string)
    : M (list entry) :=
  match backups with
  | [] => mret []
  | name :: rest =>
      let path := path_join backup_directory name in
      here ← try_except_OSError
               (timestamp ← getctime path;
                mret [Entry timestamp base_name name path])
               (fun e =>
                  log_action ("ERROR: Access fail " +:+ path +:+ ": " +:+ exn_str e);;
                  mret []);
      entries ← collect_entries backup_directory base_name rest;
      mret (here ++ entries)
  end.

(** The count of changed lines as the launcher takes it from the diff. *)
Definition change_count (diff : list string) : nat :=
  count_lines_where
    (fun line => (startswith line "+" || startswith line "-")
                 && negb (startswith line "+++" || startswith line "---")) diff.

(** The body of the [try] that compares a file with the next older one. *)
Definition change_descriptor (curr_lines next_lines : list string) : string :=
  let diff := Difflib.unified_diff next_lines curr_lines in
  change_sign (length curr_lines) (length next_lines)
  +:+ str_of_nat (change_count diff) +:+ " lines".

Definition compare_versions (curr_path next_path : string) : M string :=
  try_except
    (curr ← read_text curr_path;
     next ← read_text next_path;
     mret (change_descriptor (readlines curr) (readlines next)))
    (fun e =>
       log_action ("ERROR: Compare fail " +:+ curr_path +:+ " / " +:+ next_path
                   +:+ ": " +:+ exn_str e);;
       mret "Error").

Definition count_total_lines (curr_path : string) : M string :=
  try_except
    (s ← read_text curr_path;
     mret (str_of_nat (length (readlines s))))
    (fun e =>
       log_action ("ERROR: Count lines fail " +:+ curr_path +:+ ": " +:+ exn_str e);;
       mret "Error").

(** The loop [for i in range(len(entries))]. *)
Fixpoint diff_loop (entries : list entry) : M (list string * list string) :=
  match entries with
  | [] => mret ([], [])
  | entry :: rest =>
      total ← count_total_lines (e_path entry);
      diff ← match rest with
             | [] => mret "N/A"
             | older :: _ => compare_versions (e_path entry) (e_path older)
             end;
      more ← diff_loop rest;
      mret (diff :: fst more, total :: snd more)
  end.

(** The loop that fills the tree. *)
Fixpoint build_rows (total_versions idx : nat) (items : list (entry * string * string))
    : M (list row) :=
  match items with
  | [] => mret []
  | (entry_data, diff_count, total_line_count) :: rest =>
      let version_number := total_versions - idx in
      meta ← read_ads_metadata (e_path entry_data);
      rows ← build_rows total_versions (S idx) rest;
      mret (Row (e_time entry_data) (e_base entry_data)
                ("V" +:+ str_of_nat version_number)
                diff_count total_line_count meta (e_path entry_data) :: rows)
  end.

(** [DocumentVersionExplorer.load_versions]: [filename] is what the
    selected item carries, [backup_directory] the attribute. *)
Definition load_versions (filename : option string) (backup_directory : string)
    : M outcome :=
  match filename with
  | None =>
      log_action "ERROR: No filename associated with selected master item.";;
      mret Untouched
  | Some filename =>
      let base_name := _get_base_name filename in
      log_action ("INFO: Loading versions for: " +:+ filename
                  +:+ " (Base: " +:+ base_name +:+ ")");;
      isdir ← path_isdir backup_directory;
      if String.eqb backup_directory "" || negb isdir then
        log_action "ERROR: Backup dir invalid.";; mret (Shown [])
      else
        listed ← try_except
                   (names ← listdir backup_directory;
                    let backups := backups_of base_name names in
                    log_action ("INFO: Found " +:+ str_of_nat (length backups)
                                +:+ " backups for base '" +:+ base_name +:+ "'.");;
                    mret (Some backups))
                   (fun e =>
                      log_action ("ERROR: List backups fail: " +:+ exn_str e);;
                      mret None);
        match listed with
        | None => mret (Shown [])
        | Some [] =>
            log_action ("INFO: No backups found for: " +:+ base_name);;
            mret (Shown [])
        | Some backups =>
            entries ← collect_entries backup_directory base_name backups;
            let entries := sort_entries entries in
            counts ← diff_loop entries;
            let total_versions := length entries in
            rows ← build_rows total_versions 0 (zip3 entries (fst counts) (snd counts));
            mret (Shown rows)
        end
  end.

End Dve.

(** ** The vocabulary of the properties *)

(** What a channel holds for a reader: its text, if it is there, can be
    opened and is UTF-8. *)
Definition channel_text (w : world) (p : string) : option string :=
  if decide (p ∈ rdeny w) then None
  else match nodes w !! p with
       | Some (Text s) => Some s
       | _ => None
       end.

(** A world with nothing in it. *)
Definition empty_world : world := World ∅ ∅ ∅ ∅ ∅ [].

(** Two worlds with the same file system; the logs may differ. *)
Definition files_eq (w w' : world) : Prop :=
  nodes w' = nodes w /\ rdeny w' = rdeny w /\ wdeny w' = wdeny w
  /\ dirs w' = dirs w /\ ctimes w' = ctimes w.

(** A computation that returns in every world, whatever the operating system
    answers: no exception leaves it. *)
Definition never_raises {A : Type} (c : M A) : Prop :=
  forall w, exists a w', c w = (Ok a, w').

(** A computation that returns in every world and leaves the files alone. *)
Definition reads_only {A : Type} (c : M A) : Prop :=
  forall w, exists a w', c w = (Ok a, w') /\ files_eq w w'.

(** The descriptors the loop over the versions must give in world [w] for
    files at [paths], newest first, for a way [descr] to describe the change
    between two lists of lines: the oldest file has none, and a pair that
    cannot be read is an error. *)
Fixpoint expected_diffs (descr : list string -> list string -> string)
    (w : world) (paths : list string) : list string :=
  match paths with
  | [] => []
  | p :: rest =>
      match rest with
      | [] => "N/A"
      | older :: _ =>
          match channel_text w p, channel_text w older with
          | Some curr, Some next => descr (readlines curr) (readlines next)
          | _, _ => "Error"
          end
      end :: expected_diffs descr w rest
  end.

(** The version labels of [n] rows, newest first. *)
Definition version_labels (n : nat) : list string :=
  map (fun i => "V" +:+ str_of_nat (n - i)) (seq 0 n).

(** The entries the first loop of a load must give for the backups [names]
    of directory [d] in world [w]: those whose creation time can be read,
    in the order of the listing. *)
Definition expected_entries (w : world) (d base : string) (names : list string)
    : list entry :=
  omap (fun name =>
          (fun t => Entry t base name (path_join d name))
            <$> ctimes w !! path_join d name) names.

(** The backups whose creation time cannot be read. *)
Definition unreadable_backups (w : world) (d : string) (names : list string)
    : list string :=
  filter (fun name => ctimes w !! path_join d name = None) names.

(** What the rows of a load must be, for the backups [names] of base name
    [base] listed in directory [d] of world [w], when the files are in the
    state of world [w1] as the versions are compared: one row for each backup
    whose creation time can be read, newest first, labelled from the number
    of rows down to one, with the change descriptors of [expected_diffs]. *)
Definition rows_of (descr : list string -> list string -> string)
    (w w1 : world) (d base : string) (names : list string) (rows : list row) : Prop :=
  let entries := sort_entries (expected_entries w d base (backups_of base names)) in
  (map row_path rows = map e_path entries
   /\ map row_time rows = map e_time entries
   /\ map row_version rows = version_labels (length rows)
   /\ map row_diff rows = expected_diffs descr w1 (map row_path rows)).

(** Rows in the order of the tree: no row is newer than one before it. *)
Definition newest_first (rows : list row) : Prop :=
  StronglySorted (fun x y => (y <= x)%Z) (map row_time rows).

(** What every load shows, in a world [w]: rows newest first, labelled from
    their number down to one, with the change descriptors of
    [expected_diffs]. *)
Definition labelled_rows (descr : list string -> list string -> string)
    (w : world) (rows : list row) : Prop :=
  newest_first rows
  /\ map row_version rows = version_labels (length rows)
  /\ map row_diff rows = expected_diffs descr w (map row_path rows).

(** Two worlds with the same backups: the files whose name ends in [.bak]
    are the same, and so are the rights and what a load is answered when it
    lists and dates the backups.  The audit streams and the temporary files
    may differ. *)
Definition backups_eq (w w' : world) : Prop :=
  (forall q, endswith q ".bak" = true -> nodes w' !! q = nodes w !! q)
  /\ rdeny w' = rdeny w /\ wdeny w' = wdeny w
  /\ dirs w' = dirs w /\ ctimes w' = ctimes w.

(** A computation that leaves the backups alone, whether it returns or
    raises. *)
Definition keeps_backups {A : Type} (c : M A) : Prop :=
  forall w, backups_eq w (snd (c w)).

(** The backups whose creation time can be read. *)
Definition readable_backups (w : world) (d : string) (names : list string)
    : list string :=
  filter (fun name => is_Some (ctimes w !! path_join d name)) names.

(** A partial result: the rows are those of the readable backups among
    [names] in directory [d], and as many rows are missing as there are
    unreadable backups. *)
Definition partial_result (w : world) (d : string) (names : list string)
    (rows : list row) : Prop :=
  map row_path rows ≡ₚ map (path_join d) (readable_backups w d names)
  /\ length rows + length (unreadable_backups w d names) = length names.



(** ** A directory of backups, for examples

    Four backups of [report.txt]: the second and the third are the same,
    the creation time of the fourth cannot be read, and the first has an
    audit stream. *)
Module Demo.

Definition dir : string := "C:\b".
Definition v1 : string := "report.txt.2024-01-01_090000.bak".
Definition v2 : string := "report.txt.2024-01-02_100000.bak".
Definition v3 : string := "report.txt.2024-01-03_110000.bak".
Definition v4 : string := "report.txt.2024-01-04_120000.bak".

Definition names : list string := ["report.txt"; v1; v2; v3; v4].

Definition w0 : world :=
  World (list_to_map [(path_join dir v1, Text ("a" +:+ NL));
                      (path_join dir v2, Text ("a" +:+ NL +:+ "b" +:+ NL));
                      (path_join dir v3, Text ("a" +:+ NL +:+ "b" +:+ NL));
                      (path_join dir v4, Text ("c" +:+ NL));
                      (path_join dir v1 +:+ ":meta_audit", Text ("[t] x" +:+ NL))])
        ∅ ∅
        (list_to_map [(dir, names)])
        (list_to_map [(path_join dir v1, 10%Z); (path_join dir v2, 20%Z);
                      (path_join dir v3, 30%Z)])
        [].

(** The rows [load_versions] shows for [report.txt]. *)
Definition rows : list row :=
  match fst (Dve.load_versions (Some "report.txt") dir w0) with
  | Ok (Shown rows) => rows
  | _ => []
  end.

(** The rows [load_backups_from_name] shows for it. *)
Definition snap_rows : list row :=
  match fst (Snap.load_backups_from_name "C:\s" "C:\x\report.txt" dir w0) with
  | Ok (Shown rows) => rows
  | _ => []
  end.

End Demo.

(** ** Two lists that are the same, for [find_longest_match]

    The number of elements of [l] just before index [i], one after the other,
    that are not popular: the length the match along the diagonal has when
    the loop of [find_longest_match] comes to row [i]. *)
Fixpoint diagonal_run {A : Type} `{EqDecision A} (l : list A) (i : nat) : nat :=
  match i with
  | O => 0
  | S i' =>
      match l !! i' with
      | Some x => if Difflib.popular l x then 0 else S (diagonal_run l i')
      | None => 0
      end
  end.

(** What [j2len] holds when the loop comes to row [i]: no match is longer
    than the diagonal run of its row or of its column, and the match on the
    diagonal is the whole run. *)
Definition diagonal_j2len {A : Type} `{EqDecision A} (l : list A) (i : nat)
    (j2len : gmap nat nat) : Prop :=
  (forall j, Difflib.j2lenget j2len j <= diagonal_run l i
             /\ Difflib.j2lenget j2len j <= diagonal_run l j)
  /\ Difflib.j2lenget j2len i = diagonal_run l i.

(** What [newj2len] holds while row [i] is gone through. *)
Definition entries_bounded {A : Type} `{EqDecision A} (l : list A) (i : nat)
    (newj2len : gmap nat nat) : Prop :=
  forall j k, newj2len !! j = Some k ->
    k <= diagonal_run l (S i) /\ k <= diagonal_run l (S j).

(** The best match so far lies on the diagonal, ends at [lim] or before, and
    is as long as every diagonal run up to row [seen]. *)
Definition diagonal_best {A : Type} `{EqDecision A} (l : list A) (lim seen : nat)
    (best : Difflib.block) : Prop :=
  let '(besti, bestj, bestsize) := best in
  besti = bestj /\ besti + bestsize <= lim
  /\ forall r, r <= seen -> diagonal_run l r <= bestsize.

(** ** The audit streams, for the properties *)

Definition CR : ascii := ascii_of_nat 13.

(** An entry of one line: no line feed and no carriage return in it. *)
Definition single_line (e : string) : bool :=
  negb (contains LF e) && negb (contains CR e).

(** A text that ends where a line ends: the empty text, or one whose last
    character is a line feed. *)
Definition terminated (s : string) : bool := String.eqb s "" || endswith s NL.

(** The text of the audit stream of the file at [p] for a reader, when the
    stream can be read; a stream that is not there reads as the empty
    text. *)
Definition stream_text (w : world) (p : string) : option string :=
  if decide (p +:+ ":meta_audit" ∈ rdeny w) then None
  else match nodes w !! (p +:+ ":meta_audit") with
       | None => Some ""
       | Some (Text s) => Some s
       | Some Undecodable => None
       end.

(** The audit entries of the file at [p], as a set. *)
Definition audit_entries (w : world) (p : string) : gset string :=
  match stream_text w p with
  | Some s => list_to_set (stripped_lines (readlines s))
  | None => ∅
  end.

(** The entries [append_meta_audit] finds new, for a stream of text [s]. *)
Definition new_entries_for (s : string) (entries : list string) : list string :=
  filter (fun entry => strip entry ≠ ""
                       ∧ strip entry ∉ (list_to_set (stripped_lines (readlines s)) : gset string))
         entries.

(** ** The changed lines of a unified diff *)

(** A line of the diff that stands for a removal or an addition. *)
Definition is_change (d : Difflib.dline) : bool :=
  match d with
  | Difflib.Removal _ | Difflib.Addition _ => true
  | _ => false
  end.

(** The number of removals and additions in the diff from [a] to [b]. *)
Definition changed_lines (a b : list string) : nat :=
  length (filter (fun d => is_change d) (Difflib.unified_diff_lines a b)).

(** A line of a hunk: the hunk header, which starts with an at sign, or a
    line of one of the files. *)
Definition hunk_line (d : Difflib.dline) : Prop :=
  match d with
  | Difflib.FileHeader _ => False
  | Difflib.HunkHeader s => startswith s "@" = true
  | _ => True
  end.

(** A line of a hunk taken from [a] when it is a removal and from [b] when
    it is an addition. *)
Definition line_from (a b : list string) (d : Difflib.dline) : Prop :=
  match d with
  | Difflib.Removal l => l ∈ a
  | Difflib.Addition l => l ∈ b
  | _ => True
  end.

(** The audit entries of the file at [p] in the order of the stream;
    nothing when the stream cannot be read. *)
Definition stream_lines (w : world) (p : string) : list string :=
  match stream_text w p with
  | Some s => stripped_lines (readlines s)
  | None => []
  end.

(** The audit entries of all the files at [paths], as a set. *)
Definition all_audit_entries (w : world) (paths : list string) : gset string :=
  list_to_set (flat_map (stream_lines w) paths).

(** An audit stream in good order: it can be written, and it can be read
    and ends a line, or is not there. *)
Definition stream_ok (w : world) (p : string) : Prop :=
  (p +:+ ":meta_audit" ∉ wdeny w)
  /\ exists s, stream_text w p = Some s /\ terminated s = true.

(** An entry as [read_meta_audit] gives it: stripped, not blank, without a
    line feed. *)
Definition clean_entry (e : string) : Prop :=
  strip e = e /\ e <> "" /\ contains LF e = false.

(** The file at [p] is there, for [os.path.exists]. *)
Definition file_there (w : world) (p : string) : Prop :=
  fst (path_exists p w) = Ok true.

(** ** [SnapVersion+Plus.py]: class [MetadataHistoryDialog] *)

Module SnapHistory.

(** [MetadataHistoryDialog.get_log_history_for_file] *)
Definition get_log_history_for_file (file_path : string) : M (list string) :=
  try_except
    (let ads_path := file_path +:+ ":meta_audit" in
     s ← read_text ads_path;
     mret (rev (stripped_lines (readlines s))))
    (fun _ => mret []).

End SnapHistory.

(** ** [DocumentVersionExplorer.py]: class [MetadataHistoryDialog] *)

Module DveHistory.

(** The loop [for entry in raw_history[::-1]] with its two accumulators. *)
Fixpoint unique_loop (entries : list string) (seen : gset string)
    (unique_history : list string) : list string :=
  match entries with
  | [] => unique_history
  | entry :: rest =>
      if decide (entry ∈ seen) then unique_loop rest seen unique_history
      else unique_loop rest ({[entry]} ∪ seen) (unique_history ++ [entry])
  end.

(** [MetadataHistoryDialog._get_log_history_for_file]; the logger is the
    [log_action] of the window. *)
Definition _get_log_history_for_file (file_path : string) : M (list string) :=
  try_except
    (let ads_path := file_path +:+ ":meta_audit" in
     there ← path_exists ads_path;
     if negb there then
       main ← path_exists file_path;
       (if negb main then
          log_action ("WARNING: Main file not found for history: " +:+ file_path)
        else mret tt);;
       mret []
     else
       s ← read_text ads_path;
       let raw_history := stripped_lines (readlines s) in
       let unique_history := rev (unique_loop (rev raw_history) ∅ []) in
       (if negb (length raw_history =? length unique_history) then
          log_action ("INFO: Deduplicated history for " +:+ basename file_path +:+ " ("
                      +:+ str_of_nat (length raw_history) +:+ " -> "
                      +:+ str_of_nat (length unique_history) +:+ " entries)")
        else mret tt);;
       mret unique_history)
    (fun e =>
       match e with
       | FileNotFoundError => mret []
       | _ =>
           log_action ("ERROR: Read history fail " +:+ file_path +:+ ": " +:+ exn_str e);;
           mret []
       end).

End DveHistory.

(** The entries of a list that are not in [seen], each at the first place
    it has. *)
Fixpoint first_places (entries : list string) (seen : gset string) : list string :=
  match entries with
  | [] => []
  | entry :: rest =>
      if decide (entry ∈ seen) then first_places rest seen
      else entry :: first_places rest ({[entry]} ∪ seen)
  end.

(** ** What the two windows do with the rows they show *)

(** The row [r] with [meta] in the column of meta tags, as
    [item.setText(5, meta)] leaves it. *)
Definition with_meta (r : row) (meta : string) : row :=
  Row (row_time r) (row_base r) (row_version r) (row_diff r) (row_total r) meta
      (row_path r).

(** The meta tag of the file at [p] for a reader: the text of its [:source]
    stream, stripped, and the empty text when the stream cannot be read. *)
Definition source_tag (w : world) (p : string) : string :=
  default "" (strip <$> channel_text w (p +:+ ":source")).

Module SnapWindow.

(** The loop of [BackupViewer.refresh_meta_tags] over the rows of the tree:
    the rows as the loop leaves them, with the exception that stopped it
    when one did. *)
Fixpoint refresh_loop (rows : list row) (w : world)
    : (list row * option exn) * world :=
  match rows with
  | [] => (([], None), w)
  | item :: rest =>
      let file_path := row_path item in
      match Snap.read_ads_metadata file_path w with
      | (Ok new_meta, w1) =>
          let '((rest', e), w2) := refresh_loop rest w1 in
          ((with_meta item new_meta :: rest', e), w2)
      | (Raise e, w1) => ((item :: rest, Some e), w1)
      end
  end.

(** [BackupViewer.refresh_meta_tags]; it gives the rows of the tree as it
    leaves them. *)
Definition refresh_meta_tags (rows : list row) : M (list row) := fun w =>
  match refresh_loop rows w with
  | ((rows', None), w1) =>
      (log_action "INFO: Refreshed Meta Tags for all displayed files";; mret rows') w1
  | ((rows', Some e), w1) =>
      (log_action ("ERROR: Failed to refresh Meta Tags: " +:+ exn_str e);; mret rows') w1
  end.

End SnapWindow.

Module DveWindow.

(** [DocumentVersionExplorer._get_backup_count], with the attribute it
    reads. *)
Definition _get_backup_count (backup_directory base_name : string) : M nat :=
  isdir ← path_isdir backup_directory;
  if String.eqb backup_directory "" || negb isdir then mret 0
  else
    try_except
      (names ← listdir backup_directory;
       let backups := backups_of base_name names in
       mret (length backups))
      (fun e =>
         log_action ("ERROR: Count backups fail '" +:+ base_name +:+ "': " +:+ exn_str e);;
         mret 0).

(** The loop of [DocumentVersionExplorer.refresh_meta_tags]; every row of
    the tree carries its path. *)
Fixpoint refresh_loop (rows : list row) (changed : bool) (w : world)
    : (list row * bool * option exn) * world :=
  match rows with
  | [] => (([], changed, None), w)
  | item :: rest =>
      let file_path := row_path item in
      let old_meta := row_meta item in
      match Dve.read_ads_metadata file_path w with
      | (Ok new_meta, w1) =>
          if negb (String.eqb old_meta new_meta) then
            let '((rest', changed', e), w2) := refresh_loop rest true w1 in
            ((with_meta item new_meta :: rest', changed', e), w2)
          else
            let '((rest', changed', e), w2) := refresh_loop rest changed w1 in
            ((item :: rest', changed', e), w2)
      | (Raise e, w1) => ((item :: rest, changed, Some e), w1)
      end
  end.

(** [DocumentVersionExplorer.refresh_meta_tags] *)
Definition refresh_meta_tags (rows : list row) : M (list row) := fun w =>
  match refresh_loop rows false
          (snd (log_action "INFO: Refreshing meta tags..." w)) with
  | ((rows', changed, None), w1) =>
      ((if changed then log_action "INFO: Meta Tags refreshed (changes)."
        else log_action "INFO: Meta Tags refreshed (no changes).");;
       mret rows') w1
  | ((rows', _, Some e), w1) =>
      (log_action ("ERROR: Meta Tag refresh: " +:+ exn_str e);; mret rows') w1
  end.

End DveWindow.

(** A line of the diff [load_versions] counts: a removal that does not
    start with two minus signs, or an addition that does not start with two
    plus signs. *)
Definition counted_by_dve (d : Difflib.dline) : bool :=
  match d with
  | Difflib.Removal l => negb (startswith l "--")
  | Difflib.Addition l => negb (startswith l "++")
  | _ => false
  end.

(** ** [DocumentVersionExplorer.py]: the log file *)

Section GlobalLog.

(** [os.path.dirname] and [os.makedirs(d, exist_ok=True)], whatever they do
    on the machine. *)
Variable dirname : string -> string.
Variable makedirs : string -> M unit.

(** [log_action_global]; [timestamp] is the time of the call, formatted.
    What it prints when the writing fails goes to no file. *)
Definition log_action_global (log_file_path timestamp message : string) : M unit :=
  let log_entry := "[" +:+ timestamp +:+ "] " +:+ message +:+ NL in
  try_except
    (makedirs (dirname log_file_path);;
     there ← path_exists log_file_path;
     logged ← (if (there : bool) then
                 s ← read_text log_file_path;
                 let lines := readlines s in
                 mret (match last lines with
                       | Some l => String.eqb (strip l) (strip log_entry)
                       | None => false
                       end)
               else mret false);
     if (logged : bool) then mret tt
     else append_text log_file_path log_entry)
    (fun _ => mret tt).

End GlobalLog.

(** A [makedirs] that makes directories only: whether it returns or
    raises, the files and the rights are as they were. *)
Definition makes_directories (makedirs : string -> M unit) : Prop :=
  forall d w,
    nodes (snd (makedirs d w)) = nodes w
    /\ rdeny (snd (makedirs d w)) = rdeny w
    /\ wdeny (snd (makedirs d w)) = wdeny w.

(** The last line of the text [s] is the entry, white space at both ends
    apart. *)
Definition last_line_is (s entry : string) : bool :=
  match last (readlines s) with
  | Some l => String.eqb (strip l) (strip entry)
  | None => false
  end.

(** * Properties *)

(** ** Strings *)

Lemma append_nil_l (s : string) : "" +:+ s = s.
Proof. reflexivity. Qed.

Lemma append_cons (c : ascii) (s t : string) : String c s +:+ t = String c (s +:+ t).
Proof. reflexivity. Qed.

(** [String.append] does not unfold under [simpl]; these equations do it. *)
Ltac app_simpl := rewrite ?append_cons, ?append_nil_l in *.

Lemma append_nil_r (s : string) : s +:+ "" = s.
Proof. induction s as [|c s IH]; app_simpl; congruence. Qed.

Lemma append_assoc (s t u : string) : (s +:+ t) +:+ u = s +:+ (t +:+ u).
Proof. induction s as [|c s IH]; app_simpl; congruence. Qed.

Lemma length_append (s t : string) :
  String.length (s +:+ t) = String.length s + String.length t.
Proof. induction s as [|c s IH]; app_simpl; simpl; congruence. Qed.

Lemma split_first_no_sep (c : ascii) (s : string) :
  contains c (split_first c s) = false.
Proof.
  induction s as [|d s IH]; simpl; [reflexivity|].
  destruct (Ascii.eqb c d) eqn:E; simpl; [reflexivity|]. now rewrite E.
Qed.

Lemma split_first_id (c : ascii) (s : string) :
  contains c s = false -> split_first c s = s.
Proof.
  induction s as [|d s IH]; simpl; [reflexivity|].
  destruct (Ascii.eqb c d); [discriminate|]. intros H. now rewrite IH.
Qed.

Lemma contains_nonempty (c : ascii) (s : string) :
  contains c s = true -> 0 < String.length s.
Proof. destruct s; simpl; [discriminate | lia]. Qed.

(** ** Base names (C2) *)

Lemma strip_extensions_spec (base : string) :
  Snap.strip_extensions (String.length base) base = split_first "." base.
Proof.
  destruct (contains "." base) eqn:E.
  - pose proof (contains_nonempty _ _ E) as Hlen.
    destruct (String.length base) as [|fuel]; [lia|]. simpl. rewrite E.
    destruct fuel as [|fuel]; simpl; [reflexivity|].
    now rewrite split_first_no_sep.
  - rewrite (split_first_id _ _ E).
    destruct (String.length base); simpl; [reflexivity | now rewrite E].
Qed.

Ltac eat_char H s :=
  destruct s as [|? s]; [discriminate H|];
  apply andb_prop in H as [_ H].

Lemma stamp_tail_length (s : string) :
  stamp_tail s = true -> String.length s = 22 \/ String.length s = 23.
Proof.
  unfold stamp_tail. cbn [Re.rep Re.lit Re.chr Re.cls]. intros H.
  do 22 (eat_char H s).
  unfold Re.eos in H. apply orb_prop in H as [H|H];
    apply String.eqb_eq in H; subst s; [left | right]; reflexivity.
Qed.

Lemma group_dotstar_short (s : string) :
  String.length s < 22 -> Re.group_dotstar stamp_tail s = None.
Proof.
  induction s as [|c s IH]; intros Hlen.
  - reflexivity.
  - assert (Hk : stamp_tail (String c s) = false).
    { destruct (stamp_tail (String c s)) eqn:E; [|reflexivity].
      apply stamp_tail_length in E. lia. }
    cbn [Re.group_dotstar]. rewrite Hk, IH by (simpl in Hlen; lia).
    now destruct (Re.dot c).
Qed.

(** A string of [n] digits, character by character. *)
Tactic Notation "digits_of" integer(n) hyp(H) ident(s) :=
  let Hlen := fresh "Hlen" in
  unfold is_digits in H; apply andb_prop in H as [Hlen H];
  apply Nat.eqb_eq in Hlen;
  do n (destruct s as [|? s]; [simpl in Hlen; discriminate Hlen|]);
  destruct s; [|simpl in Hlen; discriminate Hlen];
  clear Hlen; simpl in H;
  repeat (apply andb_prop in H as [? H]); clear H.

Lemma stamp_suffix_matches (y m d t : string) :
  is_digits 4 y = true -> is_digits 2 m = true ->
  is_digits 2 d = true -> is_digits 6 t = true ->
  stamp_tail (stamp_suffix y m d t) = true
  /\ exists rest, stamp_suffix y m d t = String "." rest /\ String.length rest = 21.
Proof.
  intros Hy Hm Hd Ht.
  digits_of 4 Hy y. digits_of 2 Hm m. digits_of 2 Hd d. digits_of 6 Ht t.
  split.
  - unfold stamp_suffix, stamp_tail. rewrite ?append_cons, ?append_nil_l.
    cbn [Re.rep Re.lit Re.chr Re.cls].
    repeat match goal with E : isdigit _ = true |- _ => rewrite E; clear E end.
    reflexivity.
  - unfold stamp_suffix. rewrite ?append_cons, ?append_nil_l.
    eexists. split; [reflexivity|]. reflexivity.
Qed.

Lemma match_backup_pattern_stem (stem y m d t : string) :
  contains LF stem = false ->
  is_digits 4 y = true -> is_digits 2 m = true ->
  is_digits 2 d = true -> is_digits 6 t = true ->
  match_backup_pattern (stem +:+ stamp_suffix y m d t) = Some stem.
Proof.
  intros Hlf Hy Hm Hd Ht.
  destruct (stamp_suffix_matches y m d t Hy Hm Hd Ht) as [Hk [rest [Hs Hlen]]].
  unfold match_backup_pattern.
  induction stem as [|c stem IH].
  - rewrite append_nil_l. rewrite Hs in *. cbn [Re.group_dotstar].
    rewrite group_dotstar_short by lia. rewrite Hk. reflexivity.
  - cbn [contains] in Hlf. destruct (Ascii.eqb LF c) eqn:E; [discriminate|].
    rewrite append_cons. cbn [Re.group_dotstar]. unfold Re.dot.
    rewrite Ascii.eqb_sym, E. simpl. now rewrite IH.
Qed.

(** C2, as the code has it: on a name that is a stem (without line feed)
    followed by the stamp of a backup, [_get_base_name] of
    DocumentVersionExplorer returns the stem as it is, dots included, and
    [_get_base_name] of SnapVersion+Plus returns the stem up to its first
    dot, which is the whole stem when it has none. *)
Theorem base_name_of_backup (stem y m d t : string) :
  contains LF stem = false ->
  is_digits 4 y = true -> is_digits 2 m = true ->
  is_digits 2 d = true -> is_digits 6 t = true ->
  Dve._get_base_name (stem +:+ stamp_suffix y m d t) = stem
  /\ Snap._get_base_name (stem +:+ stamp_suffix y m d t) = split_first "." stem.
Proof.
  intros Hlf Hy Hm Hd Ht.
  pose proof (match_backup_pattern_stem stem y m d t Hlf Hy Hm Hd Ht) as Hmatch.
  unfold Dve._get_base_name, Snap._get_base_name. rewrite Hmatch.
  split; [reflexivity | apply strip_extensions_spec].
Qed.

Lemma base_name_of_backup_witness :
  Dve._get_base_name ("script.py" +:+ stamp_suffix "2025" "05" "03" "115301") = "script.py"
  /\ Snap._get_base_name ("script.py" +:+ stamp_suffix "2025" "05" "03" "115301")
     = split_first "." "script.py".
Proof.
  apply (base_name_of_backup "script.py" "2025" "05" "03" "115301"); reflexivity.
Defined.

(** C2 fails in SnapVersion+Plus: the stem [script.py] of a backup comes
    back as [script]. *)
Lemma base_name_of_backup_counterexample :
  Snap._get_base_name ("script.py" +:+ stamp_suffix "2025" "05" "03" "115301")
  <> "script.py".
Proof. vm_compute. discriminate. Qed.

(** ** Stripping *)

Lemma lstrip_idem (s : string) : lstrip (lstrip s) = lstrip s.
Proof.
  induction s as [|c s IH]; [reflexivity|]. cbn [lstrip].
  destruct (isspace c) eqn:E; [exact IH|]. cbn [lstrip]. now rewrite E.
Qed.

Lemma rstrip_tail (c : ascii) (s : string) :
  rstrip (String c s) = String c s -> rstrip s = s.
Proof.
  cbn [rstrip]. destruct (rstrip s) as [|d r] eqn:E.
  - destruct (isspace c); [discriminate|]. congruence.
  - congruence.
Qed.

Lemma rstrip_idem (s : string) : rstrip (rstrip s) = rstrip s.
Proof.
  induction s as [|c s IH]; [reflexivity|]. cbn [rstrip].
  destruct (rstrip s) as [|d r] eqn:E.
  - destruct (isspace c) eqn:Ec; [reflexivity|]. cbn [rstrip]. now rewrite Ec.
  - cbn [rstrip] in *. now rewrite IH.
Qed.

Lemma lstrip_keeps_rstripped (s : string) : rstrip s = s -> rstrip (lstrip s) = lstrip s.
Proof.
  induction s as [|c s IH]; intros H; [reflexivity|]. cbn [lstrip].
  destruct (isspace c); [|exact H]. apply IH. eapply rstrip_tail, H.
Qed.

Lemma strip_idem (s : string) : strip (strip s) = strip s.
Proof.
  unfold strip. rewrite lstrip_keeps_rstripped by apply rstrip_idem.
  apply lstrip_idem.
Qed.

Lemma rstrip_app_space (c : ascii) (s : string) :
  isspace c = true -> rstrip (s +:+ String c "") = rstrip s.
Proof.
  intros Hc. induction s as [|d s IH].
  - rewrite append_nil_l. cbn [rstrip]. now rewrite Hc.
  - rewrite append_cons. cbn [rstrip]. now rewrite IH.
Qed.

Lemma strip_app_NL (s : string) : strip (s +:+ NL) = strip s.
Proof. unfold strip, NL. now rewrite rstrip_app_space. Qed.

(** ** The source channel (C8, C9) *)

Lemma read_text_channel (p : string) (w : world) :
  (exists s, channel_text w p = Some s /\ read_text p w = (Ok s, w))
  \/ (channel_text w p = None /\ exists e, read_text p w = (Raise e, w)).
Proof.
  unfold channel_text, read_text. destruct (decide (p ∈ rdeny w)); [right; eauto|].
  destruct (nodes w !! p) as [[s|]|]; [left|right|right]; eauto.
Qed.

Ltac munfold :=
  unfold try_except_OSError, try_except, mbind, M_bind, mret, M_ret, raise,
    log_action, path_exists, path_isdir in *.

Lemma read_ads_metadata_result (file_path : string) (w : world) :
  let expected :=
    default "" (strip <$> channel_text w (file_path +:+ ":source")) in
  fst (Snap.read_ads_metadata file_path w) = Ok expected
  /\ fst (Dve.read_ads_metadata file_path w) = Ok expected.
Proof.
  cbv zeta. split.
  - unfold Snap.read_ads_metadata. munfold.
    destruct (read_text_channel (file_path +:+ ":source") w)
      as [(s & Hc & Hr)|(Hc & e & Hr)]; rewrite Hr, Hc; reflexivity.
  - unfold Dve.read_ads_metadata. munfold.
    destruct (read_text_channel (file_path +:+ ":source") w)
      as [(s & Hc & Hr)|(Hc & e & Hr)]; rewrite Hc.
    + assert (Hn : is_Some (nodes w !! (file_path +:+ ":source"))).
      { unfold channel_text in Hc. destruct (decide _); [discriminate|].
        destruct (nodes w !! _); [eauto | discriminate]. }
      rewrite (bool_decide_eq_true_2 _ Hn). cbn [orb negb]. now rewrite Hr.
    + destruct (bool_decide _ || bool_decide _); cbn [negb].
      * rewrite Hr. now destruct e.
      * now destruct (bool_decide _ || bool_decide _).
Qed.

(** C8: [read_ads_metadata], in both launchers, returns the stripped text of
    the [:source] channel of the path, or the empty string when the channel
    or the file is missing or cannot be read; it returns in every world and
    passes no exception on. *)
Theorem read_source_never_raises (file_path : string) (w : world) :
  let expected :=
    default "" (strip <$> channel_text w (file_path +:+ ":source")) in
  fst (Snap.read_ads_metadata file_path w) = Ok expected
  /\ fst (Dve.read_ads_metadata file_path w) = Ok expected.
Proof. apply read_ads_metadata_result. Qed.

Lemma stream_names_differ (p : string) : p +:+ ":meta_audit" <> p +:+ ":source".
Proof. intros H. apply (inj (String.app p)) in H. discriminate H. Qed.

Lemma save_meta_result (file_path text timestamp : string) (w : world) :
  file_path +:+ ":source" ∉ wdeny w ->
  let w' := snd (save_meta file_path text timestamp w) in
  fst (save_meta file_path text timestamp w) = Ok tt
  /\ nodes w' !! (file_path +:+ ":source") = Some (Text (strip text))
  /\ rdeny w' = rdeny w.
Proof.
  intros Hw. cbv zeta. unfold save_meta, write_text, append_text, write_bytes, append_bytes.
  munfold. destruct (decide (file_path +:+ ":source" ∈ wdeny w)); [contradiction|].
  cbn [wdeny set_nodes nodes].
  destruct (decide (file_path +:+ ":meta_audit" ∈ wdeny w)); cbn;
    (split; [reflexivity|]); (split; [|reflexivity]).
  - apply lookup_insert_eq.
  - rewrite lookup_insert_ne by apply stream_names_differ. apply lookup_insert_eq.
Qed.

(** C9: saving a text with the editor of meta tags stores the text
    stripped in the [:source] channel, whenever that channel can be written,
    and [read_ads_metadata] of either launcher then returns the stripped
    text, whenever the channel can be read.  The stripped text holds no
    carriage return: the text layer of Python hands a carriage return that
    was written back as a line feed, and the text of the editor has
    none. *)
Theorem save_then_read_source (file_path text timestamp : string) (w : world) :
  file_path +:+ ":source" ∉ wdeny w ->
  file_path +:+ ":source" ∉ rdeny w ->
  contains CR (strip text) = false ->
  let w' := snd (save_meta file_path text timestamp w) in
  fst (save_meta file_path text timestamp w) = Ok tt
  /\ nodes w' !! (file_path +:+ ":source") = Some (Text (strip text))
  /\ fst (Snap.read_ads_metadata file_path w') = Ok (strip text)
  /\ fst (Dve.read_ads_metadata file_path w') = Ok (strip text).
Proof.
  intros Hw Hr _. cbv zeta.
  destruct (save_meta_result file_path text timestamp w Hw) as (Hok & Hsrc & Hrd).
  split; [exact Hok|]. split; [exact Hsrc|].
  pose proof (read_ads_metadata_result file_path
                (snd (save_meta file_path text timestamp w))) as Hread.
  cbv zeta in Hread. unfold channel_text in Hread. rewrite Hrd, Hsrc in Hread.
  destruct (decide (file_path +:+ ":source" ∈ rdeny w)); [contradiction|].
  cbn in Hread. now rewrite strip_idem in Hread.
Qed.

Lemma save_then_read_source_witness :
  let w' := snd (save_meta "C:\b\a.txt" "  hello  " "2025-05-03 11:53:01" empty_world) in
  fst (save_meta "C:\b\a.txt" "  hello  " "2025-05-03 11:53:01" empty_world) = Ok tt
  /\ nodes w' !! ("C:\b\a.txt" +:+ ":source") = Some (Text (strip "  hello  "))
  /\ fst (Snap.read_ads_metadata "C:\b\a.txt" w') = Ok (strip "  hello  ")
  /\ fst (Dve.read_ads_metadata "C:\b\a.txt" w') = Ok (strip "  hello  ").
Proof.
  apply (save_then_read_source "C:\b\a.txt" "  hello  " "2025-05-03 11:53:01" empty_world).
  - vm_compute. discriminate.
  - vm_compute. discriminate.
  - vm_compute. reflexivity.
Defined.

(** ** Worlds and computations *)

Lemma files_eq_refl (w : world) : files_eq w w.
Proof. repeat split. Qed.

Lemma files_eq_trans (w1 w2 w3 : world) :
  files_eq w1 w2 -> files_eq w2 w3 -> files_eq w1 w3.
Proof. unfold files_eq. intuition congruence. Qed.

Lemma files_eq_log (f : list string -> list string) (w : world) :
  files_eq w (set_log f w).
Proof. repeat split. Qed.

Lemma files_eq_channel (w w' : world) (p : string) :
  files_eq w w' -> channel_text w' p = channel_text w p.
Proof. intros (Hn & Hr & _). unfold channel_text. now rewrite Hn, Hr. Qed.

Create HintDb world.

#[global] Hint Resolve files_eq_refl files_eq_log : world.

Lemma reads_only_never_raises {A : Type} (c : M A) : reads_only c -> never_raises c.
Proof. intros H w. destruct (H w) as (a & w' & E & _). eauto. Qed.

Lemma reads_only_ret {A : Type} (a : A) : reads_only (mret a).
Proof. intros w. exists a, w. split; [reflexivity | apply files_eq_refl]. Qed.

Lemma reads_only_log (m : string) : reads_only (log_action m).
Proof. intros w. eexists _, _. split; [reflexivity | apply files_eq_log]. Qed.

Lemma reads_only_bind {A B : Type} (c : M A) (f : A -> M B) :
  reads_only c -> (forall a, reads_only (f a)) -> reads_only (c ≫= f).
Proof.
  intros Hc Hf w. destruct (Hc w) as (a & w1 & E1 & F1).
  destruct (Hf a w1) as (b & w2 & E2 & F2).
  exists b, w2. unfold mbind, M_bind. rewrite E1. split; [exact E2|].
  eapply files_eq_trans; eassumption.
Qed.

(** The files of a world do not change while a text is read, and no more
    when the reading fails. *)
Lemma read_text_world {A : Type} (p : string) (f : string -> M A) (h : exn -> M A) :
  (forall s, reads_only (f s)) -> (forall e, reads_only (h e)) ->
  reads_only (try_except (read_text p ≫= f) h).
Proof.
  intros Hf Hh w. unfold try_except, mbind, M_bind.
  destruct (read_text_channel p w) as [(s & _ & Hr)|(_ & e & Hr)]; rewrite Hr.
  - destruct (Hf s w) as (a & w' & E & F). rewrite E. eauto.
  - apply Hh.
Qed.

Lemma never_raises_ret {A : Type} (a : A) : never_raises (mret a).
Proof. intros w. now exists a, w. Qed.

Lemma never_raises_log (m : string) : never_raises (log_action m).
Proof. intros w. now eexists _, _. Qed.

Lemma never_raises_bind {A B : Type} (c : M A) (f : A -> M B) :
  never_raises c -> (forall a, never_raises (f a)) -> never_raises (c ≫= f).
Proof.
  intros Hc Hf w. destruct (Hc w) as (a & w1 & E1).
  destruct (Hf a w1) as (b & w2 & E2).
  exists b, w2. unfold mbind, M_bind. now rewrite E1.
Qed.

(** A [try] with a handler for every exception returns as soon as its
    handlers do. *)
Lemma never_raises_try {A : Type} (c : M A) (h : exn -> M A) :
  (forall e, never_raises (h e)) -> never_raises (try_except c h).
Proof.
  intros Hh w. unfold try_except. destruct (c w) as [[a|e] w'].
  - now exists a, w'.
  - apply Hh.
Qed.

#[global] Hint Resolve never_raises_ret never_raises_log never_raises_bind
  never_raises_try reads_only_ret reads_only_log reads_only_bind : world.

(** ** Decimal numerals *)



(** ** The pattern of a change descriptor *)



(** ** The loop over the versions *)

Lemma bind_ok {A B : Type} (c : M A) (f : A -> M B) (w w' : world) (a : A) :
  c w = (Ok a, w') -> (c ≫= f) w = f a w'.
Proof. intros E. unfold mbind, M_bind. now rewrite E. Qed.

Lemma expected_diffs_files_eq (descr : list string -> list string -> string)
    (w w' : world) (paths : list string) :
  files_eq w w' -> expected_diffs descr w' paths = expected_diffs descr w paths.
Proof.
  intros F. induction paths as [|p rest IH]; [reflexivity|].
  cbn [expected_diffs]. rewrite IH. destruct rest as [|q rest]; [reflexivity|].
  now rewrite !(files_eq_channel w w') by exact F.
Qed.

Lemma expected_diffs_length (descr : list string -> list string -> string)
    (w : world) (paths : list string) :
  length (expected_diffs descr w paths) = length paths.
Proof. induction paths as [|p rest IH]; [reflexivity|]. simpl. now rewrite IH. Qed.

(** What the comparison of two files gives, in either launcher. *)
Ltac compare_versions_tac p q w :=
  unfold try_except, mbind, M_bind, mret, M_ret, log_action;
  destruct (read_text_channel p w) as [(s & Hc & Hr)|(Hc & e & Hr)];
    rewrite Hr, Hc;
    [ destruct (read_text_channel q w) as [(s' & Hc' & Hr')|(Hc' & e' & Hr')];
        rewrite Hr', Hc' | ];
    eexists; (split; [reflexivity | auto with world]).

Lemma snap_compare_versions (p q : string) (w : world) :
  exists w', Snap.compare_versions p q w
             = (Ok (match channel_text w p, channel_text w q with
                    | Some curr, Some next =>
                        Snap.change_descriptor (readlines curr) (readlines next)
                    | _, _ => "Error"
                    end), w')
             /\ files_eq w w'.
Proof. unfold Snap.compare_versions. compare_versions_tac p q w. Qed.

Lemma dve_compare_versions (p q : string) (w : world) :
  exists w', Dve.compare_versions p q w
             = (Ok (match channel_text w p, channel_text w q with
                    | Some curr, Some next =>
                        Dve.change_descriptor (readlines curr) (readlines next)
                    | _, _ => "Error"
                    end), w')
             /\ files_eq w w'.
Proof. unfold Dve.compare_versions. compare_versions_tac p q w. Qed.

Lemma snap_count_total_lines (p : string) : reads_only (Snap.count_total_lines p).
Proof. apply read_text_world; auto with world. Qed.

Lemma dve_count_total_lines (p : string) : reads_only (Dve.count_total_lines p).
Proof. apply read_text_world; auto with world. Qed.

(** The proof is the same for the two copies of the loop. *)
Ltac diff_loop_proof count_lemma compare compare_lemma descr :=
  let entries := fresh "entries" in
  let w := fresh "w" in
  intros entries w; revert w;
  induction entries as [|e rest IH]; intros w;
  [ exists [], w; repeat split
  | destruct (count_lemma (e_path e) w) as (t & w1 & E1 & F1);
    assert (exists w2,
      (match rest with
       | [] => mret "N/A"
       | older :: _ => compare (e_path e) (e_path older)
       end) w1
      = (Ok (match map e_path rest with
             | [] => "N/A"
             | older :: _ =>
                 match channel_text w (e_path e), channel_text w older with
                 | Some curr, Some next => descr (readlines curr) (readlines next)
                 | _, _ => "Error"
                 end
             end), w2) /\ files_eq w1 w2) as (w2 & E2 & F2);
    [ destruct rest as [|older rest'];
      [ exists w1; split; [reflexivity | apply files_eq_refl]
      | destruct (compare_lemma (e_path e) (e_path older) w1) as (w2 & E & F);
        exists w2; split; [|exact F]; rewrite E; cbn [map];
        now rewrite !(files_eq_channel w w1) by exact F1 ]
    | destruct (IH w2) as (ts & w3 & E3 & F3 & L3);
      exists (t :: ts), w3; simpl;
      erewrite bind_ok by exact E1; erewrite bind_ok by exact E2;
      erewrite bind_ok by exact E3; cbn [fst snd];
      rewrite (expected_diffs_files_eq _ w w2) by (eapply files_eq_trans; eassumption);
      split; [reflexivity|]; split; [|simpl; congruence];
      apply (files_eq_trans w w1 w3 F1 (files_eq_trans w1 w2 w3 F2 F3)) ] ].

Lemma snap_diff_loop (entries : list entry) (w : world) :
  exists ts w', Snap.diff_loop entries w
                = (Ok (expected_diffs Snap.change_descriptor w (map e_path entries), ts), w')
                /\ files_eq w w' /\ length ts = length entries.
Proof.
  revert entries w.
  diff_loop_proof snap_count_total_lines Snap.compare_versions snap_compare_versions
    Snap.change_descriptor.
Qed.

Lemma dve_diff_loop (entries : list entry) (w : world) :
  exists ts w', Dve.diff_loop entries w
                = (Ok (expected_diffs Dve.change_descriptor w (map e_path entries), ts), w')
                /\ files_eq w w' /\ length ts = length entries.
Proof.
  revert entries w.
  diff_loop_proof dve_count_total_lines Dve.compare_versions dve_compare_versions
    Dve.change_descriptor.
Qed.

(** ** The rows *)

Lemma snap_read_ads_metadata_reads_only (p : string) :
  reads_only (Snap.read_ads_metadata p).
Proof. apply read_text_world; auto with world. Qed.

Lemma dve_read_ads_metadata_reads_only (p : string) :
  reads_only (Dve.read_ads_metadata p).
Proof.
  intros w. unfold Dve.read_ads_metadata. munfold.
  destruct (bool_decide _ || bool_decide _); cbn [negb].
  - destruct (read_text_channel (p +:+ ":source") w) as [(s & _ & Hr)|(_ & e & Hr)];
      rewrite Hr; [|destruct e]; eexists _, _; (split; [reflexivity | auto with world]).
  - destruct (bool_decide _ || bool_decide _); cbn [negb];
      eexists _, _; (split; [reflexivity | auto with world]).
Qed.

Lemma zip3_columns (es : list entry) (ds ts : list string) :
  length ds = length es -> length ts = length es ->
  map (fun x => e_path (fst (fst x))) (zip3 es ds ts) = map e_path es
  /\ map (fun x => snd (fst x)) (zip3 es ds ts) = ds
  /\ length (zip3 es ds ts) = length es
  /\ map (fun x => e_time (fst (fst x))) (zip3 es ds ts) = map e_time es.
Proof.
  revert ds ts. induction es as [|e es IH]; intros [|d ds] [|t ts] Hd Ht;
    try discriminate; [repeat split|].
  simpl in *. destruct (IH ds ts) as (H1 & H2 & H3 & H4); [lia | lia |].
  rewrite H1, H2, H3, H4. repeat split.
Qed.

Ltac build_rows_proof meta_lemma :=
  let items := fresh "items" in
  intros items; induction items as [|[[e d] t] rest IH]; intros total idx w;
  [ exists [], w; repeat split
  | destruct (meta_lemma (e_path e) w) as (meta & w1 & E1 & F1);
    destruct (IH total (S idx) w1) as (rows & w2 & E2 & F2 & Hv & Hd & Hp & Ht);
    eexists _, w2; simpl;
    erewrite bind_ok by exact E1; erewrite bind_ok by exact E2;
    split; [reflexivity|]; split; [eapply files_eq_trans; eassumption|];
    simpl; rewrite Hv, Hd, Hp, Ht; repeat split ].

Lemma snap_build_rows (items : list (entry * string * string)) (total idx : nat)
    (w : world) :
  exists rows w', Snap.build_rows total idx items w = (Ok rows, w')
    /\ files_eq w w'
    /\ map row_version rows
       = map (fun i => "V" +:+ str_of_nat (total - i)) (seq idx (length items))
    /\ map row_diff rows = map (fun x => snd (fst x)) items
    /\ map row_path rows = map (fun x => e_path (fst (fst x))) items
    /\ map row_time rows = map (fun x => e_time (fst (fst x))) items.
Proof.
  revert items total idx w. build_rows_proof snap_read_ads_metadata_reads_only.
Qed.

Lemma dve_build_rows (items : list (entry * string * string)) (total idx : nat)
    (w : world) :
  exists rows w', Dve.build_rows total idx items w = (Ok rows, w')
    /\ files_eq w w'
    /\ map row_version rows
       = map (fun i => "V" +:+ str_of_nat (total - i)) (seq idx (length items))
    /\ map row_diff rows = map (fun x => snd (fst x)) items
    /\ map row_path rows = map (fun x => e_path (fst (fst x))) items
    /\ map row_time rows = map (fun x => e_time (fst (fst x))) items.
Proof.
  revert items total idx w. build_rows_proof dve_read_ads_metadata_reads_only.
Qed.

(** ** The entries *)

Lemma getctime_result (p : string) (w : world) :
  (exists t, ctimes w !! p = Some t /\ getctime p w = (Ok t, w))
  \/ (ctimes w !! p = None
      /\ exists e, is_OSError e = true /\ getctime p w = (Raise e, w)).
Proof.
  unfold getctime. destruct (ctimes w !! p) as [t|]; [left; eauto|].
  right. split; [reflexivity|].
  destruct (bool_decide _); eexists; (split; [|reflexivity]); reflexivity.
Qed.

Lemma expected_entries_files_eq (w w' : world) (d base : string) (names : list string) :
  files_eq w w' -> expected_entries w' d base names = expected_entries w d base names.
Proof. intros (_ & _ & _ & _ & Hc). unfold expected_entries. now rewrite Hc. Qed.

Ltac collect_entries_proof d base :=
  let backups := fresh "backups" in
  intros backups; induction backups as [|name rest IH]; intros w;
  [ exists w; split; [reflexivity | apply files_eq_refl]
  | simpl;
    match goal with |- (exists w', (?c ≫= ?k) w = _ /\ _) =>
      assert (exists w1,
        c w = (Ok (expected_entries w d base [name]), w1) /\ files_eq w w1)
        as (w1 & E1 & F1);
    [ unfold expected_entries; cbn [omap list_omap];
      unfold try_except_OSError, try_except, mbind, M_bind, mret, M_ret, raise, log_action;
      destruct (getctime_result (path_join d name) w)
        as [(t & Hc & Hg)|(Hc & e & He & Hg)];
        rewrite Hg, Hc; [|rewrite He];
        eexists; (split; [reflexivity | auto with world])
    | destruct (IH w1) as (w2 & E2 & F2);
      exists w2;
      erewrite bind_ok by exact E1; erewrite bind_ok by exact E2;
      split; [|eapply files_eq_trans; eassumption];
      rewrite (expected_entries_files_eq w w1) by exact F1;
      unfold expected_entries, mret, M_ret; cbn [omap list_omap];
      destruct (ctimes w !! path_join d name); reflexivity ]
    end ].

Lemma snap_collect_entries (d base : string) (backups : list string) (w : world) :
  exists w', Snap.collect_entries d base backups w
             = (Ok (expected_entries w d base backups), w')
             /\ files_eq w w'.
Proof. revert backups w. collect_entries_proof d base. Qed.

Lemma dve_collect_entries (d base : string) (backups : list string) (w : world) :
  exists w', Dve.collect_entries d base backups w
             = (Ok (expected_entries w d base backups), w')
             /\ files_eq w w'.
Proof. revert backups w. collect_entries_proof d base. Qed.

Lemma insert_entry_perm (x : entry) (l : list entry) : insert_entry x l ≡ₚ x :: l.
Proof.
  induction l as [|y l IH]; [reflexivity|]. simpl.
  destruct (e_time x <? e_time y)%Z; [|reflexivity].
  rewrite IH. apply Permutation_swap.
Qed.

Lemma sort_entries_perm (l : list entry) : sort_entries l ≡ₚ l.
Proof.
  induction l as [|x l IH]; [reflexivity|]. unfold sort_entries in *. simpl.
  rewrite insert_entry_perm. now rewrite IH.
Qed.

Lemma expected_entries_paths (w : world) (d base : string) (names : list string) :
  map e_path (expected_entries w d base names)
  = map (path_join d)
      (filter (fun name => is_Some (ctimes w !! path_join d name)) names).
Proof.
  unfold expected_entries. induction names as [|n names IH]; [reflexivity|].
  cbn [omap list_omap]. rewrite filter_cons.
  destruct (ctimes w !! path_join d n) as [t|] eqn:E.
  - rewrite decide_True by eauto. simpl. f_equal. exact IH.
  - rewrite decide_False by (intros [? ?]; discriminate). exact IH.
Qed.

Lemma expected_entries_count (w : world) (d base : string) (names : list string) :
  length (expected_entries w d base names)
  + length (unreadable_backups w d names) = length names.
Proof.
  unfold expected_entries, unreadable_backups.
  induction names as [|n names IH]; [reflexivity|].
  cbn [omap list_omap]. rewrite filter_cons.
  destruct (ctimes w !! path_join d n) as [t|] eqn:E.
  - rewrite decide_False by discriminate. simpl. lia.
  - rewrite decide_True by reflexivity. simpl. simpl in IH. lia.
Qed.

(** ** A whole load *)

Lemma listdir_result (d : string) (w : world) :
  (exists names, (d ∉ rdeny w) /\ dirs w !! d = Some names /\ listdir d w = (Ok names, w))
  \/ (((d ∈ rdeny w) \/ dirs w !! d = None) /\ exists e, listdir d w = (Raise e, w)).
Proof.
  unfold listdir. destruct (decide (d ∈ rdeny w)); [right; eauto|].
  destruct (dirs w !! d) as [names|]; [left; eauto | right; eauto].
Qed.

Lemma rows_of_nil (descr : list string -> list string -> string)
    (w w1 : world) (d base : string) (names : list string) :
  expected_entries w d base (backups_of base names) = [] ->
  rows_of descr w w1 d base names [].
Proof. intros E. unfold rows_of. rewrite E. repeat split. Qed.

(** The tail of a load, once the entries are sorted and the files are in
    the state of [w1]: the loop over the versions, then the rows. *)
Ltac load_tail_proof descr diff_lemma rows_lemma :=
  intros entries w1;
  destruct (diff_lemma entries w1) as (ts & w2 & E2 & F2 & L2);
  destruct (zip3_columns entries
              (expected_diffs descr w1 (map e_path entries)) ts) as (Hp & Hd & Hl & Htm);
    [ now rewrite expected_diffs_length, length_map | exact L2 | ];
  destruct (rows_lemma (zip3 entries (expected_diffs descr w1 (map e_path entries)) ts)
              (length entries) 0 w2) as (rows & w3 & E3 & F3 & Hv' & Hd' & Hp' & Ht');
  exists rows, w3;
  erewrite bind_ok by exact E2; cbn [fst snd];
  erewrite bind_ok by exact E3;
  split; [reflexivity|]; split; [eapply files_eq_trans; eassumption|];
  rewrite Hp in Hp'; rewrite Hd in Hd'; rewrite Hl in Hv'; rewrite Htm in Ht';
  assert (Hlen : length rows = length entries)
    by (rewrite <- (length_map row_path), Hp'; apply length_map);
  repeat split; [exact Hp' | exact Ht' | now rewrite Hlen | now rewrite Hp'].

Lemma dve_load_tail (entries : list entry) (w1 : world) :
  exists rows w',
    (Dve.diff_loop entries ≫= fun counts =>
       Dve.build_rows (length entries) 0 (zip3 entries (fst counts) (snd counts))
         ≫= fun rows => mret (Shown rows)) w1
    = (Ok (Shown rows), w')
    /\ files_eq w1 w'
    /\ map row_path rows = map e_path entries
    /\ map row_time rows = map e_time entries
    /\ map row_version rows = version_labels (length rows)
    /\ map row_diff rows = expected_diffs Dve.change_descriptor w1 (map row_path rows).
Proof. revert entries w1. load_tail_proof Dve.change_descriptor dve_diff_loop dve_build_rows. Qed.

Lemma snap_load_tail (entries : list entry) (w1 : world) :
  exists rows w',
    (Snap.diff_loop entries ≫= fun counts =>
       Snap.build_rows (length entries) 0 (zip3 entries (fst counts) (snd counts))
         ≫= fun rows => mret (Shown rows)) w1
    = (Ok (Shown rows), w')
    /\ files_eq w1 w'
    /\ map row_path rows = map e_path entries
    /\ map row_time rows = map e_time entries
    /\ map row_version rows = version_labels (length rows)
    /\ map row_diff rows = expected_diffs Snap.change_descriptor w1 (map row_path rows).
Proof. revert entries w1. load_tail_proof Snap.change_descriptor snap_diff_loop snap_build_rows. Qed.

Lemma files_eq_dirs (w w' : world) (d : string) :
  files_eq w w' -> dirs w' !! d = dirs w !! d.
Proof. intros (_ & _ & _ & E & _). now rewrite E. Qed.

Lemma files_eq_rdeny (w w' : world) (d : string) :
  files_eq w w' -> d ∈ rdeny w' <-> d ∈ rdeny w.
Proof. intros (_ & E & _). now rewrite E. Qed.

Lemma files_eq_sym (w w' : world) : files_eq w w' -> files_eq w' w.
Proof. intros (? & ? & ? & ? & ?). repeat split; congruence. Qed.

Lemma bind_log {A : Type} (m : string) (k : unit -> M A) (w : world) :
  (log_action m ≫= k) w = k tt (set_log (fun l => l ++ [m]) w).
Proof. reflexivity. Qed.

Lemma try_ok {A : Type} (c : M A) (h : exn -> M A) (w w' : world) (a : A) :
  c w = (Ok a, w') -> try_except c h w = (Ok a, w').
Proof. intros E. unfold try_except. now rewrite E. Qed.

Lemma try_raise {A : Type} (c : M A) (h : exn -> M A) (w w' : world) (e : exn) :
  c w = (Raise e, w') -> try_except c h w = h e w'.
Proof. intros E. unfold try_except. now rewrite E. Qed.

Lemma bind_raise {A B : Type} (c : M A) (k : A -> M B) (w w' : world) (e : exn) :
  c w = (Raise e, w') -> (c ≫= k) w = (Raise e, w').
Proof. intros E. unfold mbind, M_bind. now rewrite E. Qed.

(** [load_versions] on a directory that can be listed. *)
Lemma dve_load_versions_listed (filename d : string) (names : list string) (w : world) :
  d <> "" -> d ∉ rdeny w -> dirs w !! d = Some names ->
  exists rows w',
    Dve.load_versions (Some filename) d w = (Ok (Shown rows), w')
    /\ files_eq w w'
    /\ rows_of Dve.change_descriptor w w d (Dve._get_base_name filename) names rows.
Proof.
  intros Hd Hr Hn. unfold Dve.load_versions.
  set (base := Dve._get_base_name filename).
  rewrite bind_log. set (w0 := set_log _ w).
  assert (F0 : files_eq w w0) by apply files_eq_log.
  assert (Hn0 : dirs w0 !! d = Some names) by exact Hn.
  erewrite bind_ok
    by (unfold path_isdir; rewrite Hn0; rewrite bool_decide_true by eauto; reflexivity).
  apply String.eqb_neq in Hd. rewrite Hd. cbn [orb negb].
  set (w1 := set_log (fun l => l ++ ["INFO: Found " +:+ str_of_nat (length (backups_of base names))
                                     +:+ " backups for base '" +:+ base +:+ "'."]) w0).
  assert (F1 : files_eq w w1) by (repeat split).
  erewrite bind_ok with (a := Some (backups_of base names)) (w' := w1).
  2: { apply try_ok. erewrite bind_ok with (a := names) (w' := w0); [reflexivity|].
       unfold listdir. destruct (decide (d ∈ rdeny w0)) as [Hin|_]; [now elim Hr|].
       now rewrite Hn0. }
  destruct (backups_of base names) as [|b bs] eqn:Eb.
  - exists [], (set_log (fun l => l ++ ["INFO: No backups found for: " +:+ base]) w1).
    split; [reflexivity|]. split; [repeat split|].
    apply rows_of_nil. now rewrite Eb.
  - rewrite <- Eb.
    destruct (dve_collect_entries d base (backups_of base names) w1) as (w2 & E2 & F2).
    erewrite bind_ok by exact E2.
    destruct (dve_load_tail (sort_entries (expected_entries w1 d base (backups_of base names))) w2)
      as (rows & w3 & E3 & F3 & Hp & Htm & Hv & Hdf).
    exists rows, w3. split; [exact E3|].
    split; [eauto using files_eq_trans|].
    unfold rows_of. rewrite <- (expected_entries_files_eq w w1) by exact F1.
    repeat split; [exact Hp | exact Htm | exact Hv|].
    rewrite Hdf. apply expected_diffs_files_eq. eauto using files_eq_trans, files_eq_sym.
Qed.

(** ** The audit streams are not backups *)

Lemma endswith_refl (s : string) : endswith s s = true.
Proof. destruct s; simpl; [reflexivity|]. now rewrite Ascii.eqb_refl, String.eqb_refl. Qed.

Lemma endswith_cons (c : ascii) (s p : string) :
  endswith s p = true -> endswith (String c s) p = true.
Proof. intros H. cbn [endswith]. rewrite H. now destruct (String.eqb _ _). Qed.

Lemma endswith_app (s t p : string) :
  endswith t p = true -> endswith (s +:+ t) p = true.
Proof.
  intros H. induction s as [|c s IH]; app_simpl; [exact H|].
  now apply endswith_cons.
Qed.

Lemma endswith_trans (s p q : string) :
  endswith s p = true -> endswith p q = true -> endswith s q = true.
Proof.
  intros Hsp Hpq. induction s as [|c s IH].
  - cbn [endswith] in Hsp. destruct (String.eqb_spec "" p) as [<-|]; [exact Hpq|discriminate].
  - cbn [endswith] in Hsp. destruct (String.eqb_spec (String c s) p) as [<-|]; [exact Hpq|].
    apply endswith_cons. auto.
Qed.

Lemma endswith_char (s : string) (a b : ascii) :
  endswith s (String a "") = true -> endswith s (String b "") = true -> a = b.
Proof.
  induction s as [|c s IH]; [discriminate|]. cbn [endswith].
  destruct (String.eqb_spec (String c s) (String a "")) as [Ea|_];
    destruct (String.eqb_spec (String c s) (String b "")) as [Eb|_].
  - congruence.
  - injection Ea as _ ->. discriminate.
  - injection Eb as _ ->. discriminate.
  - exact IH.
Qed.

Lemma not_backup (s : string) : endswith s "t" = true -> endswith s ".bak" = false.
Proof.
  intros Ht. destruct (endswith s ".bak") eqn:E; [|reflexivity].
  assert (Hk : endswith s "k" = true) by (eapply endswith_trans; [exact E|reflexivity]).
  discriminate (endswith_char _ _ _ Ht Hk).
Qed.

Lemma audit_stream_not_backup (p : string) : endswith (p +:+ ":meta_audit") ".bak" = false.
Proof. apply not_backup, endswith_app. reflexivity. Qed.

Lemma endswith_path_join (d name p : string) :
  endswith name p = true -> endswith (path_join d name) p = true.
Proof.
  intros H. unfold path_join. destruct (String.eqb d ""); [exact H|].
  destruct (ends_with_sep d); repeat apply endswith_app; exact H.
Qed.

Lemma temp_file_not_backup (BASE_DIR p : string) :
  endswith (Snap.temp_path_of BASE_DIR p) ".bak" = false.
Proof.
  apply not_backup. unfold Snap.temp_path_of.
  apply endswith_path_join. repeat apply endswith_app. reflexivity.
Qed.

(** ** Computations that leave the backups alone *)

Lemma backups_eq_refl (w : world) : backups_eq w w.
Proof. repeat split. Qed.

Lemma backups_eq_trans (w1 w2 w3 : world) :
  backups_eq w1 w2 -> backups_eq w2 w3 -> backups_eq w1 w3.
Proof.
  intros (Hn1 & ? & ? & ? & ?) (Hn2 & ? & ? & ? & ?).
  repeat split; try congruence. intros q Hq. rewrite Hn2, Hn1 by exact Hq. reflexivity.
Qed.

Lemma files_eq_backups_eq (w w' : world) : files_eq w w' -> backups_eq w w'.
Proof. intros (E & ? & ? & ? & ?). repeat split; try assumption. intros q _. now rewrite E. Qed.

Lemma backups_eq_insert (p : string) (n : node) (w : world) :
  endswith p ".bak" = false -> backups_eq w (set_nodes (insert p n) w).
Proof.
  intros Hp. repeat split. intros q Hq. simpl.
  apply lookup_insert_ne. intros ->. congruence.
Qed.

Lemma backups_eq_delete (p : string) (w : world) :
  endswith p ".bak" = false -> backups_eq w (set_nodes (delete p) w).
Proof.
  intros Hp. repeat split. intros q Hq. simpl.
  apply lookup_delete_ne. intros ->. congruence.
Qed.

Lemma keeps_ret {A : Type} (a : A) : keeps_backups (mret a).
Proof. intros w. apply backups_eq_refl. Qed.

Lemma keeps_log (m : string) : keeps_backups (log_action m).
Proof. intros w. apply files_eq_backups_eq, files_eq_log. Qed.

Lemma keeps_read_text (p : string) : keeps_backups (read_text p).
Proof.
  intros w. unfold read_text. destruct (decide _); [apply backups_eq_refl|].
  destruct (nodes w !! p) as [[s|]|]; apply backups_eq_refl.
Qed.

Lemma keeps_read_bytes (p : string) : keeps_backups (read_bytes p).
Proof.
  intros w. unfold read_bytes. destruct (decide _); [apply backups_eq_refl|].
  destruct (nodes w !! p); apply backups_eq_refl.
Qed.

Lemma keeps_path_exists (p : string) : keeps_backups (path_exists p).
Proof. intros w. apply backups_eq_refl. Qed.

Lemma keeps_write_bytes (p : string) (n : node) :
  endswith p ".bak" = false -> keeps_backups (write_bytes p n).
Proof.
  intros Hp w. unfold write_bytes. destruct (decide _); [apply backups_eq_refl|].
  now apply backups_eq_insert.
Qed.

Lemma keeps_append_bytes (p : string) (n : node) :
  endswith p ".bak" = false -> keeps_backups (append_bytes p n).
Proof.
  intros Hp w. unfold append_bytes. destruct (decide _); [apply backups_eq_refl|].
  now apply backups_eq_insert.
Qed.

Lemma keeps_append_text (p s : string) :
  endswith p ".bak" = false -> keeps_backups (append_text p s).
Proof. apply keeps_append_bytes. Qed.

Lemma keeps_open_append (p : string) :
  endswith p ".bak" = false -> keeps_backups (open_append p).
Proof.
  intros Hp w. unfold open_append. destruct (decide _); [apply backups_eq_refl|].
  now apply backups_eq_insert.
Qed.

Lemma keeps_remove (p : string) :
  endswith p ".bak" = false -> keeps_backups (remove p).
Proof.
  intros Hp w. unfold remove. destruct (nodes w !! p); [|apply backups_eq_refl].
  now apply backups_eq_delete.
Qed.

Lemma keeps_bind {A B : Type} (c : M A) (f : A -> M B) :
  keeps_backups c -> (forall a, keeps_backups (f a)) -> keeps_backups (c ≫= f).
Proof.
  intros Hc Hf w. unfold mbind, M_bind. specialize (Hc w).
  destruct (c w) as [[a|e] w1]; [|exact Hc].
  eapply backups_eq_trans; [exact Hc | apply Hf].
Qed.

Lemma keeps_try {A : Type} (c : M A) (h : exn -> M A) :
  keeps_backups c -> (forall e, keeps_backups (h e)) -> keeps_backups (try_except c h).
Proof.
  intros Hc Hh w. unfold try_except. specialize (Hc w).
  destruct (c w) as [[a|e] w1]; [exact Hc|].
  eapply backups_eq_trans; [exact Hc | apply Hh].
Qed.

#[global] Hint Resolve keeps_ret keeps_log keeps_read_text keeps_read_bytes keeps_path_exists
  keeps_write_bytes keeps_append_bytes keeps_append_text keeps_open_append keeps_remove
  keeps_bind keeps_try audit_stream_not_backup temp_file_not_backup : world.

Section SnapAudit.

Variable BASE_DIR : string.

Lemma snap_read_meta_audit_loop_tame (left retry_count : nat) (p : string) :
  never_raises (Snap.read_meta_audit_loop BASE_DIR left retry_count p)
  /\ keeps_backups (Snap.read_meta_audit_loop BASE_DIR left retry_count p).
Proof.
  revert retry_count. induction left as [|left IH]; intros retry_count.
  - cbn [Snap.read_meta_audit_loop]. split; auto with world.
  - cbn [Snap.read_meta_audit_loop].
    destruct (retry_count + 1 =? max_retries).
    + split; [apply never_raises_try | apply keeps_try]; intros; eauto 12 with world.
    + destruct (IH (retry_count + 1)) as [IH1 IH2].
      split; [apply never_raises_try | apply keeps_try]; intros; eauto 12 with world.
Qed.

Lemma snap_append_meta_audit_loop_tame (left retry_count : nat) (p : string)
    (new_entries : list string) :
  never_raises (Snap.append_meta_audit_loop BASE_DIR left retry_count p new_entries)
  /\ keeps_backups (Snap.append_meta_audit_loop BASE_DIR left retry_count p new_entries).
Proof.
  revert retry_count. induction left as [|left IH]; intros retry_count.
  - cbn [Snap.append_meta_audit_loop]. split; auto with world.
  - cbn [Snap.append_meta_audit_loop].
    destruct (retry_count + 1 =? max_retries).
    + split; [apply never_raises_try | apply keeps_try]; intros; eauto 15 with world.
    + destruct (IH (retry_count + 1)) as [IH1 IH2].
      split; [apply never_raises_try | apply keeps_try]; intros; eauto 15 with world.
Qed.

Lemma snap_read_meta_audit_tame (p : string) :
  never_raises (Snap.read_meta_audit BASE_DIR p)
  /\ keeps_backups (Snap.read_meta_audit BASE_DIR p).
Proof. apply snap_read_meta_audit_loop_tame. Qed.

Lemma snap_append_meta_audit_tame (p : string) (entries : list string) :
  never_raises (Snap.append_meta_audit BASE_DIR p entries)
  /\ keeps_backups (Snap.append_meta_audit BASE_DIR p entries).
Proof.
  unfold Snap.append_meta_audit. destruct entries as [|x entries]; [split; auto with world|].
  destruct (snap_read_meta_audit_tame p) as [R1 R2].
  split; [apply never_raises_bind | apply keeps_bind]; try assumption; intros read;
    (destruct (filter _ _); [auto with world | apply snap_append_meta_audit_loop_tame]).
Qed.

Lemma snap_collect_meta_audit_tame (entries : list entry) :
  never_raises (Snap.collect_meta_audit BASE_DIR entries)
  /\ keeps_backups (Snap.collect_meta_audit BASE_DIR entries).
Proof.
  induction entries as [|x entries [IH1 IH2]]; cbn [Snap.collect_meta_audit];
    [split; auto with world|].
  destruct (snap_read_meta_audit_tame (e_path x)) as [R1 R2].
  split; [apply never_raises_bind | apply keeps_bind]; try assumption; intros read;
    [apply never_raises_bind | apply keeps_bind];
    try (destruct read; auto with world); intros; auto with world.
Qed.

Lemma snap_spread_meta_audit_tame (entries : list entry) (all : list string) :
  never_raises (Snap.spread_meta_audit BASE_DIR entries all)
  /\ keeps_backups (Snap.spread_meta_audit BASE_DIR entries all).
Proof.
  induction entries as [|x entries [IH1 IH2]]; cbn [Snap.spread_meta_audit];
    [split; auto with world|].
  destruct (snap_append_meta_audit_tame (e_path x) all) as [R1 R2].
  split; auto with world.
Qed.

(** The synchronisation of the audit streams returns, and the backups are
    what they were. *)
Lemma snap_sync_meta_audit (entries : list entry) (w : world) :
  exists w', Snap.sync_meta_audit BASE_DIR entries w = (Ok tt, w') /\ backups_eq w w'.
Proof.
  destruct (snap_collect_meta_audit_tame entries) as [C1 C2].
  assert (N : never_raises (Snap.sync_meta_audit BASE_DIR entries))
    by (apply never_raises_bind; [exact C1 | intros; apply snap_spread_meta_audit_tame]).
  assert (K : keeps_backups (Snap.sync_meta_audit BASE_DIR entries))
    by (apply keeps_bind; [exact C2 | intros; apply snap_spread_meta_audit_tame]).
  destruct (N w) as ([] & w' & E). exists w'. split; [exact E|].
  specialize (K w). now rewrite E in K.
Qed.

End SnapAudit.

Lemma backups_eq_channel (w w' : world) (p : string) :
  backups_eq w w' -> endswith p ".bak" = true -> channel_text w' p = channel_text w p.
Proof. intros (Hn & Hr & _) Hp. unfold channel_text. now rewrite Hn, Hr. Qed.

Lemma expected_diffs_backups_eq (descr : list string -> list string -> string)
    (w w' : world) (paths : list string) :
  backups_eq w w' -> Forall (fun p => endswith p ".bak" = true) paths ->
  expected_diffs descr w' paths = expected_diffs descr w paths.
Proof.
  intros F H. induction H as [|p rest Hp Hrest IH]; [reflexivity|].
  cbn [expected_diffs]. rewrite IH. destruct Hrest as [|q rest Hq Hrest]; [reflexivity|].
  now rewrite !(backups_eq_channel w w').
Qed.

Lemma expected_entries_backups_eq (w w' : world) (d base : string) (names : list string) :
  backups_eq w w' -> expected_entries w' d base names = expected_entries w d base names.
Proof. intros (_ & _ & _ & _ & Hc). unfold expected_entries. now rewrite Hc. Qed.

(** The entries of a load are backups. *)
Lemma sorted_entries_are_backups (w : world) (d base : string) (names : list string) :
  Forall (fun p => endswith p ".bak" = true)
    (map e_path (sort_entries (expected_entries w d base (backups_of base names)))).
Proof.
  rewrite sort_entries_perm, expected_entries_paths.
  apply Forall_forall. intros p Hp.
  apply list_elem_of_fmap in Hp as (name & -> & Hname).
  apply list_elem_of_filter in Hname as [_ Hname].
  apply list_elem_of_filter in Hname as [Hname _].
  apply andb_prop_elim in Hname as [_ Hname]. apply Is_true_eq_true in Hname.
  now apply endswith_path_join.
Qed.

(** [load_backups_from_name] on a directory that can be listed. *)
Lemma snap_load_backups_listed (BASE_DIR batch d : string) (names : list string) (w : world) :
  batch <> "" -> d ∉ rdeny w -> dirs w !! d = Some names ->
  exists rows w',
    Snap.load_backups_from_name BASE_DIR batch d w = (Ok (Shown rows), w')
    /\ backups_eq w w'
    /\ rows_of Snap.change_descriptor w w d (Snap._get_base_name (basename batch)) names rows.
Proof.
  intros Hb Hr Hn. unfold Snap.load_backups_from_name.
  set (base := Snap._get_base_name (basename batch)).
  apply String.eqb_neq in Hb. rewrite Hb.
  erewrite bind_ok with (a := true) (w' := w).
  2: { unfold path_exists. rewrite Hn. rewrite (bool_decide_true (is_Some (Some names))) by eauto.
       now rewrite orb_true_r. }
  cbn [negb].
  erewrite bind_ok with (a := Some (backups_of base names)) (w' := w).
  2: { apply try_ok. erewrite bind_ok with (a := names) (w' := w); [reflexivity|].
       unfold listdir. destruct (decide (d ∈ rdeny w)) as [Hin|_]; [now elim Hr|].
       now rewrite Hn. }
  destruct (backups_of base names) as [|b bs] eqn:Eb.
  - eexists [], _. split; [reflexivity|]. split; [apply files_eq_backups_eq, files_eq_log|].
    apply rows_of_nil. now rewrite Eb.
  - rewrite <- Eb.
    destruct (snap_collect_entries d base (backups_of base names) w) as (w2 & E2 & F2).
    erewrite bind_ok by exact E2.
    set (entries := sort_entries (expected_entries w d base (backups_of base names))).
    destruct (snap_sync_meta_audit BASE_DIR entries w2) as (w3 & E3 & F3).
    erewrite bind_ok by exact E3.
    destruct (snap_load_tail entries w3) as (rows & w4 & E4 & F4 & Hp & Htm & Hv & Hdf).
    exists rows, w4. split; [exact E4|].
    assert (F13 : backups_eq w w3)
      by (eapply backups_eq_trans; [apply files_eq_backups_eq; exact F2 | exact F3]).
    split; [eapply backups_eq_trans; [exact F13 | apply files_eq_backups_eq; exact F4]|].
    unfold rows_of. fold entries.
    repeat split; [exact Hp | exact Htm | exact Hv|].
    rewrite Hdf, Hp. apply expected_diffs_backups_eq; [exact F13|].
    apply sorted_entries_are_backups.
Qed.

Lemma insert_entry_sorted (x : entry) (l : list entry) :
  StronglySorted (fun a b => (e_time b <= e_time a)%Z) l ->
  StronglySorted (fun a b => (e_time b <= e_time a)%Z) (insert_entry x l).
Proof.
  induction 1 as [|y l Hl IH Hy]; cbn [insert_entry]; [repeat constructor|].
  destruct (Z.ltb_spec (e_time x) (e_time y)) as [Hlt|Hge].
  - constructor; [exact IH|]. rewrite insert_entry_perm. constructor; [lia | exact Hy].
  - constructor; [now constructor|]. constructor; [exact Hge|].
    eapply Forall_impl; [exact Hy|]. intros z Hz. simpl in Hz. lia.
Qed.

Lemma sort_entries_sorted (l : list entry) :
  StronglySorted (fun a b => (e_time b <= e_time a)%Z) (sort_entries l).
Proof.
  induction l as [|x l IH]; [constructor|]. now apply insert_entry_sorted.
Qed.

Lemma StronglySorted_map {A B : Type} (R : B -> B -> Prop) (f : A -> B) (l : list A) :
  StronglySorted (fun x y => R (f x) (f y)) l -> StronglySorted R (map f l).
Proof.
  induction 1 as [|x l Hl IH Hx]; [constructor|]. simpl. constructor; [exact IH|].
  apply Forall_map. exact Hx.
Qed.

Lemma labelled_rows_nil (descr : list string -> list string -> string) (w : world) :
  labelled_rows descr w [].
Proof. repeat split. constructor. Qed.

Lemma rows_of_labelled (descr : list string -> list string -> string)
    (w : world) (d base : string) (names : list string) (rows : list row) :
  rows_of descr w w d base names rows -> labelled_rows descr w rows.
Proof.
  intros (_ & Ht & Hv & Hd). repeat split; [|exact Hv|exact Hd].
  unfold newest_first. rewrite Ht. apply StronglySorted_map, sort_entries_sorted.
Qed.

(** Whatever it is given, a load returns; the rows it shows are labelled
    from their number down to one and carry the descriptors of
    [expected_diffs]. *)
Lemma dve_load_versions_shape (filename : option string) (d : string) (w : world) :
  exists o w',
    Dve.load_versions filename d w = (Ok o, w')
    /\ files_eq w w'
    /\ forall rows, o = Shown rows -> labelled_rows Dve.change_descriptor w rows.
Proof.
  destruct filename as [filename|].
  2: { eexists _, _. split; [reflexivity|]. split; [apply files_eq_log|]. discriminate. }
  destruct (String.eqb_spec d "") as [->|Hd].
  { eexists _, _. split; [reflexivity|]. split; [repeat split|].
    intros rows [= <-]. apply labelled_rows_nil. }
  destruct (dirs w !! d) as [names|] eqn:Hn.
  2: { eexists (Shown []), _. split.
       - unfold Dve.load_versions. rewrite bind_log.
         erewrite bind_ok with (a := false).
         2: { unfold path_isdir. cbn [dirs set_log]. rewrite Hn.
              rewrite bool_decide_false by (intros [? ?]; discriminate). reflexivity. }
         rewrite orb_true_r. reflexivity.
       - split; [repeat split|]. intros rows [= <-]. apply labelled_rows_nil. }
  destruct (decide (d ∈ rdeny w)) as [Hr|Hr].
  2: { destruct (dve_load_versions_listed filename d names w Hd Hr Hn)
         as (rows & w' & E & F & Hrows).
       exists (Shown rows), w'. split; [exact E|]. split; [exact F|].
       intros rows' [= <-]. exact (rows_of_labelled _ _ _ _ _ _ Hrows). }
  eexists (Shown []), _. split.
  - unfold Dve.load_versions. rewrite bind_log.
    erewrite bind_ok with (a := true).
    2: { unfold path_isdir. cbn [dirs set_log]. rewrite Hn.
         rewrite bool_decide_true by eauto. reflexivity. }
    apply String.eqb_neq in Hd. rewrite Hd. cbn [orb negb].
    erewrite bind_ok with (a := None).
    2: { erewrite try_raise with (e := PermissionError).
         2: { apply bind_raise. unfold listdir. cbn [rdeny set_log].
              rewrite decide_True by exact Hr. reflexivity. }
         reflexivity. }
    reflexivity.
  - split; [repeat split|]. intros rows [= <-]. apply labelled_rows_nil.
Qed.

Lemma snap_load_backups_shape (BASE_DIR batch d : string) (w : world) :
  exists o w',
    Snap.load_backups_from_name BASE_DIR batch d w = (Ok o, w')
    /\ backups_eq w w'
    /\ forall rows, o = Shown rows -> labelled_rows Snap.change_descriptor w rows.
Proof.
  destruct (String.eqb_spec batch "") as [->|Hb].
  { eexists _, _. split; [reflexivity|]. split; [repeat split|]. discriminate. }
  destruct (listdir_result d w) as [(names & Hr & Hn & _)|(Hbad & e & He)].
  { destruct (snap_load_backups_listed BASE_DIR batch d names w Hb Hr Hn)
      as (rows & w' & E & F & Hrows).
    exists (Shown rows), w'. split; [exact E|]. split; [exact F|].
    intros rows' [= <-]. exact (rows_of_labelled _ _ _ _ _ _ Hrows). }
  unfold Snap.load_backups_from_name.
  apply String.eqb_neq in Hb. rewrite Hb.
  unfold mbind at 1, M_bind at 1. unfold path_exists at 1.
  destruct (_ || _); cbn [negb].
  - eexists Untouched, _. split.
    + erewrite bind_ok with (a := None).
      2: { erewrite try_raise by (apply bind_raise; exact He). reflexivity. }
      reflexivity.
    + split; [repeat split | discriminate].
  - eexists Untouched, _. split; [reflexivity|]. split; [repeat split | discriminate].
Qed.

(** ** The version labels *)


(** What either launcher shows, whatever it was given. *)
Lemma shown_rows_labelled (BASE_DIR batch : string) (filename : option string)
    (d : string) (w : world) (rows : list row) :
  fst (Snap.load_backups_from_name BASE_DIR batch d w) = Ok (Shown rows)
  \/ fst (Dve.load_versions filename d w) = Ok (Shown rows) ->
  exists descr,
    (descr = Snap.change_descriptor \/ descr = Dve.change_descriptor)
    /\ labelled_rows descr w rows.
Proof.
  intros [H|H].
  - destruct (snap_load_backups_shape BASE_DIR batch d w) as (o & w' & E & _ & Hs).
    rewrite E in H. injection H as ->. eauto.
  - destruct (dve_load_versions_shape filename d w) as (o & w' & E & _ & Hs).
    rewrite E in H. injection H as ->. eauto.
Qed.

(** ** The change descriptors *)


Lemma expected_diffs_lookup (descr : list string -> list string -> string)
    (w : world) (paths : list string) (i : nat) (p q curr next : string) :
  paths !! i = Some p -> paths !! S i = Some q ->
  channel_text w p = Some curr -> channel_text w q = Some next ->
  expected_diffs descr w paths !! i = Some (descr (readlines curr) (readlines next)).
Proof.
  revert i. induction paths as [|p0 rest IH]; intros i Hp Hq Hc Hn; [discriminate|].
  destruct i as [|i].
  - injection Hp as ->. destruct rest as [|q0 rest]; [discriminate|].
    injection Hq as ->. cbn [expected_diffs]. now rewrite Hc, Hn.
  - cbn [expected_diffs]. apply (IH i); assumption.
Qed.


Lemma lookup_map {A B : Type} (f : A -> B) (l : list A) (i : nat) (x : A) :
  l !! i = Some x -> map f l !! i = Some (f x).
Proof.
  intros H. change ((f <$> l) !! i = Some (f x)). now rewrite list_lookup_fmap, H.
Qed.

(** The descriptor of a row whose file and the next older one are read. *)
Lemma labelled_rows_diff (descr : list string -> list string -> string) (w : world)
    (rows : list row) (i : nat) (r r' : row) (curr next : string) :
  labelled_rows descr w rows ->
  rows !! i = Some r -> rows !! S i = Some r' ->
  channel_text w (row_path r) = Some curr -> channel_text w (row_path r') = Some next ->
  row_diff r = descr (readlines curr) (readlines next).
Proof.
  intros (_ & _ & Hd) Hr Hr' Hc Hn.
  apply (lookup_map row_diff) in Hr as Hdi. rewrite Hd in Hdi.
  erewrite expected_diffs_lookup in Hdi; eauto using lookup_map.
  now injection Hdi.
Qed.

(** ** Backups whose creation time cannot be read *)

Lemma rows_of_partial (descr : list string -> list string -> string)
    (w w1 : world) (d base : string) (names : list string) (rows : list row) :
  rows_of descr w w1 d base names rows ->
  partial_result w d (backups_of base names) rows.
Proof.
  intros (Hp & _). split.
  - rewrite Hp, sort_entries_perm. now rewrite expected_entries_paths.
  - rewrite <- (expected_entries_count w d base (backups_of base names)). f_equal.
    rewrite <- (length_map row_path), Hp, length_map.
    apply Permutation_length, sort_entries_perm.
Qed.

(** ** The labels and the descriptors of the backups that are resolved *)







(** C7.  In a directory that is there and can be listed, each launcher
    returns rows and raises nothing, whatever creation times cannot be
    read: the rows are those of the backups whose creation time can be read,
    and as many rows are missing as there are backups whose time cannot. *)
Theorem unreadable_backups_are_skipped (BASE_DIR batch filename d : string)
    (names : list string) (w : world) :
  batch <> "" -> d <> "" -> d ∉ rdeny w -> dirs w !! d = Some names ->
  (exists rows w',
     Snap.load_backups_from_name BASE_DIR batch d w = (Ok (Shown rows), w')
     /\ partial_result w d (backups_of (Snap._get_base_name (basename batch)) names) rows)
  /\ (exists rows w',
        Dve.load_versions (Some filename) d w = (Ok (Shown rows), w')
        /\ partial_result w d (backups_of (Dve._get_base_name filename) names) rows).
Proof.
  intros Hb Hd Hr Hn. split.
  - destruct (snap_load_backups_listed BASE_DIR batch d names w Hb Hr Hn)
      as (rows & w' & E & _ & Hrows).
    exists rows, w'. split; [exact E|]. exact (rows_of_partial _ _ _ _ _ _ _ Hrows).
  - destruct (dve_load_versions_listed filename d names w Hd Hr Hn)
      as (rows & w' & E & _ & Hrows).
    exists rows, w'. split; [exact E|]. exact (rows_of_partial _ _ _ _ _ _ _ Hrows).
Qed.

Lemma unreadable_backups_are_skipped_witness :
  unreadable_backups Demo.w0 Demo.dir [Demo.v1; Demo.v2; Demo.v3; Demo.v4] = [Demo.v4]
  /\ (exists rows w',
        Snap.load_backups_from_name "C:\s" "C:\x\report.txt" Demo.dir Demo.w0
        = (Ok (Shown rows), w')
        /\ partial_result Demo.w0 Demo.dir
             (backups_of (Snap._get_base_name (basename "C:\x\report.txt"))
                Demo.names) rows)
  /\ (exists rows w',
        Dve.load_versions (Some "report.txt") Demo.dir Demo.w0 = (Ok (Shown rows), w')
        /\ partial_result Demo.w0 Demo.dir
             (backups_of (Dve._get_base_name "report.txt")
                Demo.names) rows).
Proof.
  split; [vm_compute; reflexivity|].
  apply (unreadable_backups_are_skipped "C:\s" "C:\x\report.txt" "report.txt" Demo.dir
           Demo.names Demo.w0).
  - discriminate.
  - discriminate.
  - vm_compute. discriminate.
  - vm_compute. reflexivity.
Defined.

(** ** [difflib] on two lists that are the same *)

Section Identical.

Context {A : Type} `{EqDecision A}.
Variable l : list A.

Lemma diagonal_run_le (i : nat) : diagonal_run l i <= i.
Proof.
  induction i as [|i IH]; [reflexivity|]. cbn [diagonal_run].
  destruct (l !! i) as [x|]; [|lia]. destruct (Difflib.popular l x); lia.
Qed.

Lemma diagonal_run_S (i : nat) (x : A) :
  l !! i = Some x -> Difflib.popular l x = false ->
  diagonal_run l (S i) = S (diagonal_run l i).
Proof. intros Hx Hp. cbn [diagonal_run]. now rewrite Hx, Hp. Qed.

Lemma indices_from_spec (x : A) (l' : list A) (j0 j : nat) :
  j ∈ Difflib.indices_from x l' j0 -> j0 <= j /\ l' !! (j - j0) = Some x.
Proof.
  revert j0. induction l' as [|y l' IH]; intros j0 Hj; [inversion Hj|].
  cbn [Difflib.indices_from] in Hj.
  assert (Hrec : j ∈ Difflib.indices_from x l' (S j0) ->
                 j0 <= j /\ (y :: l') !! (j - j0) = Some x).
  { intros Hin. destruct (IH _ Hin) as [Hle Hl]. split; [lia|].
    replace (j - j0) with (S (j - S j0)) by lia. exact Hl. }
  destruct (decide (y = x)) as [->|Hne]; [|auto].
  apply elem_of_cons in Hj as [->|Hj]; [|auto].
  split; [lia|]. now rewrite Nat.sub_diag.
Qed.

Lemma indices_from_split (x : A) (l' : list A) (j0 i : nat) :
  l' !! i = Some x ->
  exists js1 js2,
    Difflib.indices_from x l' j0 = js1 ++ (j0 + i) :: js2
    /\ forall j, j ∈ js1 -> j < j0 + i.
Proof.
  revert j0 i. induction l' as [|y l' IH]; intros j0 i Hi; [discriminate|].
  cbn [Difflib.indices_from]. destruct i as [|i].
  - injection Hi as ->. rewrite decide_True by reflexivity.
    exists [], (Difflib.indices_from x l' (S j0)). rewrite Nat.add_0_r.
    split; [reflexivity|]. intros j Hj. inversion Hj.
  - destruct (IH (S j0) i Hi) as (js1 & js2 & E & Hlt).
    replace (j0 + S i) with (S j0 + i) by lia.
    destruct (decide (y = x)).
    + exists (j0 :: js1), js2. rewrite E. split; [reflexivity|].
      intros j Hj. apply elem_of_cons in Hj as [->|Hj]; [lia|auto].
    + exists js1, js2. split; [exact E | exact Hlt].
Qed.

(** One row of the loop, for an element that is not popular: the places of
    the element are gone through, the row itself among them, and the best
    match stays on the diagonal. *)
Lemma inner_row (i : nat) (x : A) (j2len : gmap nat nat) (js : list nat) :
  l !! i = Some x -> Difflib.popular l x = false ->
  diagonal_j2len l i j2len ->
  (forall j, j ∈ js -> j < length l /\ l !! j = Some x) ->
  forall (newj2len : gmap nat nat) (best : Difflib.block),
    entries_bounded l i newj2len ->
    diagonal_best l (S i) i best ->
    (diagonal_best l (S i) (S i) best /\ newj2len !! i = Some (diagonal_run l (S i)))
    \/ (exists js1 js2, js = js1 ++ i :: js2 /\ forall j, j ∈ js1 -> j < i) ->
    exists m' best',
      Difflib.inner i 0 (length l) j2len js newj2len best = (m', best')
      /\ entries_bounded l i m'
      /\ m' !! i = Some (diagonal_run l (S i))
      /\ diagonal_best l (S i) (S i) best'.
Proof.
  intros Hx Hpop [HJ HJi] Hjs.
  pose proof (diagonal_run_S i x Hx Hpop) as HRi.
  induction js as [|j js IH]; intros newj2len best Hb Hbest Hcase.
  - destruct Hcase as [[Hd Hi]|(js1 & js2 & E & _)].
    + exists newj2len, best. cbn [Difflib.inner]. auto.
    + destruct js1; discriminate E.
  - destruct (Hjs j) as [Hjlt Hjx]; [left|].
    assert (Hjs' : forall j', j' ∈ js -> j' < length l /\ l !! j' = Some x)
      by (intros j' Hj'; apply Hjs; now right).
    pose proof (diagonal_run_S j x Hjx Hpop) as HRj.
    destruct (HJ j) as [Hk1 Hk2].
    cbn [Difflib.inner]. change (j <? 0) with false. cbv iota.
    destruct (Nat.leb_spec (length l) j) as [Hbad|_]; [lia|].
    destruct best as [[bi bj] bs]. destruct Hbest as (<- & Hlim & Hseen).
    set (k := Difflib.j2lenget j2len j + 1).
    assert (Hb' : entries_bounded l i (<[j:=k]> newj2len)).
    { intros j' k' Hl. destruct (decide (j = j')) as [<-|Hne].
      - rewrite lookup_insert_eq in Hl. injection Hl as <-. subst k. lia.
      - rewrite lookup_insert_ne in Hl by exact Hne. now apply Hb. }
    destruct Hcase as [[Hd Hi]|(js1 & js2 & E & Hlt)].
    + (* the row itself has been seen *)
      destruct Hd as (_ & _ & Hseen').
      assert (Hle : k <= bs) by (specialize (Hseen' (S i)); subst k; lia).
      destruct (Nat.ltb_spec bs k) as [Hbad|_]; [lia|].
      apply IH; [exact Hjs' | exact Hb' | repeat split; assumption |].
      left. split; [repeat split; assumption|].
      destruct (decide (j = i)) as [->|Hne].
      * rewrite lookup_insert_eq. subst k. rewrite HJi. f_equal. lia.
      * rewrite lookup_insert_ne by exact Hne. exact Hi.
    + destruct js1 as [|j1 js1]; injection E as -> ->.
      * (* the row itself *)
        assert (Hk : k = diagonal_run l (S i)) by (subst k; rewrite HJi; lia).
        pose proof (diagonal_run_le (S i)) as HRle.
        destruct (Nat.ltb_spec bs k) as [Hgt|Hle].
        -- replace (i + 1 - k) with (S i - k) by lia.
           assert (Hnew : diagonal_best l (S i) (S i) (S i - k, S i - k, k)).
           { repeat split; [lia|]. intros r Hr.
             destruct (decide (r = S i)) as [->|Hne]; [lia|].
             specialize (Hseen r). lia. }
           apply IH; [exact Hjs' | exact Hb' | |].
           ++ destruct Hnew as (? & ? & Hn). repeat split; auto.
           ++ left. split; [exact Hnew|]. rewrite lookup_insert_eq. now rewrite Hk.
        -- assert (Hnew : diagonal_best l (S i) (S i) (bi, bi, bs)).
           { repeat split; [lia|]. intros r Hr.
             destruct (decide (r = S i)) as [->|Hne]; [lia|].
             apply Hseen. lia. }
           apply IH; [exact Hjs' | exact Hb' | repeat split; assumption |].
           left. split; [exact Hnew|]. rewrite lookup_insert_eq. now rewrite Hk.
      * (* a place before the row *)
        assert (Hji : j1 < i) by (apply Hlt; left).
        assert (Hle : k <= bs) by (specialize (Hseen (S j1)); subst k; lia).
        destruct (Nat.ltb_spec bs k) as [Hbad|_]; [lia|].
        apply IH; [exact Hjs' | exact Hb' | repeat split; assumption |].
        right. exists js1, js2. split; [reflexivity|].
        intros j' Hj'. apply Hlt. now right.
Qed.

Lemma diagonal_j2len_empty (i : nat) :
  diagonal_run l i = 0 -> diagonal_j2len l i ∅.
Proof.
  intros H0. split.
  - intros [|j]; cbn [Difflib.j2lenget]; [lia|]. rewrite lookup_empty. simpl. lia.
  - rewrite H0. destruct i; cbn [Difflib.j2lenget]; [reflexivity|].
    now rewrite lookup_empty.
Qed.

Lemma diagonal_j2len_next (i : nat) (m : gmap nat nat) :
  entries_bounded l i m -> m !! i = Some (diagonal_run l (S i)) ->
  diagonal_j2len l (S i) m.
Proof.
  intros Hb Hi. split.
  - intros [|j]; cbn [Difflib.j2lenget]; [lia|].
    destruct (m !! j) as [k|] eqn:E; simpl; [now apply Hb | lia].
  - cbn [Difflib.j2lenget]. now rewrite Hi.
Qed.

(** The rows from [i] on. *)
Lemma outer_rows (m i : nat) (j2len : gmap nat nat) (best : Difflib.block) :
  i + m = length l ->
  diagonal_j2len l i j2len -> diagonal_best l i i best ->
  diagonal_best l (length l) (length l)
    (Difflib.outer l l (seq i m) 0 (length l) j2len best).
Proof.
  revert i j2len best. induction m as [|m IH]; intros i j2len best Hn HJ Hbest.
  - rewrite Nat.add_0_r in Hn. subst i. exact Hbest.
  - cbn [seq Difflib.outer].
    destruct (lookup_lt_is_Some_2 l i) as [x Hx]; [lia|]. rewrite Hx.
    unfold Difflib.b2j. destruct (Difflib.popular l x) eqn:Hpop.
    + cbn [Difflib.inner].
      assert (H0 : diagonal_run l (S i) = 0) by (cbn [diagonal_run]; now rewrite Hx, Hpop).
      apply IH; [lia | now apply diagonal_j2len_empty |].
      destruct best as [[bi bj] bs]. destruct Hbest as (<- & Hlim & Hseen).
      repeat split; [lia|]. intros r Hr.
      destruct (decide (r = S i)) as [->|Hne]; [lia|]. apply Hseen. lia.
    + destruct (indices_from_split x l 0 i Hx) as (js1 & js2 & E & Hlt).
      destruct (inner_row i x j2len (Difflib.indices_from x l 0) Hx Hpop HJ) with
        (newj2len := (∅ : gmap nat nat)) (best := best)
        as (m' & best' & Ei & Hb' & Hi' & Hbest').
      * intros j Hj. apply indices_from_spec in Hj as [_ Hj].
        rewrite Nat.sub_0_r in Hj. split; [|exact Hj].
        apply lookup_lt_is_Some_1. eauto.
      * intros j k Hl. rewrite lookup_empty in Hl. discriminate.
      * destruct best as [[bi bj] bs]. destruct Hbest as (<- & Hlim & Hseen).
        repeat split; [lia | exact Hseen].
      * right. eauto.
      * rewrite Ei. apply IH; [lia | now apply diagonal_j2len_next | exact Hbest'].
Qed.

Lemma same_at_diagonal (i : nat) : i < length l -> Difflib.same_at l l i i = true.
Proof.
  intros Hi. unfold Difflib.same_at.
  destruct (lookup_lt_is_Some_2 l i Hi) as [x ->]. now apply bool_decide_eq_true.
Qed.

(** A match on the diagonal grows to the left as far as the start. *)
Lemma extend_left_diagonal (besti bestsize : nat) :
  besti <= length l ->
  Difflib.extend_left l l 0 0 besti besti bestsize = (0, 0, bestsize + besti).
Proof.
  revert bestsize. induction besti as [|i IH]; intros bestsize Hi.
  - cbn [Difflib.extend_left]. now rewrite Nat.add_0_r.
  - cbn [Difflib.extend_left]. rewrite same_at_diagonal by lia.
    change (0 <? S i) with true. cbn [andb].
    rewrite IH by lia. f_equal. lia.
Qed.

(** A match at the start of the diagonal grows to the right as far as the
    end. *)
Lemma extend_right_diagonal (fuel bestsize : nat) :
  bestsize <= length l -> length l - bestsize <= fuel ->
  Difflib.extend_right l l fuel (length l) (length l) 0 0 bestsize = length l.
Proof.
  revert bestsize. induction fuel as [|fuel IH]; intros bestsize Hle Hfuel.
  - cbn [Difflib.extend_right]. lia.
  - cbn [Difflib.extend_right]. cbn [Nat.add].
    destruct (Nat.ltb_spec bestsize (length l)) as [Hlt|Hge]; cbn [andb]; [|lia].
    rewrite same_at_diagonal by exact Hlt. apply IH; lia.
Qed.

(** The longest match of a list with itself is the whole list. *)
Lemma find_longest_match_same :
  Difflib.find_longest_match l l 0 (length l) 0 (length l) = (0, 0, length l).
Proof.
  unfold Difflib.find_longest_match. rewrite Nat.sub_0_r.
  assert (Hout : diagonal_best l (length l) (length l)
                   (Difflib.outer l l (seq 0 (length l)) 0 (length l) ∅ (0, 0, 0))).
  { apply outer_rows; [reflexivity | now apply diagonal_j2len_empty |].
    repeat split; [reflexivity|]. intros r Hr. replace r with 0 by lia. reflexivity. }
  destruct (Difflib.outer l l (seq 0 (length l)) 0 (length l) ∅ (0, 0, 0))
    as [[bi bj] bs].
  destruct Hout as (<- & Hlim & _).
  rewrite extend_left_diagonal by lia.
  rewrite extend_right_diagonal by lia. reflexivity.
Qed.

Lemma get_opcodes_same :
  Difflib.get_opcodes l l
  = match l with [] => [] | _ => [Difflib.Op Difflib.Equal 0 (length l) 0 (length l)] end.
Proof.
  unfold Difflib.get_opcodes, Difflib.get_matching_blocks.
  rewrite Nat.add_1_r. cbn [Difflib.blocks_loop].
  rewrite find_longest_match_same.
  destruct l as [|x l'] eqn:El.
  - reflexivity.
  - set (n := length (x :: l')). assert (Hn : n = S (length l')) by reflexivity.
    assert (E0 : (n =? 0) = false) by (apply Nat.eqb_neq; lia). rewrite E0.
    change (0 <? 0) with false. cbn [andb Nat.add].
    rewrite Nat.ltb_irrefl. cbn [app].
    assert (Eloop : forall fuel, Difflib.blocks_loop (x :: l') (x :: l') fuel [] [(0, 0, n)]
                                 = [(0, 0, n)]) by (intros []; reflexivity).
    rewrite Eloop. cbn [Difflib.sort_blocks foldr Difflib.insert_block Difflib.collapse].
    cbn [Nat.add Nat.eqb andb]. rewrite E0. cbn [app Difflib.opcodes_from].
    rewrite !Nat.add_0_l, E0.
    change (0 <? 0) with false. cbn [andb app Nat.eqb].
    rewrite Nat.ltb_irrefl. reflexivity.
Qed.

(** No group of opcodes is left for a list and itself. *)
Lemma get_grouped_opcodes_same : Difflib.get_grouped_opcodes l l 3 = [].
Proof.
  unfold Difflib.get_grouped_opcodes. rewrite get_opcodes_same.
  destruct l as [|x l'] eqn:El; [reflexivity|].
  set (n := length (x :: l')).
  cbn [Difflib.trim_first Difflib.trim_last Difflib.group_loop Difflib.is_equal
       Difflib.op_tag andb app].
  destruct (Nat.ltb_spec (3 + 3)
              (Nat.min n (Nat.max 0 (n - 3) + 3) - Nat.max 0 (n - 3))) as [Hbad|_]; [lia|].
  reflexivity.
Qed.

End Identical.

(** The unified diff of a list of lines and itself is empty. *)
Lemma unified_diff_same (lines : list string) : Difflib.unified_diff lines lines = [].
Proof.
  unfold Difflib.unified_diff, Difflib.unified_diff_lines.
  now rewrite get_grouped_opcodes_same.
Qed.

(** ** Two versions that are the same *)

Lemma change_sign_same (n : nat) : change_sign n n = "".
Proof. unfold change_sign. now rewrite Nat.ltb_irrefl. Qed.

Lemma snap_change_descriptor_same (lines : list string) :
  Snap.change_descriptor lines lines = "0 lines".
Proof.
  unfold Snap.change_descriptor. now rewrite unified_diff_same, change_sign_same.
Qed.

Lemma dve_change_descriptor_same (lines : list string) :
  Dve.change_descriptor lines lines = "0 lines".
Proof.
  unfold Dve.change_descriptor. now rewrite unified_diff_same, change_sign_same.
Qed.

(** X18.  In the rows a load shows, in either launcher, a row whose file
    has the same content as the file of the next row, both being read, has
    the change descriptor 0 lines, with no sign. *)
Theorem identical_versions_zero_lines (BASE_DIR batch : string)
    (filename : option string) (d : string) (w : world) (rows : list row)
    (i : nat) (r r' : row) (content : string) :
  fst (Snap.load_backups_from_name BASE_DIR batch d w) = Ok (Shown rows)
  \/ fst (Dve.load_versions filename d w) = Ok (Shown rows) ->
  rows !! i = Some r -> rows !! S i = Some r' ->
  channel_text w (row_path r) = Some content ->
  channel_text w (row_path r') = Some content ->
  row_diff r = "0 lines".
Proof.
  intros H Hr Hr' Hc Hn.
  destruct (shown_rows_labelled _ _ _ _ _ _ H) as (descr & Hdescr & Hrows).
  rewrite (labelled_rows_diff _ _ _ _ _ _ _ _ Hrows Hr Hr' Hc Hn).
  destruct Hdescr as [-> | ->];
    [apply snap_change_descriptor_same | apply dve_change_descriptor_same].
Qed.

Lemma identical_versions_zero_lines_witness :
  (exists r, Demo.snap_rows !! 0 = Some r
             /\ row_path r = path_join Demo.dir Demo.v3 /\ row_diff r = "0 lines")
  /\ (exists r, Demo.rows !! 0 = Some r
                /\ row_path r = path_join Demo.dir Demo.v3 /\ row_diff r = "0 lines").
Proof.
  split.
  - destruct (Demo.snap_rows !! 0) as [r|] eqn:E0; [|vm_compute in E0; discriminate E0].
    destruct (Demo.snap_rows !! 1) as [r'|] eqn:E1; [|vm_compute in E1; discriminate E1].
    exists r. split; [reflexivity|].
    assert (Hp : row_path r = path_join Demo.dir Demo.v3)
      by (vm_compute in E0; injection E0 as <-; reflexivity).
    assert (Hp' : row_path r' = path_join Demo.dir Demo.v2)
      by (vm_compute in E1; injection E1 as <-; reflexivity).
    split; [exact Hp|].
    apply (identical_versions_zero_lines "C:\s" "C:\x\report.txt" None Demo.dir Demo.w0
             Demo.snap_rows 0 r r' ("a" +:+ NL +:+ "b" +:+ NL)).
    + left. vm_compute. reflexivity.
    + exact E0.
    + exact E1.
    + rewrite Hp. vm_compute. reflexivity.
    + rewrite Hp'. vm_compute. reflexivity.
  - destruct (Demo.rows !! 0) as [r|] eqn:E0; [|vm_compute in E0; discriminate E0].
    destruct (Demo.rows !! 1) as [r'|] eqn:E1; [|vm_compute in E1; discriminate E1].
    exists r. split; [reflexivity|].
    assert (Hp : row_path r = path_join Demo.dir Demo.v3)
      by (vm_compute in E0; injection E0 as <-; reflexivity).
    assert (Hp' : row_path r' = path_join Demo.dir Demo.v2)
      by (vm_compute in E1; injection E1 as <-; reflexivity).
    split; [exact Hp|].
    apply (identical_versions_zero_lines "" "" (Some "report.txt") Demo.dir Demo.w0
             Demo.rows 0 r r' ("a" +:+ NL +:+ "b" +:+ NL)).
    + right. vm_compute. reflexivity.
    + exact E0.
    + exact E1.
    + rewrite Hp. vm_compute. reflexivity.
    + rewrite Hp'. vm_compute. reflexivity.
Defined.

(** ** Lines written and read again *)

Lemma readlines_cons (c : ascii) (s : string) :
  readlines (String c s)
  = if Ascii.eqb c LF then String c "" :: readlines s
    else match readlines s with
         | [] => [String c ""]
         | l :: ls => String c l :: ls
         end.
Proof. reflexivity. Qed.

Lemma readlines_nonempty (s : string) : s <> "" -> readlines s <> [].
Proof.
  destruct s as [|c s]; [congruence|]. intros _. rewrite readlines_cons.
  destruct (Ascii.eqb c LF); [discriminate|]. destruct (readlines s); discriminate.
Qed.

Lemma endswith_NL_cons (c : ascii) (s : string) :
  s <> "" -> endswith (String c s) NL = endswith s NL.
Proof.
  intros Hs. cbn [endswith]. destruct (String.eqb_spec (String c s) NL) as [E|_]; [|reflexivity].
  injection E as _ ->. congruence.
Qed.

(** A text that ends a line and a text after it are read line by line. *)
Lemma readlines_app (s t : string) :
  terminated s = true -> readlines (s +:+ t) = readlines s ++ readlines t.
Proof.
  unfold terminated. induction s as [|c s IH]; intros H; app_simpl; [reflexivity|].
  cbn [String.eqb orb] in H. rewrite !readlines_cons.
  destruct s as [|d s].
  - cbn [endswith] in H. destruct (String.eqb_spec (String c "") NL) as [E|_]; [|discriminate].
    injection E as ->. app_simpl. reflexivity.
  - rewrite endswith_NL_cons in H by discriminate.
    rewrite IH by exact H.
    destruct (Ascii.eqb c LF); [reflexivity|].
    pose proof (readlines_nonempty (String d s)) as Hne.
    destruct (readlines (String d s)) as [|l ls]; [now elim Hne|]. reflexivity.
Qed.

Lemma contains_app (c : ascii) (s t : string) :
  contains c (s +:+ t) = contains c s || contains c t.
Proof.
  induction s as [|d s IH]; app_simpl; [reflexivity|]. cbn [contains].
  destruct (Ascii.eqb c d); [reflexivity | exact IH].
Qed.

(** A line without a line feed, its line feed and a text after it. *)
Lemma readlines_line (e t : string) :
  contains LF e = false -> readlines (e +:+ NL +:+ t) = (e +:+ NL) :: readlines t.
Proof.
  induction e as [|c e IH]; intros H; app_simpl.
  - unfold NL. app_simpl. reflexivity.
  - cbn [contains] in H. rewrite readlines_cons.
    rewrite Ascii.eqb_sym. destruct (Ascii.eqb LF c); [discriminate|].
    now rewrite IH.
Qed.

Lemma entry_lines_cons (e : string) (es : list string) :
  entry_lines (e :: es) = e +:+ NL +:+ entry_lines es.
Proof.
  unfold entry_lines. cbn [map]. destruct es as [|e' es]; cbn [String.concat map].
  - now rewrite append_nil_r.
  - now rewrite append_nil_l, append_assoc.
Qed.

Lemma single_line_no_LF (e : string) : single_line e = true -> contains LF e = false.
Proof. unfold single_line. intros H. apply andb_prop in H as [H _]. now apply negb_true_iff. Qed.

Lemma readlines_entry_lines (es : list string) :
  Forall (fun e => contains LF e = false) es ->
  readlines (entry_lines es) = map (fun e => e +:+ NL) es.
Proof.
  induction 1 as [|e es He Hes IH]; [reflexivity|].
  rewrite entry_lines_cons, readlines_line by exact He.
  now rewrite IH.
Qed.

Lemma single_lines_no_LF (es : list string) :
  Forall (fun e => single_line e = true) es ->
  Forall (fun e => contains LF e = false) es.
Proof.
  intros H. eapply Forall_impl; [exact H|]. intros e. apply single_line_no_LF.
Qed.

Lemma stripped_lines_app (l1 l2 : list string) :
  stripped_lines (l1 ++ l2) = stripped_lines l1 ++ stripped_lines l2.
Proof. unfold stripped_lines. now rewrite filter_app, map_app. Qed.

Lemma stripped_lines_entries (es : list string) :
  stripped_lines (map (fun e => e +:+ NL) es)
  = map strip (filter (fun e => strip e ≠ "") es).
Proof.
  unfold stripped_lines. induction es as [|e es IH]; [reflexivity|].
  cbn [map]. rewrite !filter_cons, strip_app_NL.
  destruct (decide (strip e ≠ "")); cbn [map]; rewrite ?strip_app_NL; now rewrite IH.
Qed.

Lemma endswith_app_r (s t : string) : endswith (s +:+ t) t = true.
Proof. apply endswith_app, endswith_refl. Qed.

Lemma terminated_entry_lines (s : string) (es : list string) :
  terminated s = true -> terminated (s +:+ entry_lines es) = true.
Proof.
  intros Hs. induction es as [|e es IH] using rev_ind.
  - unfold entry_lines. cbn [map String.concat]. now rewrite append_nil_r.
  - unfold terminated. apply orb_true_iff. right.
    assert (E : entry_lines (es ++ [e]) = entry_lines es +:+ e +:+ NL).
    { clear. induction es as [|x es IH]; cbn [app]; rewrite !entry_lines_cons.
      - change (entry_lines []) with "". now rewrite append_nil_l, append_nil_r.
      - now rewrite IH, !append_assoc. }
    rewrite E. repeat apply endswith_app. reflexivity.
Qed.

(** ** The audit stream functions on a stream that can be read *)

Lemma read_text_absent (p : string) (w : world) :
  p ∉ rdeny w -> nodes w !! p = None -> read_text p w = (Raise FileNotFoundError, w).
Proof. intros Hr Hn. unfold read_text. rewrite decide_False by exact Hr. now rewrite Hn. Qed.

Lemma read_bytes_absent (p : string) (w : world) :
  p ∉ rdeny w -> nodes w !! p = None -> read_bytes p w = (Raise FileNotFoundError, w).
Proof. intros Hr Hn. unfold read_bytes. rewrite decide_False by exact Hr. now rewrite Hn. Qed.

Lemma read_text_present (p s : string) (w : world) :
  p ∉ rdeny w -> nodes w !! p = Some (Text s) -> read_text p w = (Ok s, w).
Proof. intros Hr Hn. unfold read_text. rewrite decide_False by exact Hr. now rewrite Hn. Qed.

Lemma stream_text_cases (w : world) (p s : string) :
  stream_text w p = Some s ->
  (p +:+ ":meta_audit" ∉ rdeny w)
  /\ (nodes w !! (p +:+ ":meta_audit") = Some (Text s)
      \/ (nodes w !! (p +:+ ":meta_audit") = None /\ s = "")).
Proof.
  unfold stream_text. destruct (decide _) as [|Hr]; [discriminate|].
  destruct (nodes w !! (p +:+ ":meta_audit")) as [[t|]|]; intros [= <-]; auto.
Qed.

Lemma snap_read_meta_audit_stream (BASE_DIR p s : string) (w : world) :
  stream_text w p = Some s ->
  exists w', Snap.read_meta_audit BASE_DIR p w = (Ok (stripped_lines (readlines s)), w')
             /\ files_eq w w'.
Proof.
  intros Hs. apply stream_text_cases in Hs as [Hr [Hn|[Hn ->]]].
  - eexists. split; [|apply files_eq_log].
    unfold Snap.read_meta_audit, max_retries. cbn [Snap.read_meta_audit_loop]. unfold max_retries.
    apply try_ok. erewrite bind_ok by (apply read_text_present; eassumption).
    reflexivity.
  - unfold Snap.read_meta_audit, max_retries. cbn [Snap.read_meta_audit_loop]. unfold max_retries.
    erewrite try_raise by (apply bind_raise, read_text_absent; assumption).
    rewrite bind_log. cbn [Nat.add Nat.eqb].
    erewrite try_raise by (apply bind_raise, read_text_absent; assumption).
    rewrite bind_log. cbn [Nat.add Nat.eqb].
    erewrite try_raise by (apply bind_raise, read_text_absent; assumption).
    rewrite bind_log. cbn [Nat.add Nat.eqb].
    erewrite try_raise by (apply bind_raise, read_bytes_absent; assumption).
    rewrite bind_log. eexists. split; [reflexivity|]. repeat split.
Qed.

Lemma path_exists_result (p : string) (w : world) :
  path_exists p w
  = (Ok (bool_decide (is_Some (nodes w !! p)) || bool_decide (is_Some (dirs w !! p))), w).
Proof. reflexivity. Qed.

Lemma dve_read_meta_audit_stream (p s : string) (w : world) :
  stream_text w p = Some s ->
  exists w', Dve.read_meta_audit p w = (Ok (stripped_lines (readlines s)), w')
             /\ files_eq w w'.
Proof.
  intros Hs. apply stream_text_cases in Hs as [Hr [Hn|[Hn ->]]].
  - exists w. split; [|apply files_eq_refl].
    unfold Dve.read_meta_audit, max_retries. cbn [Dve.read_meta_audit_loop]. unfold max_retries.
    apply try_ok. erewrite bind_ok by apply path_exists_result.
    rewrite Hn. rewrite (bool_decide_true (is_Some (Some (Text s)))) by eauto.
    cbn [orb negb]. erewrite bind_ok by (apply read_text_present; eassumption).
    reflexivity.
  - exists w. split; [|apply files_eq_refl].
    unfold Dve.read_meta_audit, max_retries. cbn [Dve.read_meta_audit_loop]. unfold max_retries.
    destruct (bool_decide (is_Some (dirs w !! (p +:+ ":meta_audit")))) eqn:Ed.
    + erewrite try_raise with (e := FileNotFoundError); [reflexivity|].
      erewrite bind_ok by apply path_exists_result.
      rewrite Ed, orb_true_r. cbn [negb].
      apply bind_raise, read_text_absent; assumption.
    + apply try_ok. erewrite bind_ok by apply path_exists_result.
      rewrite Hn, Ed. rewrite (bool_decide_false (is_Some None)) by (intros [? ?]; discriminate).
      reflexivity.
Qed.

Lemma stream_text_files_eq (w w' : world) (p : string) :
  files_eq w w' -> stream_text w' p = stream_text w p.
Proof. intros (Hn & Hr & _). unfold stream_text. now rewrite Hn, Hr. Qed.

Lemma append_text_result (p t : string) (w : world) :
  p ∉ wdeny w ->
  append_text p t w
  = (Ok tt, set_nodes (insert p (node_app (default (Text "") (nodes w !! p)) (Text t))) w).
Proof. intros Hw. unfold append_text, append_bytes. now rewrite decide_False by exact Hw. Qed.

Lemma append_text_denied (p t : string) (w : world) :
  p ∈ wdeny w -> append_text p t w = (Raise PermissionError, w).
Proof. intros Hw. unfold append_text, append_bytes. now rewrite decide_True by exact Hw. Qed.

(** What a stream of text [s] holds once [t] is appended. *)
Lemma stream_after_append (w : world) (p s t : string) :
  stream_text w p = Some s ->
  node_app (default (Text "") (nodes w !! (p +:+ ":meta_audit"))) (Text t) = Text (s +:+ t).
Proof.
  intros Hs. apply stream_text_cases in Hs as [_ [Hn|[Hn ->]]]; now rewrite Hn.
Qed.

(** [append_meta_audit] on a stream that can be read and written: the new
    entries are appended, each on a line, and nothing else changes. *)
Lemma snap_append_meta_audit_stream (BASE_DIR p s : string) (entries : list string)
    (w : world) :
  stream_text w p = Some s -> p +:+ ":meta_audit" ∉ wdeny w ->
  exists w',
    Snap.append_meta_audit BASE_DIR p entries w = (Ok tt, w')
    /\ rdeny w' = rdeny w /\ wdeny w' = wdeny w
    /\ dirs w' = dirs w /\ ctimes w' = ctimes w
    /\ nodes w' = match new_entries_for s entries with
                  | [] => nodes w
                  | new => <[p +:+ ":meta_audit" := Text (s +:+ entry_lines new)]> (nodes w)
                  end.
Proof.
  intros Hs Hw. unfold Snap.append_meta_audit.
  destruct entries as [|e entries]; [exists w; repeat split|].
  destruct (snap_read_meta_audit_stream BASE_DIR p s w Hs) as (w1 & E1 & F1).
  erewrite bind_ok by exact E1.
  fold (new_entries_for s (e :: entries)).
  pose proof F1 as (Hn1 & Hr1 & Hw1 & Hd1 & Hc1).
  destruct (new_entries_for s (e :: entries)) as [|x new] eqn:Enew.
  - eexists. split; [reflexivity|]. repeat split; assumption.
  - unfold max_retries. cbn [Snap.append_meta_audit_loop].
    eexists. split.
    + apply try_ok. erewrite bind_ok by (apply append_text_result; now rewrite Hw1).
      reflexivity.
    + cbn [rdeny wdeny dirs ctimes nodes set_log set_nodes]. repeat split; try assumption.
      rewrite (stream_after_append w1 p s) by (now rewrite (stream_text_files_eq w w1)).
      now rewrite Hn1.
Qed.

Lemma dve_append_meta_audit_stream (p s : string) (entries : list string) (w : world) :
  stream_text w p = Some s -> p +:+ ":meta_audit" ∉ wdeny w ->
  is_Some (nodes w !! p) ->
  exists w',
    Dve.append_meta_audit p entries w = (Ok tt, w')
    /\ rdeny w' = rdeny w /\ wdeny w' = wdeny w
    /\ dirs w' = dirs w /\ ctimes w' = ctimes w
    /\ nodes w' = match new_entries_for s entries with
                  | [] => nodes w
                  | new => <[p +:+ ":meta_audit" := Text (s +:+ entry_lines new)]> (nodes w)
                  end.
Proof.
  intros Hs Hw Hmain. unfold Dve.append_meta_audit.
  destruct entries as [|e entries]; [exists w; repeat split|].
  destruct (dve_read_meta_audit_stream p s w Hs) as (w1 & E1 & F1).
  erewrite bind_ok by exact E1.
  fold (new_entries_for s (e :: entries)).
  pose proof F1 as (Hn1 & Hr1 & Hw1 & Hd1 & Hc1).
  destruct (new_entries_for s (e :: entries)) as [|x new] eqn:Enew.
  - eexists. split; [reflexivity|]. repeat split; assumption.
  - unfold max_retries. cbn [Dve.append_meta_audit_loop].
    eexists. split.
    + apply try_ok. erewrite bind_ok by apply path_exists_result.
      rewrite Hn1. rewrite (bool_decide_true (is_Some (nodes w !! p))) by exact Hmain.
      cbn [orb negb]. apply append_text_result. now rewrite Hw1.
    + cbn [rdeny wdeny dirs ctimes nodes set_log set_nodes]. repeat split; try assumption.
      rewrite (stream_after_append w1 p s) by (now rewrite (stream_text_files_eq w w1)).
      now rewrite Hn1.
Qed.

Lemma endswith_length (s p : string) :
  endswith s p = true -> String.length p <= String.length s.
Proof.
  induction s as [|c s IH]; cbn [endswith].
  - destruct (String.eqb_spec "" p) as [<-|]; [reflexivity | discriminate].
  - destruct (String.eqb_spec (String c s) p) as [<-|_]; [reflexivity|].
    intros H. specialize (IH H). simpl. lia.
Qed.

Lemma endswith_same_length (s p q : string) :
  endswith s p = true -> endswith s q = true ->
  String.length p = String.length q -> p = q.
Proof.
  induction s as [|c s IH]; cbn [endswith]; intros Hp Hq Hlen.
  - destruct (String.eqb_spec "" p) as [<-|]; [|discriminate].
    destruct (String.eqb_spec "" q) as [<-|]; [reflexivity | discriminate].
  - destruct (String.eqb_spec (String c s) p) as [Ep|_];
      destruct (String.eqb_spec (String c s) q) as [Eq|_].
    + congruence.
    + apply endswith_length in Hq. subst p. simpl in Hlen. lia.
    + apply endswith_length in Hp. subst q. simpl in Hlen. lia.
    + auto.
Qed.

(** The temporary file of a stream is not the stream. *)
Lemma temp_file_not_stream (BASE_DIR p q : string) :
  Snap.temp_path_of BASE_DIR p <> q +:+ ":meta_audit".
Proof.
  intros E.
  assert (H1 : endswith (Snap.temp_path_of BASE_DIR p) "xt" = true)
    by (unfold Snap.temp_path_of; apply endswith_path_join; repeat apply endswith_app;
        reflexivity).
  assert (H2 : endswith (q +:+ ":meta_audit") "it" = true)
    by (apply endswith_app; reflexivity).
  rewrite E in H1. discriminate (endswith_same_length _ _ _ H1 H2 eq_refl).
Qed.

Lemma open_append_denied (p : string) (w : world) :
  p ∈ wdeny w -> open_append p w = (Raise PermissionError, w).
Proof. intros Hw. unfold open_append. now rewrite decide_True by exact Hw. Qed.

(** [append_meta_audit] on a stream that cannot be written: the stream is
    what it was. *)
Lemma snap_append_meta_audit_denied (BASE_DIR p s : string) (entries : list string)
    (w : world) :
  stream_text w p = Some s -> p +:+ ":meta_audit" ∈ wdeny w ->
  exists w',
    Snap.append_meta_audit BASE_DIR p entries w = (Ok tt, w')
    /\ rdeny w' = rdeny w /\ wdeny w' = wdeny w
    /\ nodes w' !! (p +:+ ":meta_audit") = nodes w !! (p +:+ ":meta_audit").
Proof.
  intros Hs Hw. unfold Snap.append_meta_audit.
  destruct entries as [|e entries]; [exists w; repeat split|].
  destruct (snap_read_meta_audit_stream BASE_DIR p s w Hs) as (w1 & E1 & F1).
  erewrite bind_ok by exact E1.
  pose proof F1 as (Hn1 & Hr1 & Hw1 & Hd1 & Hc1).
  destruct (filter _ (e :: entries)) as [|x new].
  - eexists. split; [reflexivity|]. cbn [rdeny wdeny nodes set_log]. now rewrite Hn1.
  - unfold max_retries. cbn [Snap.append_meta_audit_loop]. unfold max_retries.
    assert (Hw' : p +:+ ":meta_audit" ∈ wdeny w1) by now rewrite Hw1.
    erewrite try_raise by (apply bind_raise, append_text_denied; exact Hw').
    rewrite bind_log. cbn [Nat.add Nat.eqb].
    erewrite try_raise by (apply bind_raise, append_text_denied; exact Hw').
    rewrite bind_log. cbn [Nat.add Nat.eqb].
    erewrite try_raise by (apply bind_raise, append_text_denied; exact Hw').
    rewrite bind_log. cbn [Nat.add Nat.eqb].
    match goal with |- context [try_except _ _ ?w] => set (w3 := w) end.
    destruct (decide (Snap.temp_path_of BASE_DIR p ∈ wdeny w3)) as [Ht|Ht].
    + erewrite try_raise by (apply bind_raise, append_text_denied; exact Ht).
      eexists. split; [reflexivity|]. subst w3.
      cbn [rdeny wdeny nodes set_log]. now rewrite Hn1.
    + erewrite try_raise.
      2: { erewrite bind_ok by (apply append_text_result; exact Ht).
           apply bind_raise, open_append_denied. exact Hw'. }
      eexists. split; [reflexivity|]. subst w3.
      cbn [rdeny wdeny nodes set_log set_nodes]. repeat split; try assumption.
      rewrite lookup_insert_ne by apply temp_file_not_stream. now rewrite Hn1.
Qed.

(** ** Counting the changed lines *)

Lemma slice_elem_of {A : Type} (l : list A) (i1 i2 : nat) (x : A) :
  x ∈ Difflib.slice l i1 i2 -> x ∈ l.
Proof.
  unfold Difflib.slice. intros H.
  apply elem_of_take in H as (i & H & _). rewrite lookup_drop in H.
  eapply list_elem_of_lookup_2. exact H.
Qed.

Lemma group_lines_spec (a b : list string) (group : list Difflib.opcode) :
  Forall (fun d => hunk_line d /\ line_from a b d) (Difflib.group_lines a b group).
Proof.
  unfold Difflib.group_lines. induction group as [|o group IH]; [constructor|].
  cbn [flat_map]. apply Forall_app. split; [|exact IH].
  destruct (Difflib.op_tag o); rewrite ?Forall_app, !Forall_map;
    repeat split; apply Forall_forall; intros l Hl; (split; [exact I|]);
    cbn [line_from]; try exact I; eapply slice_elem_of; exact Hl.
Qed.

Lemma hunk_spec (a b : list string) (group : list Difflib.opcode) :
  Forall (fun d => hunk_line d /\ line_from a b d) (Difflib.hunk a b group).
Proof.
  unfold Difflib.hunk. destruct group as [|first rest]; [constructor|].
  destruct (last (first :: rest)); [|constructor].
  constructor; [|apply group_lines_spec].
  split; [|exact I]. cbn [hunk_line]. unfold startswith. now app_simpl.
Qed.

Lemma hunks_spec (a b : list string) (groups : list (list Difflib.opcode)) :
  Forall (fun d => hunk_line d /\ line_from a b d) (flat_map (Difflib.hunk a b) groups).
Proof.
  induction groups as [|g groups IH]; [constructor|].
  cbn [flat_map]. apply Forall_app. split; [apply hunk_spec | exact IH].
Qed.

(** A diff is empty, or two file headers and the lines of the hunks. *)
Lemma unified_diff_lines_shape (a b : list string) :
  Difflib.unified_diff_lines a b = []
  \/ exists body,
       Difflib.unified_diff_lines a b
       = Difflib.FileHeader "--- " :: Difflib.FileHeader "+++ " :: body
       /\ Forall (fun d => hunk_line d /\ line_from a b d) body.
Proof.
  unfold Difflib.unified_diff_lines.
  destruct (Difflib.get_grouped_opcodes a b 3) as [|g groups]; [now left|].
  right. eexists. split; [reflexivity|]. apply hunks_spec.
Qed.

Lemma length_filter_cons {A : Type} (f : A -> bool) (x : A) (l : list A) :
  length (filter (fun y => f y) (x :: l))
  = (if f x then 1 else 0) + length (filter (fun y => f y) l).
Proof. rewrite filter_cons. destruct (f x); reflexivity. Qed.

(** Among the lines of the hunks, those that start with a sign are the
    removals and the additions. *)
Lemma signed_hunk_lines (body : list Difflib.dline) :
  Forall hunk_line body ->
  count_lines_where (fun line => startswith line "+" || startswith line "-")
    (map Difflib.render body)
  = length (filter (fun d => is_change d) body).
Proof.
  unfold count_lines_where. induction 1 as [|d body Hd Hbody IH]; [reflexivity|].
  cbn [map]. rewrite (length_filter_cons is_change).
  rewrite (length_filter_cons (fun line => startswith line "+" || startswith line "-")).
  rewrite IH. f_equal.
  destruct d as [s|s|l|l|l]; cbn [Difflib.render is_change hunk_line] in *.
  - destruct Hd.
  - destruct s as [|c s]; [discriminate|].
    unfold startswith in *. cbn [String.prefix] in *.
    destruct (ascii_dec "@" c) as [<-|]; [|discriminate]. reflexivity.
  - app_simpl. unfold startswith. cbn. now destruct l.
  - app_simpl. unfold startswith. cbn. now destruct l.
  - app_simpl. unfold startswith. cbn. now destruct l.
Qed.

Lemma Forall_proj1 {A : Type} (P Q : A -> Prop) (l : list A) :
  Forall (fun x => P x /\ Q x) l -> Forall P l.
Proof. intros H. eapply Forall_impl; [exact H|]. now intros x [? _]. Qed.

Lemma Forall_proj2 {A : Type} (P Q : A -> Prop) (l : list A) :
  Forall (fun x => P x /\ Q x) l -> Forall Q l.
Proof. intros H. eapply Forall_impl; [exact H|]. now intros x [_ ?]. Qed.

(** X1.  The count [load_backups_from_name] shows is one less than the
    number of removals and additions of the diff, and nought when there is
    none: two file headers start with a sign, and three lines are taken
    off. *)
Theorem snap_change_count_one_short (a b : list string) :
  Snap.change_count (Difflib.unified_diff a b) = changed_lines a b - 1.
Proof.
  unfold Snap.change_count, changed_lines, Difflib.unified_diff.
  destruct (unified_diff_lines_shape a b) as [->|(body & -> & Hbody)]; [reflexivity|].
  apply Forall_proj1 in Hbody.
  change (map Difflib.render (Difflib.FileHeader "--- " :: Difflib.FileHeader "+++ " :: body))
    with ("--- " :: "+++ " :: map Difflib.render body).
  pose proof (signed_hunk_lines body Hbody) as Hc. unfold count_lines_where in *.
  rewrite !(length_filter_cons is_change).
  rewrite !(length_filter_cons (fun line => startswith line "+" || startswith line "-")).
  rewrite Hc. cbn [is_change].
  change (startswith "--- " "+" || startswith "--- " "-") with true.
  change (startswith "+++ " "+" || startswith "+++ " "-") with true.
  cbv iota. lia.
Qed.

Lemma startswith_sign (c : ascii) (l p : string) :
  startswith (String c l) (String c p) = startswith l p.
Proof. unfold startswith. cbn [String.prefix]. now destruct (ascii_dec c c). Qed.

(** Among the lines of hunks whose removals do not start with two minus
    signs and whose additions do not start with two plus signs, the lines
    [load_versions] counts are the removals and the additions. *)
Lemma dve_counted_hunk_lines (a b : list string) (body : list Difflib.dline) :
  Forall (fun l => startswith l "--" = false) a ->
  Forall (fun l => startswith l "++" = false) b ->
  Forall (fun d => hunk_line d /\ line_from a b d) body ->
  Dve.change_count (map Difflib.render body)
  = length (filter (fun d => is_change d) body).
Proof.
  intros Ha Hb. unfold Dve.change_count, count_lines_where.
  induction 1 as [|d body [Hd Hfrom] Hbody IH]; [reflexivity|].
  cbn [map]. rewrite (length_filter_cons is_change).
  rewrite (length_filter_cons
             (fun line => (startswith line "+" || startswith line "-")
                          && negb (startswith line "+++" || startswith line "---"))).
  rewrite IH. f_equal.
  destruct d as [s|s|l|l|l]; cbn [Difflib.render is_change hunk_line line_from] in *.
  - destruct Hd.
  - destruct s as [|c s]; [discriminate|].
    unfold startswith in *. cbn [String.prefix] in *.
    destruct (ascii_dec "@" c) as [<-|]; [|discriminate]. reflexivity.
  - app_simpl. unfold startswith. cbn. reflexivity.
  - app_simpl. rewrite Forall_forall in Ha. specialize (Ha l Hfrom).
    rewrite (startswith_sign "-" l "--"), Ha.
    unfold startswith. cbn. now destruct l.
  - app_simpl. rewrite Forall_forall in Hb. specialize (Hb l Hfrom).
    rewrite (startswith_sign "+" l "++"), Hb.
    unfold startswith. cbn. now destruct l.
Qed.

(** X2.  When no line of the older file starts with two minus signs and
    no line of the newer file with two plus signs, the count [load_versions]
    shows is the number of removals and additions of the diff. *)
Theorem dve_change_count_exact (a b : list string) :
  Forall (fun l => startswith l "--" = false) a ->
  Forall (fun l => startswith l "++" = false) b ->
  Dve.change_count (Difflib.unified_diff a b) = changed_lines a b.
Proof.
  intros Ha Hb. unfold changed_lines, Difflib.unified_diff.
  destruct (unified_diff_lines_shape a b) as [->|(body & -> & Hbody)]; [reflexivity|].
  pose proof (dve_counted_hunk_lines a b body Ha Hb Hbody) as Hc.
  change (map Difflib.render (Difflib.FileHeader "--- " :: Difflib.FileHeader "+++ " :: body))
    with ("--- " :: "+++ " :: map Difflib.render body).
  unfold Dve.change_count, count_lines_where in *.
  rewrite !(length_filter_cons is_change).
  rewrite !(length_filter_cons
              (fun line => (startswith line "+" || startswith line "-")
                           && negb (startswith line "+++" || startswith line "---"))).
  rewrite Hc. reflexivity.
Qed.

Lemma dve_change_count_exact_witness :
  Dve.change_count (Difflib.unified_diff ["a" +:+ NL; "-x" +:+ NL] ["a" +:+ NL; "+y" +:+ NL; "z" +:+ NL])
  = changed_lines ["a" +:+ NL; "-x" +:+ NL] ["a" +:+ NL; "+y" +:+ NL; "z" +:+ NL]
  /\ changed_lines ["a" +:+ NL; "-x" +:+ NL] ["a" +:+ NL; "+y" +:+ NL; "z" +:+ NL] = 3.
Proof.
  split; [|vm_compute; reflexivity].
  apply (dve_change_count_exact ["a" +:+ NL; "-x" +:+ NL] ["a" +:+ NL; "+y" +:+ NL; "z" +:+ NL]).
  - repeat constructor.
  - repeat constructor.
Defined.

(** ** Entries appended and read again *)

Lemma filter_none {A : Type} (P : A -> Prop) `{forall x, Decision (P x)} (l : list A) :
  (forall x, x ∈ l -> ~ P x) -> filter P l = [].
Proof.
  induction l as [|x l IH]; intros Hl; [reflexivity|].
  rewrite filter_cons, decide_False by (apply Hl; left).
  apply IH. intros y Hy. apply Hl. now right.
Qed.

Lemma filter_all {A : Type} (P : A -> Prop) `{forall x, Decision (P x)} (l : list A) :
  (forall x, x ∈ l -> P x) -> filter P l = l.
Proof.
  induction l as [|x l IH]; intros Hl; [reflexivity|].
  rewrite filter_cons, decide_True by (apply Hl; left).
  f_equal. apply IH. intros y Hy. apply Hl. now right.
Qed.

(** The lines of a text that ends a line, once entries of one line each are
    appended: the lines it had, then the entries that are not blank. *)
Lemma stripped_lines_appended (s : string) (new : list string) :
  terminated s = true -> Forall (fun e => contains LF e = false) new ->
  stripped_lines (readlines (s +:+ entry_lines new))
  = stripped_lines (readlines s) ++ map strip (filter (fun e => strip e ≠ "") new).
Proof.
  intros Hs Hnew.
  now rewrite readlines_app, stripped_lines_app, readlines_entry_lines,
    stripped_lines_entries.
Qed.

Lemma new_entries_for_elem (s e : string) (entries : list string) :
  e ∈ new_entries_for s entries
  <-> e ∈ entries /\ strip e ≠ ""
      /\ strip e ∉ (list_to_set (stripped_lines (readlines s)) : gset string).
Proof. unfold new_entries_for. rewrite list_elem_of_filter. tauto. Qed.

Lemma new_entries_no_LF (s : string) (entries : list string) :
  Forall (fun e => contains LF e = false) entries ->
  Forall (fun e => contains LF e = false) (new_entries_for s entries).
Proof.
  rewrite !Forall_forall. intros H e He. apply H.
  now apply new_entries_for_elem in He as [He _].
Qed.

(** Once the new entries are in the stream, none of the entries is new. *)
Lemma new_entries_for_again (s : string) (entries : list string) :
  terminated s = true -> Forall (fun e => contains LF e = false) entries ->
  new_entries_for (s +:+ entry_lines (new_entries_for s entries)) entries = [].
Proof.
  intros Hs Hes. unfold new_entries_for at 1. apply filter_none.
  intros e He [Hne Hnot]. apply Hnot. clear Hnot.
  rewrite stripped_lines_appended by (try apply new_entries_no_LF; assumption).
  rewrite elem_of_list_to_set, elem_of_app.
  destruct (decide (strip e ∈ (list_to_set (stripped_lines (readlines s)) : gset string)))
    as [Hin|Hout].
  - left. now apply elem_of_list_to_set in Hin.
  - right. apply list_elem_of_fmap. exists e. split; [reflexivity|].
    apply list_elem_of_filter. split; [exact Hne|].
    apply new_entries_for_elem. auto.
Qed.

Lemma stream_text_same (w w' : world) (p : string) :
  rdeny w' = rdeny w ->
  nodes w' !! (p +:+ ":meta_audit") = nodes w !! (p +:+ ":meta_audit") ->
  stream_text w' p = stream_text w p.
Proof. intros Hr Hn. unfold stream_text. now rewrite Hr, Hn. Qed.

Lemma stream_text_written (w w' : world) (p s s' : string) :
  stream_text w p = Some s -> rdeny w' = rdeny w ->
  nodes w' !! (p +:+ ":meta_audit") = Some (Text s') ->
  stream_text w' p = Some s'.
Proof.
  intros Hs Hr Hn. apply stream_text_cases in Hs as [Hnr _].
  unfold stream_text. rewrite Hr, Hn. now rewrite decide_False by exact Hnr.
Qed.

(** What [append_meta_audit] does to a stream that can be read: nothing
    when no entry is new or the stream cannot be written, and the new entries
    are appended otherwise. *)
Lemma snap_append_meta_audit_cases (BASE_DIR p s : string) (entries : list string)
    (w : world) :
  stream_text w p = Some s ->
  exists w',
    Snap.append_meta_audit BASE_DIR p entries w = (Ok tt, w')
    /\ rdeny w' = rdeny w /\ wdeny w' = wdeny w
    /\ (((new_entries_for s entries = [] \/ (p +:+ ":meta_audit" ∈ wdeny w))
         /\ nodes w' !! (p +:+ ":meta_audit") = nodes w !! (p +:+ ":meta_audit"))
        \/ (new_entries_for s entries <> [] /\ (p +:+ ":meta_audit" ∉ wdeny w)
            /\ nodes w' !! (p +:+ ":meta_audit")
               = Some (Text (s +:+ entry_lines (new_entries_for s entries))))).
Proof.
  intros Hs. destruct (decide (p +:+ ":meta_audit" ∈ wdeny w)) as [Hw|Hw].
  - destruct (snap_append_meta_audit_denied BASE_DIR p s entries w Hs Hw)
      as (w' & E & Hr & Hw' & Hn).
    exists w'. repeat split; try assumption. left. auto.
  - destruct (snap_append_meta_audit_stream BASE_DIR p s entries w Hs Hw)
      as (w' & E & Hr & Hw' & _ & _ & Hn).
    exists w'. repeat split; try assumption.
    destruct (new_entries_for s entries) as [|x new] eqn:Enew.
    + left. split; [now left | now rewrite Hn].
    + right. split; [discriminate|]. split; [exact Hw|].
      rewrite Hn. apply lookup_insert_eq.
Qed.

Lemma path_exists_fst (p : string) (w : world) (b : bool) :
  fst (path_exists p w) = Ok b -> path_exists p w = (Ok b, w).
Proof. unfold path_exists. cbn [fst]. now intros [= <-]. Qed.

Lemma dve_append_meta_audit_cases (p s : string) (entries : list string) (w : world) :
  stream_text w p = Some s ->
  exists w',
    Dve.append_meta_audit p entries w = (Ok tt, w')
    /\ rdeny w' = rdeny w /\ wdeny w' = wdeny w /\ dirs w' = dirs w
    /\ ctimes w' = ctimes w
    /\ (((new_entries_for s entries = [] \/ (p +:+ ":meta_audit" ∈ wdeny w)
          \/ fst (path_exists p w) = Ok false)
         /\ nodes w' = nodes w)
        \/ (new_entries_for s entries <> [] /\ (p +:+ ":meta_audit" ∉ wdeny w)
            /\ fst (path_exists p w) = Ok true
            /\ nodes w' = <[p +:+ ":meta_audit"
                            := Text (s +:+ entry_lines (new_entries_for s entries))]> (nodes w))).
Proof.
  intros Hs. unfold Dve.append_meta_audit.
  destruct entries as [|e entries].
  { exists w. repeat split. left. split; [now left | reflexivity]. }
  destruct (dve_read_meta_audit_stream p s w Hs) as (w1 & E1 & F1).
  erewrite bind_ok by exact E1.
  fold (new_entries_for s (e :: entries)).
  pose proof F1 as (Hn1 & Hr1 & Hw1 & Hd1 & Hc1).
  destruct (new_entries_for s (e :: entries)) as [|x new] eqn:Enew.
  { exists w1. repeat split; try assumption. left. split; [now left | assumption]. }
  unfold max_retries. cbn [Dve.append_meta_audit_loop]. unfold max_retries.
  assert (Hex : forall w2, nodes w2 = nodes w -> dirs w2 = dirs w ->
                           path_exists p w2 = (fst (path_exists p w), w2)).
  { intros w2 Hn2 Hd2. unfold path_exists. cbn [fst]. now rewrite Hn2, Hd2. }
  pose proof (Hex w1 Hn1 Hd1) as Hex1.
  destruct (fst (path_exists p w)) as [[|]|bad] eqn:Eb; [| |discriminate Eb].
  - destruct (decide (p +:+ ":meta_audit" ∈ wdeny w)) as [Hw|Hw].
    + assert (Hw' : p +:+ ":meta_audit" ∈ wdeny w1) by now rewrite Hw1.
      erewrite try_raise.
      2: { erewrite bind_ok by exact Hex1. cbn [negb].
           apply append_text_denied. exact Hw'. }
      rewrite bind_log. cbn [Nat.eqb].
      erewrite try_raise.
      2: { erewrite bind_ok by (apply Hex; cbn [nodes dirs set_log]; assumption). cbn [negb].
           apply append_text_denied. exact Hw'. }
      rewrite bind_log. cbn [Nat.eqb].
      erewrite try_raise.
      2: { erewrite bind_ok by (apply Hex; cbn [nodes dirs set_log]; assumption). cbn [negb].
           apply append_text_denied. exact Hw'. }
      rewrite bind_log. cbn [Nat.eqb].
      eexists. split; [reflexivity|]. cbn [rdeny wdeny dirs ctimes nodes set_log].
      repeat split; try assumption. left. split; [|assumption]. right. now left.
    + eexists. split.
      * apply try_ok. erewrite bind_ok by exact Hex1. cbn [negb].
        apply append_text_result. now rewrite Hw1.
      * cbn [rdeny wdeny dirs ctimes nodes set_nodes]. repeat split; try assumption.
        right. split; [discriminate|]. split; [exact Hw|]. split; [reflexivity|].
        rewrite (stream_after_append w1 p s) by (now rewrite (stream_text_files_eq w w1)).
        now rewrite Hn1.
  - eexists. split.
    + apply try_ok. erewrite bind_ok by exact Hex1. cbn [negb]. reflexivity.
    + cbn [rdeny wdeny dirs ctimes nodes set_log]. repeat split; try assumption.
      left. split; [|assumption]. right. now right.
Qed.

Lemma path_not_its_stream (p : string) : p <> p +:+ ":meta_audit".
Proof.
  intros E. apply (f_equal String.length) in E. rewrite length_append in E.
  simpl in E. lia.
Qed.

(** X3.  On a stream that can be read and ends a line (or is not there),
    with entries of one line each, [append_meta_audit] called a second time
    with the same entries leaves the stream as the first call left it, in
    both launchers; neither call raises. *)
Theorem append_meta_audit_twice (BASE_DIR p s : string) (entries : list string)
    (w : world) :
  stream_text w p = Some s -> terminated s = true ->
  Forall (fun e => single_line e = true) entries ->
  (exists w1 w2,
     Snap.append_meta_audit BASE_DIR p entries w = (Ok tt, w1)
     /\ Snap.append_meta_audit BASE_DIR p entries w1 = (Ok tt, w2)
     /\ nodes w2 !! (p +:+ ":meta_audit") = nodes w1 !! (p +:+ ":meta_audit"))
  /\ (exists w1 w2,
        Dve.append_meta_audit p entries w = (Ok tt, w1)
        /\ Dve.append_meta_audit p entries w1 = (Ok tt, w2)
        /\ nodes w2 !! (p +:+ ":meta_audit") = nodes w1 !! (p +:+ ":meta_audit")).
Proof.
  intros Hs Hterm Hes. split.
  - destruct (snap_append_meta_audit_cases BASE_DIR p s entries w Hs)
      as (w1 & E1 & Hr1 & Hw1 & [[Hcond Hn1]|(Hnew & Hok & Hn1)]).
    + assert (Hs1 : stream_text w1 p = Some s)
        by (rewrite <- Hs; now apply stream_text_same).
      destruct (snap_append_meta_audit_cases BASE_DIR p s entries w1 Hs1)
        as (w2 & E2 & _ & _ & [[_ Hn2]|(Hnew & Hok & _)]).
      * eauto.
      * exfalso. rewrite Hw1 in Hok. destruct Hcond; auto.
    + assert (Hs1 : stream_text w1 p
                    = Some (s +:+ entry_lines (new_entries_for s entries)))
        by (eapply stream_text_written; eassumption).
      destruct (snap_append_meta_audit_cases BASE_DIR p _ entries w1 Hs1)
        as (w2 & E2 & _ & _ & [[_ Hn2]|(Hnew2 & _)]).
      * eauto.
      * exfalso. apply Hnew2. apply new_entries_for_again; [assumption|].
        now apply single_lines_no_LF.
  - destruct (dve_append_meta_audit_cases p s entries w Hs)
      as (w1 & E1 & Hr1 & Hw1 & Hd1 & _ & [[Hcond Hn1]|(Hnew & Hok & Hex & Hn1)]).
    + assert (Hs1 : stream_text w1 p = Some s)
        by (rewrite <- Hs; apply stream_text_same; [assumption | now rewrite Hn1]).
      destruct (dve_append_meta_audit_cases p s entries w1 Hs1)
        as (w2 & E2 & _ & _ & _ & _ & [[_ Hn2]|(Hnew & Hok & Hex & _)]).
      * exists w1, w2. now rewrite Hn2.
      * exfalso. rewrite Hw1 in Hok.
        assert (Hex' : fst (path_exists p w) = Ok true)
          by (rewrite <- Hex; unfold path_exists; cbn [fst]; now rewrite Hn1, Hd1).
        destruct Hcond as [?|[?|Hf]]; auto. rewrite Hf in Hex'. discriminate.
    + assert (Hs1 : stream_text w1 p
                    = Some (s +:+ entry_lines (new_entries_for s entries))).
      { eapply stream_text_written; [exact Hs | exact Hr1 |].
        rewrite Hn1. apply lookup_insert_eq. }
      destruct (dve_append_meta_audit_cases p _ entries w1 Hs1)
        as (w2 & E2 & _ & _ & _ & _ & [[_ Hn2]|(Hnew2 & _)]).
      * exists w1, w2. now rewrite Hn2.
      * exfalso. apply Hnew2. apply new_entries_for_again; [assumption|].
        now apply single_lines_no_LF.
Qed.

Lemma append_meta_audit_twice_witness :
  (exists w1 w2,
     Snap.append_meta_audit "C:\s" (path_join Demo.dir Demo.v1) ["[u] y"; "[t] x"] Demo.w0
     = (Ok tt, w1)
     /\ Snap.append_meta_audit "C:\s" (path_join Demo.dir Demo.v1) ["[u] y"; "[t] x"] w1
        = (Ok tt, w2)
     /\ nodes w2 !! (path_join Demo.dir Demo.v1 +:+ ":meta_audit")
        = nodes w1 !! (path_join Demo.dir Demo.v1 +:+ ":meta_audit"))
  /\ (exists w1 w2,
        Dve.append_meta_audit (path_join Demo.dir Demo.v1) ["[u] y"; "[t] x"] Demo.w0
        = (Ok tt, w1)
        /\ Dve.append_meta_audit (path_join Demo.dir Demo.v1) ["[u] y"; "[t] x"] w1
           = (Ok tt, w2)
        /\ nodes w2 !! (path_join Demo.dir Demo.v1 +:+ ":meta_audit")
           = nodes w1 !! (path_join Demo.dir Demo.v1 +:+ ":meta_audit")).
Proof.
  apply (append_meta_audit_twice "C:\s" (path_join Demo.dir Demo.v1) ("[t] x" +:+ NL)
           ["[u] y"; "[t] x"] Demo.w0).
  - vm_compute. reflexivity.
  - vm_compute. reflexivity.
  - repeat constructor.
Defined.

(** ** The entries [read_meta_audit] gives *)

Lemma contains_lstrip (c : ascii) (s : string) :
  contains c (lstrip s) = true -> contains c s = true.
Proof.
  induction s as [|d s IH]; [discriminate|]. cbn [lstrip].
  destruct (isspace d); [|auto]. intros H. cbn [contains]. rewrite (IH H).
  now destruct (Ascii.eqb c d).
Qed.

Lemma contains_rstrip (c : ascii) (s : string) :
  contains c (rstrip s) = true -> contains c s = true.
Proof.
  induction s as [|d s IH]; [discriminate|]. cbn [rstrip contains].
  destruct (rstrip s) as [|e r].
  - destruct (isspace d); [discriminate|]. cbn [contains].
    destruct (Ascii.eqb c d); [reflexivity | discriminate].
  - cbn [contains] in *. destruct (Ascii.eqb c d); [reflexivity|]. exact IH.
Qed.

Lemma contains_strip (c : ascii) (s : string) :
  contains c s = false -> contains c (strip s) = false.
Proof.
  intros H. destruct (contains c (strip s)) eqn:E; [|reflexivity].
  unfold strip in E. apply contains_lstrip, contains_rstrip in E. congruence.
Qed.

(** A line as [readlines] gives it: no line feed but, possibly, the last
    character. *)
Lemma readlines_lines (s l : string) :
  l ∈ readlines s ->
  exists body, contains LF body = false /\ (l = body \/ l = body +:+ NL).
Proof.
  revert l. induction s as [|c s IH]; intros l Hl; [inversion Hl|].
  rewrite readlines_cons in Hl. destruct (Ascii.eqb c LF) eqn:Ec.
  - apply Ascii.eqb_eq in Ec as ->. apply elem_of_cons in Hl as [->|Hl]; [|auto].
    exists "". split; [reflexivity|]. right. reflexivity.
  - assert (Hc : Ascii.eqb LF c = false) by now rewrite Ascii.eqb_sym.
    destruct (readlines s) as [|l0 ls].
    + apply elem_of_cons in Hl as [->|Hl]; [|inversion Hl].
      exists (String c ""). split; [cbn [contains]; now rewrite Hc | now left].
    + apply elem_of_cons in Hl as [->|Hl].
      * destruct (IH l0) as (body & Hb & Hl0); [left|].
        exists (String c body). split; [cbn [contains]; now rewrite Hc|].
        destruct Hl0 as [->| ->]; [now left | right; now app_simpl].
      * apply IH. now right.
Qed.

Lemma stripped_lines_clean (s e : string) :
  e ∈ stripped_lines (readlines s) -> clean_entry e.
Proof.
  unfold stripped_lines. intros He.
  apply list_elem_of_fmap in He as (l & -> & Hl).
  apply list_elem_of_filter in Hl as [Hne Hl].
  split; [apply strip_idem|]. split; [exact Hne|].
  destruct (readlines_lines s l Hl) as (body & Hb & [->| ->]).
  - now apply contains_strip.
  - rewrite strip_app_NL. now apply contains_strip.
Qed.

Lemma stream_lines_clean (w : world) (p e : string) :
  e ∈ stream_lines w p -> clean_entry e.
Proof.
  unfold stream_lines. destruct (stream_text w p) as [s|]; [|intros H; inversion H].
  apply stripped_lines_clean.
Qed.

(** What a stream holds once the entries it lacks are appended: the
    entries it had and those appended. *)
Lemma audit_entries_appended (s : string) (all : list string) :
  terminated s = true -> Forall clean_entry all ->
  (list_to_set (stripped_lines
     (readlines (s +:+ entry_lines (new_entries_for s all)))) : gset string)
  = list_to_set (stripped_lines (readlines s)) ∪ list_to_set all.
Proof.
  intros Hs Hall. rewrite Forall_forall in Hall.
  rewrite stripped_lines_appended; [|exact Hs|].
  2: { apply Forall_forall. intros e He. apply new_entries_for_elem in He as [He _].
       apply Hall, He. }
  rewrite list_to_set_app_L. apply set_eq. intros e.
  rewrite !elem_of_union, !elem_of_list_to_set.
  split; intros [H|H]; auto.
  - right. apply list_elem_of_fmap in H as (e' & -> & He').
    apply list_elem_of_filter in He' as [_ He'].
    apply new_entries_for_elem in He' as [He' _].
    destruct (Hall e' He') as (-> & _). exact He'.
  - destruct (decide (e ∈ stripped_lines (readlines s))) as [Hin|Hout]; [now left|].
    right. destruct (Hall e H) as (Hstrip & Hne & _).
    apply list_elem_of_fmap. exists e. split; [now rewrite Hstrip|].
    apply list_elem_of_filter. split; [now rewrite Hstrip|].
    apply new_entries_for_elem. rewrite Hstrip, elem_of_list_to_set. auto.
Qed.

(** ** The audit streams of a batch brought together *)

Lemma append_inj_l (s s' t : string) : s +:+ t = s' +:+ t -> s = s'.
Proof.
  revert s'. induction s as [|c s IH]; intros [|c' s'] E; app_simpl.
  - reflexivity.
  - apply (f_equal String.length) in E. cbn [String.length] in E.
    rewrite length_append in E. lia.
  - apply (f_equal String.length) in E. cbn [String.length] in E.
    rewrite length_append in E. lia.
  - injection E as -> E. f_equal. now apply IH.
Qed.

Lemma elem_of_flat_map {A B : Type} (f : A -> list B) (l : list A) (x : B) :
  x ∈ flat_map f l <-> exists y, y ∈ l /\ x ∈ f y.
Proof.
  induction l as [|a l IH]; cbn [flat_map].
  - split; [intros H; inversion H | intros (y & H & _); inversion H].
  - rewrite elem_of_app, IH. split.
    + intros [H|(y & Hy & H)]; [exists a; split; [left|exact H] | exists y; split; [now right|exact H]].
    + intros (y & Hy & H). apply elem_of_cons in Hy as [->|Hy]; [now left | right; eauto].
Qed.

Lemma audit_entries_same (w w' : world) (p : string) :
  rdeny w' = rdeny w ->
  nodes w' !! (p +:+ ":meta_audit") = nodes w !! (p +:+ ":meta_audit") ->
  audit_entries w' p = audit_entries w p.
Proof. intros Hr Hn. unfold audit_entries. now rewrite (stream_text_same w w'). Qed.

Lemma stream_lines_files_eq (w w' : world) (p : string) :
  files_eq w w' -> stream_lines w' p = stream_lines w p.
Proof. intros F. unfold stream_lines. now rewrite (stream_text_files_eq w w'). Qed.

Lemma stream_ok_same (w w' : world) (p : string) :
  rdeny w' = rdeny w -> wdeny w' = wdeny w ->
  nodes w' !! (p +:+ ":meta_audit") = nodes w !! (p +:+ ":meta_audit") ->
  stream_ok w p -> stream_ok w' p.
Proof.
  intros Hr Hw Hn [Hwr (s & Hs & Ht)]. split; [now rewrite Hw|].
  exists s. split; [|exact Ht]. rewrite <- Hs. now apply stream_text_same.
Qed.

Lemma audit_entries_lines (w : world) (p : string) :
  audit_entries w p = list_to_set (stream_lines w p).
Proof.
  unfold audit_entries, stream_lines. now destruct (stream_text w p).
Qed.

Lemma snap_collect_meta_audit_lines (BASE_DIR : string) (entries : list entry) (w : world) :
  (forall p, p ∈ map e_path entries -> is_Some (stream_text w p)) ->
  exists w',
    Snap.collect_meta_audit BASE_DIR entries w
    = (Ok (flat_map (stream_lines w) (map e_path entries)), w')
    /\ files_eq w w'.
Proof.
  revert w. induction entries as [|x entries IH]; intros w Hall.
  - exists w. split; [reflexivity | apply files_eq_refl].
  - cbn [Snap.collect_meta_audit map flat_map].
    destruct (Hall (e_path x)) as [s Hs]; [left|].
    destruct (snap_read_meta_audit_stream BASE_DIR (e_path x) s w Hs) as (w1 & E1 & F1).
    erewrite bind_ok by exact E1.
    assert (Hlines : stream_lines w (e_path x) = stripped_lines (readlines s))
      by (unfold stream_lines; now rewrite Hs).
    set (w2 := match stripped_lines (readlines s) with
               | [] => set_log (fun l => l ++ ["INFO: No :meta_audit entries found for "
                                               +:+ e_path x]) w1
               | _ => w1
               end).
    assert (F2 : files_eq w w2).
    { subst w2. destruct (stripped_lines (readlines s));
        [eapply files_eq_trans; [exact F1 | apply files_eq_log] | exact F1]. }
    destruct (IH w2) as (w3 & E3 & F3).
    { intros p Hp. rewrite (stream_text_files_eq w w2) by exact F2. apply Hall. now right. }
    assert (Hfm : flat_map (stream_lines w2) (map e_path entries)
                  = flat_map (stream_lines w) (map e_path entries))
      by (apply flat_map_ext; intros p; now apply stream_lines_files_eq).
    rewrite Hfm in E3.
    exists w3. split; [|eapply files_eq_trans; eassumption].
    erewrite bind_ok with (a := tt) (w' := w2)
      by (subst w2; destruct (stripped_lines (readlines s)); reflexivity).
    erewrite bind_ok by exact E3. now rewrite Hlines.
Qed.

Lemma snap_spread_meta_audit_union (BASE_DIR : string) (all : list string)
    (entries : list entry) :
  Forall clean_entry all ->
  forall w,
    (forall p, p ∈ map e_path entries ->
               stream_ok w p /\ audit_entries w p ⊆ list_to_set all) ->
    exists w',
      Snap.spread_meta_audit BASE_DIR entries all w = (Ok tt, w')
      /\ rdeny w' = rdeny w /\ wdeny w' = wdeny w
      /\ (forall p, p ∈ map e_path entries -> audit_entries w' p = list_to_set all)
      /\ (forall q, q ∉ map e_path entries ->
                    nodes w' !! (q +:+ ":meta_audit") = nodes w !! (q +:+ ":meta_audit")).
Proof.
  intros Hclean. induction entries as [|x entries IH]; intros w Hpre.
  - exists w. repeat split. intros p Hp. inversion Hp.
  - cbn [Snap.spread_meta_audit map].
    set (p := e_path x).
    destruct (Hpre p) as [[Hwr (s & Hs & Ht)] Hsub]; [left|].
    destruct (snap_append_meta_audit_stream BASE_DIR p s all w Hs Hwr)
      as (w1 & E1 & Hr1 & Hw1 & _ & _ & Hn1).
    assert (K1 : stream_text w1 p = Some (s +:+ entry_lines (new_entries_for s all))).
    { destruct (new_entries_for s all) as [|y new].
      - change (entry_lines []) with "". rewrite append_nil_r, <- Hs.
        apply stream_text_same; [exact Hr1 | now rewrite Hn1].
      - eapply stream_text_written; [exact Hs | exact Hr1 |].
        rewrite Hn1. apply lookup_insert_eq. }
    assert (K2 : forall q, q <> p ->
                   nodes w1 !! (q +:+ ":meta_audit") = nodes w !! (q +:+ ":meta_audit")).
    { intros q Hq. rewrite Hn1. destruct (new_entries_for s all); [reflexivity|].
      apply lookup_insert_ne. intros E. apply Hq. symmetry. now apply append_inj_l in E. }
    assert (K3 : audit_entries w1 p = list_to_set all).
    { unfold audit_entries in *. rewrite K1. rewrite Hs in Hsub.
      rewrite audit_entries_appended by assumption. now apply subseteq_union_1_L. }
    destruct (IH w1) as (w2 & E2 & Hr2 & Hw2 & Hin & Hout).
    { intros q Hq. destruct (decide (q = p)) as [->|Hne].
      - split; [|now rewrite K3]. split; [now rewrite Hw1|].
        eexists. split; [exact K1|]. now apply terminated_entry_lines.
      - destruct (Hpre q) as [Hok Hsubq]; [now right|]. split.
        + eapply stream_ok_same; [exact Hr1 | exact Hw1 | now apply K2 | exact Hok].
        + rewrite (audit_entries_same w w1) by (try apply K2; assumption). exact Hsubq. }
    exists w2. erewrite bind_ok by exact E1. split; [exact E2|].
    split; [congruence|]. split; [congruence|]. split.
    + intros q Hq. apply elem_of_cons in Hq as [->|Hq]; [|now apply Hin].
      destruct (decide (p ∈ map e_path entries)) as [Hp|Hp]; [now apply Hin|].
      rewrite (audit_entries_same w1 w2) by (try apply Hout; assumption). exact K3.
    + intros q Hq. apply not_elem_of_cons in Hq as [Hq1 Hq2].
      rewrite Hout by exact Hq2. now apply K2.
Qed.

(** X4.  When the audit stream of every file of the batch is in good
    order, the synchronisation of [load_backups_from_name] returns, leaves in
    the stream of every file of the batch the entries of all of them, and
    leaves the stream of any other file as it was. *)
Theorem snap_sync_meta_audit_union (BASE_DIR : string) (entries : list entry) (w : world) :
  Forall (stream_ok w) (map e_path entries) ->
  exists w',
    Snap.sync_meta_audit BASE_DIR entries w = (Ok tt, w')
    /\ (forall p, p ∈ map e_path entries ->
                  audit_entries w' p = all_audit_entries w (map e_path entries))
    /\ (forall q, q ∉ map e_path entries ->
                  nodes w' !! (q +:+ ":meta_audit") = nodes w !! (q +:+ ":meta_audit")).
Proof.
  intros Hok. rewrite Forall_forall in Hok. unfold Snap.sync_meta_audit.
  destruct (snap_collect_meta_audit_lines BASE_DIR entries w) as (w1 & E1 & F1).
  { intros p Hp. destruct (Hok p Hp) as [_ (s & -> & _)]. eauto. }
  erewrite bind_ok by exact E1.
  pose proof F1 as (Hn1 & Hr1 & Hw1 & _).
  destruct (snap_spread_meta_audit_union BASE_DIR
              (flat_map (stream_lines w) (map e_path entries)) entries) with (w := w1)
    as (w2 & E2 & Hr2 & Hw2 & Hin & Hout).
  - apply Forall_forall. intros e He. apply elem_of_flat_map in He as (p & _ & He).
    eapply stream_lines_clean. exact He.
  - intros p Hp. split.
    + eapply stream_ok_same; [exact Hr1 | exact Hw1 | now rewrite Hn1 | now apply Hok].
    + rewrite (audit_entries_same w w1) by (try rewrite Hn1; congruence).
      rewrite audit_entries_lines. intros e He.
      rewrite elem_of_list_to_set in *. apply elem_of_flat_map. eauto.
  - exists w2. split; [exact E2|]. split; [exact Hin|].
    intros q Hq. rewrite Hout by exact Hq. now rewrite Hn1.
Qed.

Lemma snap_sync_meta_audit_union_witness :
  exists w',
    Snap.sync_meta_audit "C:\s"
      [Entry 20 "report" Demo.v2 (path_join Demo.dir Demo.v2);
       Entry 10 "report" Demo.v1 (path_join Demo.dir Demo.v1)] Demo.w0 = (Ok tt, w')
    /\ (forall p, p ∈ [path_join Demo.dir Demo.v2; path_join Demo.dir Demo.v1] ->
          audit_entries w' p
          = all_audit_entries Demo.w0 [path_join Demo.dir Demo.v2; path_join Demo.dir Demo.v1])
    /\ (forall q, q ∉ [path_join Demo.dir Demo.v2; path_join Demo.dir Demo.v1] ->
          nodes w' !! (q +:+ ":meta_audit") = nodes Demo.w0 !! (q +:+ ":meta_audit")).
Proof.
  apply (snap_sync_meta_audit_union "C:\s"
           [Entry 20 "report" Demo.v2 (path_join Demo.dir Demo.v2);
            Entry 10 "report" Demo.v1 (path_join Demo.dir Demo.v1)] Demo.w0).
  repeat constructor.
  - vm_compute. discriminate.
  - exists "". split; vm_compute; reflexivity.
  - vm_compute. discriminate.
  - exists ("[t] x" +:+ NL). split; vm_compute; reflexivity.
Defined.

(** ** The same for [sync_meta_audit_streams] *)

Lemma file_there_kept (w w' : world) (p q : string) (n : node) :
  dirs w' = dirs w -> (nodes w' = nodes w \/ nodes w' = <[q := n]> (nodes w)) ->
  file_there w p -> file_there w' p.
Proof.
  unfold file_there, path_exists. cbn [fst]. intros Hd Hn [= H]. f_equal.
  apply orb_true_iff in H. apply orb_true_iff. rewrite Hd.
  destruct H as [H|H]; [left | now right].
  apply bool_decide_eq_true in H. apply bool_decide_eq_true.
  destruct Hn as [-> | ->]; [exact H|]. apply lookup_insert_is_Some'. now right.
Qed.

Lemma dve_append_meta_audit_written (p s : string) (entries : list string) (w : world) :
  stream_text w p = Some s -> p +:+ ":meta_audit" ∉ wdeny w -> file_there w p ->
  exists w',
    Dve.append_meta_audit p entries w = (Ok tt, w')
    /\ rdeny w' = rdeny w /\ wdeny w' = wdeny w /\ dirs w' = dirs w
    /\ nodes w' = match new_entries_for s entries with
                  | [] => nodes w
                  | new => <[p +:+ ":meta_audit" := Text (s +:+ entry_lines new)]> (nodes w)
                  end.
Proof.
  intros Hs Hw Hex.
  destruct (dve_append_meta_audit_cases p s entries w Hs)
    as (w' & E & Hr & Hw' & Hd & _ & [[Hcond Hn]|(Hnew & _ & _ & Hn)]).
  - exists w'. repeat split; try assumption.
    destruct Hcond as [->|[?|Hf]]; [exact Hn | contradiction |].
    unfold file_there in Hex. rewrite Hf in Hex. discriminate.
  - exists w'. repeat split; try assumption.
    destruct (new_entries_for s entries); [now elim Hnew | exact Hn].
Qed.

Lemma dve_read_all_lines (paths : list string) (acc : gset string) (w : world) :
  (forall p, p ∈ paths -> is_Some (stream_text w p)) ->
  exists w',
    Dve.read_all paths acc w
    = (Ok (acc ∪ list_to_set (flat_map (stream_lines w) paths)), w')
    /\ files_eq w w'.
Proof.
  revert acc w. induction paths as [|p paths IH]; intros acc w Hall.
  - exists w. split; [|apply files_eq_refl]. cbn [Dve.read_all flat_map list_to_set].
    now rewrite union_empty_r_L.
  - cbn [Dve.read_all flat_map].
    destruct (Hall p) as [s Hs]; [left|].
    destruct (dve_read_meta_audit_stream p s w Hs) as (w1 & E1 & F1).
    erewrite bind_ok by exact E1.
    destruct (IH (acc ∪ list_to_set (stripped_lines (readlines s))) w1) as (w2 & E2 & F2).
    { intros q Hq. rewrite (stream_text_files_eq w w1) by exact F1. apply Hall. now right. }
    exists w2. split; [|eapply files_eq_trans; eassumption].
    rewrite E2. f_equal. f_equal.
    assert (Hfm : flat_map (stream_lines w1) paths = flat_map (stream_lines w) paths)
      by (apply flat_map_ext; intros q; now apply stream_lines_files_eq).
    rewrite Hfm, list_to_set_app_L. unfold stream_lines at 2. rewrite Hs.
    now rewrite union_assoc_L.
Qed.

Lemma dve_append_all_union (all : list string) (paths : list string) :
  Forall clean_entry all ->
  forall w,
    (forall p, p ∈ paths ->
               stream_ok w p /\ file_there w p /\ audit_entries w p ⊆ list_to_set all) ->
    exists w',
      Dve.append_all paths all w = (Ok tt, w')
      /\ rdeny w' = rdeny w /\ wdeny w' = wdeny w
      /\ (forall p, p ∈ paths -> audit_entries w' p = list_to_set all)
      /\ (forall q, q ∉ paths ->
                    nodes w' !! (q +:+ ":meta_audit") = nodes w !! (q +:+ ":meta_audit")).
Proof.
  intros Hclean. induction paths as [|p paths IH]; intros w Hpre.
  - exists w. repeat split. intros p Hp. inversion Hp.
  - cbn [Dve.append_all].
    destruct (Hpre p) as [[Hwr (s & Hs & Ht)] [Hex Hsub]]; [left|].
    destruct (dve_append_meta_audit_written p s all w Hs Hwr Hex)
      as (w1 & E1 & Hr1 & Hw1 & Hd1 & Hn1).
    assert (K1 : stream_text w1 p = Some (s +:+ entry_lines (new_entries_for s all))).
    { destruct (new_entries_for s all) as [|y new].
      - change (entry_lines []) with "". rewrite append_nil_r, <- Hs.
        apply stream_text_same; [exact Hr1 | now rewrite Hn1].
      - eapply stream_text_written; [exact Hs | exact Hr1 |].
        rewrite Hn1. apply lookup_insert_eq. }
    assert (K2 : forall q, q <> p ->
                   nodes w1 !! (q +:+ ":meta_audit") = nodes w !! (q +:+ ":meta_audit")).
    { intros q Hq. rewrite Hn1. destruct (new_entries_for s all); [reflexivity|].
      apply lookup_insert_ne. intros E. apply Hq. symmetry. now apply append_inj_l in E. }
    assert (K3 : audit_entries w1 p = list_to_set all).
    { unfold audit_entries in *. rewrite K1. rewrite Hs in Hsub.
      rewrite audit_entries_appended by assumption. now apply subseteq_union_1_L. }
    assert (K4 : forall q, file_there w q -> file_there w1 q).
    { intros q. destruct (new_entries_for s all) as [|y new].
      - apply (file_there_kept w w1 q "" (Text "")); [exact Hd1 | left; exact Hn1].
      - eapply file_there_kept; [exact Hd1 | right; exact Hn1]. }
    destruct (IH w1) as (w2 & E2 & Hr2 & Hw2 & Hin & Hout).
    { intros q Hq. destruct (decide (q = p)) as [->|Hne].
      - split; [|split; [now apply K4 | now rewrite K3]]. split; [now rewrite Hw1|].
        eexists. split; [exact K1|]. now apply terminated_entry_lines.
      - destruct (Hpre q) as [Hok [Hexq Hsubq]]; [now right|]. split; [|split].
        + eapply stream_ok_same; [exact Hr1 | exact Hw1 | now apply K2 | exact Hok].
        + now apply K4.
        + rewrite (audit_entries_same w w1) by (try apply K2; assumption). exact Hsubq. }
    exists w2. erewrite bind_ok by exact E1. split; [exact E2|].
    split; [congruence|]. split; [congruence|]. split.
    + intros q Hq. apply elem_of_cons in Hq as [->|Hq]; [|now apply Hin].
      destruct (decide (p ∈ paths)) as [Hp|Hp]; [now apply Hin|].
      rewrite (audit_entries_same w1 w2) by (try apply Hout; assumption). exact K3.
    + intros q Hq. apply not_elem_of_cons in Hq as [Hq1 Hq2].
      rewrite Hout by exact Hq2. now apply K2.
Qed.

Lemma sorted_elements_set (X : gset string) : list_to_set (Dve.sorted_elements X) = X.
Proof.
  unfold Dve.sorted_elements. apply set_eq. intros e.
  rewrite elem_of_list_to_set, merge_sort_Permutation. apply elem_of_elements.
Qed.

(** X5.  When every file of the set is there and its audit stream is in
    good order, [sync_meta_audit_streams] returns, leaves in the stream of
    every file of the set the entries of all of them, and leaves the stream
    of any other file as it was. *)
Theorem dve_sync_meta_audit_streams_union (entries : list entry) (w : world) :
  Forall (fun p => stream_ok w p /\ file_there w p) (map e_path entries) ->
  exists w',
    Dve.sync_meta_audit_streams entries w = (Ok tt, w')
    /\ (forall p, p ∈ map e_path entries ->
                  audit_entries w' p = all_audit_entries w (map e_path entries))
    /\ (forall q, q ∉ map e_path entries ->
                  nodes w' !! (q +:+ ":meta_audit") = nodes w !! (q +:+ ":meta_audit")).
Proof.
  intros Hok. rewrite Forall_forall in Hok. unfold Dve.sync_meta_audit_streams.
  destruct entries as [|x entries].
  { exists w. repeat split. intros p Hp. inversion Hp. }
  set (paths := map e_path (x :: entries)) in *.
  destruct (dve_read_all_lines paths ∅ w) as (w1 & E1 & F1).
  { intros p Hp. destruct (Hok p Hp) as [[_ (s & -> & _)] _]. eauto. }
  erewrite bind_ok by exact E1. rewrite union_empty_l_L.
  fold (all_audit_entries w paths).
  pose proof F1 as (Hn1 & Hr1 & Hw1 & Hd1 & _).
  assert (Hsub : forall p, p ∈ paths -> audit_entries w p ⊆ all_audit_entries w paths).
  { intros p Hp. rewrite audit_entries_lines. intros e He. unfold all_audit_entries.
    rewrite elem_of_list_to_set in *. apply elem_of_flat_map. eauto. }
  destruct (decide (all_audit_entries w paths = ∅)) as [Hempty|Hne].
  - exists w1. split; [reflexivity|]. split; [|intros; now rewrite Hn1].
    intros p Hp. rewrite (audit_entries_same w w1) by (try rewrite Hn1; congruence).
    rewrite Hempty. specialize (Hsub p Hp). rewrite Hempty in Hsub.
    apply set_eq. intros e. split; [apply Hsub | intros H; now apply elem_of_empty in H].
  - destruct (dve_append_all_union (Dve.sorted_elements (all_audit_entries w paths)) paths)
      with (w := w1) as (w2 & E2 & Hr2 & Hw2 & Hin & Hout).
    + apply Forall_forall. intros e He.
      apply (elem_of_list_to_set (C := gset string)) in He.
      rewrite sorted_elements_set in He. unfold all_audit_entries in He.
      apply elem_of_list_to_set, elem_of_flat_map in He as (p & _ & He).
      eapply stream_lines_clean. exact He.
    + intros p Hp. destruct (Hok p Hp) as [Hs Hex]. split; [|split].
      * eapply stream_ok_same; [exact Hr1 | exact Hw1 | now rewrite Hn1 | exact Hs].
      * eapply (file_there_kept w w1 p "" (Text "")); [exact Hd1 | now left | exact Hex].
      * rewrite sorted_elements_set.
        rewrite (audit_entries_same w w1) by (try rewrite Hn1; congruence). now apply Hsub.
    + exists w2. split; [exact E2|]. rewrite sorted_elements_set in Hin.
      split; [exact Hin|]. intros q Hq. rewrite Hout by exact Hq. now rewrite Hn1.
Qed.

Lemma dve_sync_meta_audit_streams_union_witness :
  exists w',
    Dve.sync_meta_audit_streams
      [Entry 20 "report.txt" Demo.v2 (path_join Demo.dir Demo.v2);
       Entry 10 "report.txt" Demo.v1 (path_join Demo.dir Demo.v1)] Demo.w0 = (Ok tt, w')
    /\ (forall p, p ∈ [path_join Demo.dir Demo.v2; path_join Demo.dir Demo.v1] ->
          audit_entries w' p
          = all_audit_entries Demo.w0 [path_join Demo.dir Demo.v2; path_join Demo.dir Demo.v1])
    /\ (forall q, q ∉ [path_join Demo.dir Demo.v2; path_join Demo.dir Demo.v1] ->
          nodes w' !! (q +:+ ":meta_audit") = nodes Demo.w0 !! (q +:+ ":meta_audit")).
Proof.
  apply (dve_sync_meta_audit_streams_union
           [Entry 20 "report.txt" Demo.v2 (path_join Demo.dir Demo.v2);
            Entry 10 "report.txt" Demo.v1 (path_join Demo.dir Demo.v1)] Demo.w0).
  repeat constructor.
  - vm_compute. discriminate.
  - exists "". split; vm_compute; reflexivity.
  - vm_compute. discriminate.
  - exists ("[t] x" +:+ NL). split; vm_compute; reflexivity.
Defined.

(** ** What a load does to the files, and what it shows when it cannot list *)

(** X6.  [load_backups_from_name] returns whatever it is given, and
    every file whose name ends in [.bak] holds afterwards what it held
    before: what the load writes goes to audit streams and temporary
    files. *)
Theorem load_backups_keeps_backups (BASE_DIR batch d : string) (w : world) :
  exists o w',
    Snap.load_backups_from_name BASE_DIR batch d w = (Ok o, w')
    /\ forall q, endswith q ".bak" = true -> nodes w' !! q = nodes w !! q.
Proof.
  destruct (snap_load_backups_shape BASE_DIR batch d w) as (o & w' & E & F & _).
  exists o, w'. split; [exact E|]. apply F.
Qed.

(** X7.  [load_versions] returns whatever it is given and changes no file:
    only the log grows. *)
Theorem load_versions_reads_only (filename : option string) (d : string) (w : world) :
  exists o w', Dve.load_versions filename d w = (Ok o, w') /\ files_eq w w'.
Proof.
  destruct (dve_load_versions_shape filename d w) as (o & w' & E & F & _). eauto.
Qed.

Lemma snap_load_untouched (BASE_DIR batch d : string) (w : world) :
  batch = "" \/ fst (path_exists d w) = Ok false \/ (exists e, fst (listdir d w) = Raise e) ->
  exists w', Snap.load_backups_from_name BASE_DIR batch d w = (Ok Untouched, w').
Proof.
  intros H. unfold Snap.load_backups_from_name.
  destruct (String.eqb_spec batch "") as [->|Hb]; [eexists; reflexivity|].
  destruct H as [H|[H|(e & H)]]; [contradiction| |].
  - apply path_exists_fst in H. erewrite bind_ok by exact H. eexists. reflexivity.
  - unfold mbind at 1, M_bind at 1. unfold path_exists at 1.
    destruct (_ || _); cbn [negb]; [|eexists; reflexivity].
    assert (He : listdir d w = (Raise e, w)).
    { unfold listdir in *. destruct (decide _); [cbn in H; congruence|].
      destruct (dirs w !! d); cbn in H; congruence. }
    erewrite bind_ok with (a := None).
    2: { erewrite try_raise by (apply bind_raise; exact He). reflexivity. }
    eexists. reflexivity.
Qed.

(** X8.  With no batch file, a directory that is not there or a directory
    that cannot be listed, [load_backups_from_name] returns before it clears
    the tree: the rows shown before stay. *)
Theorem load_backups_leaves_tree (BASE_DIR batch d : string) (w : world) :
  batch = "" \/ fst (path_exists d w) = Ok false \/ (exists e, fst (listdir d w) = Raise e) ->
  fst (Snap.load_backups_from_name BASE_DIR batch d w) = Ok Untouched.
Proof.
  intros H. destruct (snap_load_untouched BASE_DIR batch d w H) as (w' & ->). reflexivity.
Qed.

Lemma load_backups_leaves_tree_witness :
  fst (Snap.load_backups_from_name "C:\s" "C:\x\report.txt" "C:\nowhere" Demo.w0)
  = Ok Untouched.
Proof.
  apply load_backups_leaves_tree. right. left. vm_compute. reflexivity.
Defined.

Lemma dve_load_cleared (filename d : string) (w : world) :
  d = "" \/ dirs w !! d = None \/ d ∈ rdeny w ->
  exists w', Dve.load_versions (Some filename) d w = (Ok (Shown []), w').
Proof.
  intros H. unfold Dve.load_versions. rewrite bind_log.
  destruct (String.eqb_spec d "") as [->|Hd].
  { eexists. reflexivity. }
  destruct H as [H|[H|H]]; [contradiction| |].
  - erewrite bind_ok with (a := false).
    2: { unfold path_isdir. cbn [dirs set_log]. rewrite H.
         rewrite bool_decide_false by (intros [? ?]; discriminate). reflexivity. }
    cbn [orb negb]. eexists. reflexivity.
  - unfold mbind at 1, M_bind at 1. unfold path_isdir at 1.
    destruct (bool_decide _); cbn [orb negb]; [|eexists; reflexivity].
    erewrite bind_ok with (a := None).
    2: { erewrite try_raise with (e := PermissionError).
         2: { apply bind_raise. unfold listdir. cbn [rdeny set_log].
              rewrite decide_True by exact H. reflexivity. }
         reflexivity. }
    eexists. reflexivity.
Qed.

(** X9.  With no directory, a directory that is not one or a directory
    that cannot be listed, [load_versions] clears the tree and shows
    nothing. *)
Theorem load_versions_clears_tree (filename d : string) (w : world) :
  d = "" \/ dirs w !! d = None \/ d ∈ rdeny w ->
  fst (Dve.load_versions (Some filename) d w) = Ok (Shown []).
Proof.
  intros H. destruct (dve_load_cleared filename d w H) as (w' & ->). reflexivity.
Qed.

Lemma load_versions_clears_tree_witness :
  fst (Dve.load_versions (Some "report.txt") "C:\nowhere" Demo.w0) = Ok (Shown []).
Proof.
  apply load_versions_clears_tree. right. left. vm_compute. reflexivity.
Defined.

(** ** The history of a meta tag *)

Lemma stream_text_read (w : world) (p : string) :
  match stream_text w p with
  | Some s =>
      (nodes w !! (p +:+ ":meta_audit") = Some (Text s)
       /\ read_text (p +:+ ":meta_audit") w = (Ok s, w))
      \/ (nodes w !! (p +:+ ":meta_audit") = None /\ s = ""
          /\ read_text (p +:+ ":meta_audit") w = (Raise FileNotFoundError, w))
  | None => exists e, e <> FileNotFoundError
                      /\ read_text (p +:+ ":meta_audit") w = (Raise e, w)
  end.
Proof.
  unfold stream_text, read_text.
  destruct (decide (p +:+ ":meta_audit" ∈ rdeny w)).
  - exists PermissionError. split; [discriminate | reflexivity].
  - destruct (nodes w !! (p +:+ ":meta_audit")) as [[s|]|]; auto.
    exists UnicodeDecodeError. split; [discriminate | reflexivity].
Qed.

Lemma snap_history_result (p : string) (w : world) :
  SnapHistory.get_log_history_for_file p w = (Ok (rev (stream_lines w p)), w).
Proof.
  unfold SnapHistory.get_log_history_for_file, stream_lines.
  pose proof (stream_text_read w p) as H.
  destruct (stream_text w p) as [s|].
  - destruct H as [[_ H]|(_ & -> & H)].
    + apply try_ok. now erewrite bind_ok by exact H.
    + erewrite try_raise by (apply bind_raise; exact H). reflexivity.
  - destruct H as (e & _ & H).
    erewrite try_raise by (apply bind_raise; exact H). reflexivity.
Qed.

Lemma unique_loop_first_places (entries : list string) (seen : gset string)
    (unique_history : list string) :
  DveHistory.unique_loop entries seen unique_history
  = unique_history ++ first_places entries seen.
Proof.
  revert seen unique_history. induction entries as [|e entries IH]; intros seen acc.
  - cbn. now rewrite app_nil_r.
  - cbn [DveHistory.unique_loop first_places]. destruct (decide (e ∈ seen)); [apply IH|].
    rewrite IH, <- app_assoc. reflexivity.
Qed.

Lemma first_places_app (l1 l2 : list string) (seen : gset string) :
  first_places (l1 ++ l2) seen
  = first_places l1 seen ++ first_places l2 (list_to_set l1 ∪ seen).
Proof.
  revert seen. induction l1 as [|e l1 IH]; intros seen.
  - cbn [app first_places list_to_set]. now rewrite union_empty_l_L.
  - cbn [app first_places list_to_set]. destruct (decide (e ∈ seen)) as [Hin|Hout].
    + rewrite IH. f_equal. f_equal. apply set_eq. intros y.
      rewrite !elem_of_union, elem_of_singleton. intuition congruence.
    + rewrite IH. cbn [app]. f_equal. f_equal. f_equal. apply set_eq. intros y.
      rewrite !elem_of_union, elem_of_singleton. tauto.
Qed.

Lemma elem_of_rev {A : Type} (l : list A) (x : A) : x ∈ rev l <-> x ∈ l.
Proof. rewrite !list_elem_of_In. symmetry. apply in_rev. Qed.

(** The loop over the entries in reverse, reversed: each entry once, at the
    last place it has. *)
Lemma unique_history_last_places (raw : list string) :
  rev (DveHistory.unique_loop (rev raw) ∅ []) = remove_dups raw.
Proof.
  rewrite unique_loop_first_places. cbn [app].
  induction raw as [|x raw IH]; [reflexivity|].
  cbn [rev remove_dups]. rewrite first_places_app, rev_app_distr, IH.
  cbn [first_places]. rewrite union_empty_r_L.
  repeat case_decide; cbn; try reflexivity; exfalso;
    rewrite elem_of_list_to_set, elem_of_rev in *; contradiction.
Qed.

Lemma dve_history_result (p : string) (w : world) :
  exists w',
    DveHistory._get_log_history_for_file p w = (Ok (remove_dups (stream_lines w p)), w')
    /\ files_eq w w'.
Proof.
  unfold DveHistory._get_log_history_for_file, stream_lines, stream_text.
  unfold try_except. unfold mbind at 1, M_bind at 1. unfold path_exists at 1.
  destruct (nodes w !! (p +:+ ":meta_audit")) as [n|] eqn:En.
  - rewrite (bool_decide_true (is_Some (Some n))) by eauto. cbn [orb negb].
    unfold mbind at 1, M_bind at 1. unfold read_text. rewrite En.
    destruct (decide (p +:+ ":meta_audit" ∈ rdeny w)).
    { eexists. split; [reflexivity | apply files_eq_log]. }
    destruct n as [s|].
    2: { eexists. split; [reflexivity | apply files_eq_log]. }
    rewrite unique_history_last_places.
    destruct (negb _); eexists; (split; [reflexivity|]);
      [apply files_eq_log | apply files_eq_refl].
  - rewrite (bool_decide_false (is_Some None)) by (intros [? ?]; discriminate).
    cbn [orb].
    assert (Hnil : remove_dups
                     (match (if decide (p +:+ ":meta_audit" ∈ rdeny w) then None else Some "")
                      with Some s => stripped_lines (readlines s) | None => [] end) = [])
      by (destruct (decide _); reflexivity).
    rewrite Hnil.
    destruct (bool_decide (is_Some (dirs w !! (p +:+ ":meta_audit")))); cbn [negb].
    + unfold mbind at 1, M_bind at 1. unfold read_text. rewrite En.
      destruct (decide (p +:+ ":meta_audit" ∈ rdeny w));
        eexists; (split; [reflexivity|]); [apply files_eq_log | apply files_eq_refl].
    + unfold mbind at 1, M_bind at 1. unfold path_exists at 1.
      destruct (negb _); eexists; (split; [reflexivity|]);
        [apply files_eq_log | apply files_eq_refl].
Qed.

(** X10.  [get_log_history_for_file] never raises and changes nothing: it
    returns the entries of the audit stream, the last one first, and no
    entry when the stream cannot be read. *)
Theorem snap_history_newest_first (p : string) (w : world) :
  SnapHistory.get_log_history_for_file p w = (Ok (rev (stream_lines w p)), w).
Proof. apply snap_history_result. Qed.

(** X11.  [_get_log_history_for_file] never raises and changes no file: it
    returns the entries of the audit stream in the order of the stream, each
    once, at the last place it has there, and no entry when the stream cannot
    be read. *)
Theorem dve_history_last_places (p : string) (w : world) :
  exists w',
    DveHistory._get_log_history_for_file p w = (Ok (remove_dups (stream_lines w p)), w')
    /\ files_eq w w'.
Proof. apply dve_history_result. Qed.

(** ** The history once a meta tag is saved *)

Lemma strip_head (c : ascii) (s : string) : isspace c = false -> strip (String c s) <> "".
Proof.
  intros Hc. unfold strip. cbn [rstrip].
  destruct (rstrip s); rewrite ?Hc; cbn [lstrip]; rewrite Hc; discriminate.
Qed.

(** What the audit stream holds once [save_meta] has run, when both
    streams can be written. *)
Lemma save_meta_stream (p text ts s : string) (w : world) :
  p +:+ ":source" ∉ wdeny w -> p +:+ ":meta_audit" ∉ wdeny w ->
  stream_text w p = Some s ->
  stream_text (snd (save_meta p text ts w)) p
  = Some (s +:+ entry_lines ["[" +:+ ts +:+ "] " +:+ strip text]).
Proof.
  intros Hsrc Haud Hs.
  unfold save_meta, write_text, append_text, write_bytes, append_bytes. munfold.
  rewrite decide_False by exact Hsrc. cbn [wdeny set_nodes nodes].
  rewrite decide_False by exact Haud. cbn [snd].
  eapply stream_text_written; [exact Hs | reflexivity |].
  cbn [nodes set_nodes]. rewrite lookup_insert_eq.
  rewrite lookup_insert_ne by (intros E; symmetry in E; revert E; apply stream_names_differ).
  rewrite (stream_after_append w p s) by exact Hs.
  rewrite entry_lines_cons. change (entry_lines []) with "".
  rewrite !append_assoc, ?append_nil_r. reflexivity.
Qed.

Lemma stream_lines_saved (p text ts s : string) (w : world) :
  p +:+ ":source" ∉ wdeny w -> p +:+ ":meta_audit" ∉ wdeny w ->
  stream_text w p = Some s -> terminated s = true ->
  contains LF ts = false -> contains LF (strip text) = false ->
  stream_lines (snd (save_meta p text ts w)) p
  = stream_lines w p ++ [strip ("[" +:+ ts +:+ "] " +:+ strip text)].
Proof.
  intros Hsrc Haud Hs Ht Hts Htext. unfold stream_lines.
  rewrite (save_meta_stream p text ts s w Hsrc Haud Hs), Hs.
  rewrite stripped_lines_appended; [|exact Ht|].
  2: { repeat constructor. app_simpl. cbn [contains Ascii.eqb].
       change (Ascii.eqb LF "[") with false. cbv iota.
       rewrite contains_app, Hts. cbn [orb contains]. exact Htext. }
  rewrite filter_cons, decide_True by (app_simpl; apply strip_head; reflexivity).
  reflexivity.
Qed.

Lemma last_remove_dups_snoc (l : list string) (e : string) :
  last (remove_dups (l ++ [e])) = Some e.
Proof.
  induction l as [|x l IH]; [reflexivity|].
  cbn [app remove_dups]. case_decide; [exact IH|].
  destruct (remove_dups (l ++ [e])); [discriminate IH | exact IH].
Qed.

(** X12.  Once [save_meta] has run on streams that can be written, with an
    audit stream that ended a line and a time stamp and a stripped text of
    one line each, with no line feed and no carriage return, the history of
    [SnapVersion+Plus] starts with the new entry and the history of the
    document explorer ends with it. *)
Theorem history_after_save_meta (p text ts s : string) (w : world) :
  p +:+ ":source" ∉ wdeny w -> p +:+ ":meta_audit" ∉ wdeny w ->
  stream_text w p = Some s -> terminated s = true ->
  single_line ts = true -> single_line (strip text) = true ->
  let w' := snd (save_meta p text ts w) in
  let entry := strip ("[" +:+ ts +:+ "] " +:+ strip text) in
  fst (SnapHistory.get_log_history_for_file p w') = Ok (entry :: rev (stream_lines w p))
  /\ fst (DveHistory._get_log_history_for_file p w')
     = Ok (remove_dups (stream_lines w p ++ [entry]))
  /\ last (remove_dups (stream_lines w p ++ [entry])) = Some entry.
Proof.
  intros Hsrc Haud Hs Ht Hts Htext. cbv zeta.
  apply single_line_no_LF in Hts, Htext.
  pose proof (stream_lines_saved p text ts s w Hsrc Haud Hs Ht Hts Htext) as Hl.
  split; [|split].
  - rewrite snap_history_result, Hl, rev_app_distr. reflexivity.
  - destruct (dve_history_result p (snd (save_meta p text ts w))) as (w2 & -> & _).
    now rewrite Hl.
  - apply last_remove_dups_snoc.
Qed.

Lemma history_after_save_meta_witness :
  fst (SnapHistory.get_log_history_for_file (path_join Demo.dir Demo.v1)
         (snd (save_meta (path_join Demo.dir Demo.v1) " final " "2024-02-01 10:00:00" Demo.w0)))
  = Ok ["[2024-02-01 10:00:00] final"; "[t] x"].
Proof.
  apply (history_after_save_meta (path_join Demo.dir Demo.v1) " final "
           "2024-02-01 10:00:00" ("[t] x" +:+ NL) Demo.w0).
  - vm_compute. discriminate.
  - vm_compute. discriminate.
  - vm_compute. reflexivity.
  - vm_compute. reflexivity.
  - vm_compute. reflexivity.
  - vm_compute. reflexivity.
Defined.

(** ** Refreshing the meta tags *)

Lemma with_meta_same (r : row) : with_meta r (row_meta r) = r.
Proof. now destruct r. Qed.

Lemma source_tag_files_eq (w w' : world) (p : string) :
  files_eq w w' -> source_tag w' p = source_tag w p.
Proof. intros F. unfold source_tag. now rewrite (files_eq_channel w w'). Qed.

Lemma snap_read_ads_metadata_tag (p : string) (w : world) :
  exists w', Snap.read_ads_metadata p w = (Ok (source_tag w p), w') /\ files_eq w w'.
Proof.
  destruct (snap_read_ads_metadata_reads_only p w) as (a & w' & E & F).
  destruct (read_ads_metadata_result p w) as [H _]. cbv zeta in H.
  rewrite E in H. injection H as ->. eauto.
Qed.

Lemma dve_read_ads_metadata_tag (p : string) (w : world) :
  exists w', Dve.read_ads_metadata p w = (Ok (source_tag w p), w') /\ files_eq w w'.
Proof.
  destruct (dve_read_ads_metadata_reads_only p w) as (a & w' & E & F).
  destruct (read_ads_metadata_result p w) as [_ H]. cbv zeta in H.
  rewrite E in H. injection H as ->. eauto.
Qed.

Lemma snap_refresh_loop_result (rows : list row) (w : world) :
  exists w',
    SnapWindow.refresh_loop rows w
    = ((map (fun r => with_meta r (source_tag w (row_path r))) rows, None), w')
    /\ files_eq w w'.
Proof.
  revert w. induction rows as [|r rows IH]; intros w.
  - exists w. split; [reflexivity | apply files_eq_refl].
  - cbn [SnapWindow.refresh_loop map].
    destruct (snap_read_ads_metadata_tag (row_path r) w) as (w1 & -> & F1).
    destruct (IH w1) as (w2 & -> & F2).
    exists w2. split; [|eapply files_eq_trans; eassumption].
    f_equal. f_equal. f_equal. apply map_ext. intros r'.
    now rewrite (source_tag_files_eq w w1).
Qed.

Lemma dve_refresh_loop_result (rows : list row) (changed : bool) (w : world) :
  exists changed' w',
    DveWindow.refresh_loop rows changed w
    = ((map (fun r => with_meta r (source_tag w (row_path r))) rows, changed', None), w')
    /\ files_eq w w'.
Proof.
  revert changed w. induction rows as [|r rows IH]; intros changed w.
  - exists changed, w. split; [reflexivity | apply files_eq_refl].
  - cbn [DveWindow.refresh_loop map].
    destruct (dve_read_ads_metadata_tag (row_path r) w) as (w1 & -> & F1).
    assert (Hmap : map (fun r => with_meta r (source_tag w1 (row_path r))) rows
                   = map (fun r => with_meta r (source_tag w (row_path r))) rows)
      by (apply map_ext; intros r'; now rewrite (source_tag_files_eq w w1)).
    destruct (String.eqb_spec (row_meta r) (source_tag w (row_path r))) as [E|_];
      cbn [negb].
    + destruct (IH changed w1) as (c' & w2 & -> & F2).
      exists c', w2. split; [|eapply files_eq_trans; eassumption].
      rewrite Hmap, <- E, with_meta_same. reflexivity.
    + destruct (IH true w1) as (c' & w2 & -> & F2).
      exists c', w2. split; [|eapply files_eq_trans; eassumption].
      now rewrite Hmap.
Qed.

(** X13.  [refresh_meta_tags], in both windows, never raises and changes no
    file; it leaves in every row the meta tag its file has now, the empty
    text when the tag cannot be read, and the other columns as they were. *)
Theorem refresh_meta_tags_shows_tags (rows : list row) (w : world) :
  (exists w',
     SnapWindow.refresh_meta_tags rows w
     = (Ok (map (fun r => with_meta r (source_tag w (row_path r))) rows), w')
     /\ files_eq w w')
  /\ (exists w',
        DveWindow.refresh_meta_tags rows w
        = (Ok (map (fun r => with_meta r (source_tag w (row_path r))) rows), w')
        /\ files_eq w w').
Proof.
  split.
  - unfold SnapWindow.refresh_meta_tags.
    destruct (snap_refresh_loop_result rows w) as (w1 & -> & F1).
    eexists. split; [reflexivity|].
    eapply files_eq_trans; [exact F1 | apply files_eq_log].
  - unfold DveWindow.refresh_meta_tags.
    set (w0 := snd (log_action "INFO: Refreshing meta tags..." w)).
    assert (F0 : files_eq w w0) by apply files_eq_log.
    destruct (dve_refresh_loop_result rows false w0) as (c & w1 & -> & F1).
    assert (Hmap : map (fun r => with_meta r (source_tag w0 (row_path r))) rows
                   = map (fun r => with_meta r (source_tag w (row_path r))) rows)
      by (apply map_ext; intros r'; now rewrite (source_tag_files_eq w w0)).
    rewrite Hmap.
    destruct c; eexists; (split; [reflexivity|]);
      (eapply files_eq_trans; [exact F0|]);
      (eapply files_eq_trans; [exact F1 | apply files_eq_log]).
Qed.

(** ** The number of backups in the master list *)

(** X14.  In a directory that can be listed, [_get_backup_count] gives the
    number of backups of the base name, and [load_versions] shows as many
    rows less as there are backups whose creation time cannot be read. *)
Theorem backup_count_and_versions (filename d : string) (names : list string) (w : world) :
  d <> "" -> d ∉ rdeny w -> dirs w !! d = Some names ->
  let backups := backups_of (Dve._get_base_name filename) names in
  fst (DveWindow._get_backup_count d (Dve._get_base_name filename) w) = Ok (length backups)
  /\ exists rows,
       fst (Dve.load_versions (Some filename) d w) = Ok (Shown rows)
       /\ length rows + length (unreadable_backups w d backups) = length backups.
Proof.
  intros Hd Hr Hn. cbv zeta. split.
  - unfold DveWindow._get_backup_count.
    erewrite bind_ok with (a := true).
    2: { unfold path_isdir. rewrite Hn. rewrite bool_decide_true by eauto. reflexivity. }
    apply String.eqb_neq in Hd. rewrite Hd. cbn [orb negb].
    erewrite try_ok; [reflexivity|].
    erewrite bind_ok with (a := names) (w' := w); [reflexivity|].
    unfold listdir. rewrite decide_False by exact Hr. now rewrite Hn.
  - destruct (dve_load_versions_listed filename d names w Hd Hr Hn)
      as (rows & w' & E & _ & Hrows).
    exists rows. rewrite E. split; [reflexivity|].
    now apply rows_of_partial in Hrows as [_ Hlen].
Qed.

Lemma backup_count_and_versions_witness :
  fst (DveWindow._get_backup_count Demo.dir (Dve._get_base_name "report.txt") Demo.w0)
  = Ok 4
  /\ exists rows,
       fst (Dve.load_versions (Some "report.txt") Demo.dir Demo.w0) = Ok (Shown rows)
       /\ length rows + 1 = 4.
Proof.
  apply (backup_count_and_versions "report.txt" Demo.dir Demo.names Demo.w0).
  - discriminate.
  - vm_compute. discriminate.
  - vm_compute. reflexivity.
Defined.

(** X15.  With no directory, a directory that is not one or a directory
    that cannot be listed, [_get_backup_count] gives nought and raises
    nothing. *)
Theorem backup_count_without_directory (d base : string) (w : world) :
  d = "" \/ dirs w !! d = None \/ d ∈ rdeny w ->
  fst (DveWindow._get_backup_count d base w) = Ok 0.
Proof.
  intros H. unfold DveWindow._get_backup_count.
  unfold mbind at 1, M_bind at 1. unfold path_isdir.
  destruct (String.eqb_spec d "") as [->|Hd]; [reflexivity|].
  destruct H as [H|[H|H]]; [contradiction| |].
  - rewrite H. rewrite bool_decide_false by (intros [? ?]; discriminate). reflexivity.
  - destruct (bool_decide _); cbn [orb negb]; [|reflexivity].
    erewrite try_raise with (e := PermissionError); [reflexivity|].
    apply bind_raise. unfold listdir. now rewrite decide_True by exact H.
Qed.

Lemma backup_count_without_directory_witness :
  fst (DveWindow._get_backup_count "C:\nowhere" "report" Demo.w0) = Ok 0.
Proof.
  apply backup_count_without_directory. right. left. vm_compute. reflexivity.
Defined.

(** ** Base names and the backups they find *)

Lemma group_dotstar_prefix (k : Re.cont) (s g : string) :
  Re.group_dotstar k s = Some g -> exists rest, s = g +:+ rest /\ k rest = true.
Proof.
  revert g. induction s as [|c s IH]; intros g; cbn [Re.group_dotstar].
  - destruct (k "") eqn:Ek; [|discriminate]. intros [= <-]. now exists "".
  - destruct (Re.dot c).
    + destruct (Re.group_dotstar k s) as [g'|].
      * intros [= <-]. destruct (IH g' eq_refl) as (rest & -> & Hk).
        exists rest. now app_simpl.
      * destruct (k (String c s)) eqn:Ek; [|discriminate]. intros [= <-].
        exists (String c s). now app_simpl.
    + destruct (k (String c s)) eqn:Ek; [|discriminate]. intros [= <-].
      exists (String c s). now app_simpl.
Qed.

Lemma startswith_app (s t : string) : startswith (s +:+ t) s = true.
Proof.
  unfold startswith. induction s as [|c s IH]; app_simpl; [now destruct t|].
  cbn [String.prefix]. now destruct (ascii_dec c c).
Qed.

Lemma startswith_trans (s p q : string) :
  startswith s p = true -> startswith p q = true -> startswith s q = true.
Proof.
  unfold startswith. revert s p. induction q as [|c q IH]; intros s p Hsp Hpq.
  - now destruct s.
  - destruct p as [|d p]; [discriminate|]. cbn [String.prefix] in Hpq.
    destruct (ascii_dec c d) as [<-|]; [|discriminate].
    destruct s as [|e s]; [discriminate|]. cbn [String.prefix] in *.
    destruct (ascii_dec c e) as [<-|]; [|discriminate]. eauto.
Qed.

Lemma split_first_prefix (c : ascii) (s : string) : startswith s (split_first c s) = true.
Proof.
  unfold startswith. induction s as [|d s IH]; [reflexivity|]. cbn [split_first].
  destruct (Ascii.eqb c d); [reflexivity|]. cbn [String.prefix].
  now destruct (ascii_dec d d).
Qed.

Lemma dve_base_name_prefix (filename : string) :
  startswith filename (Dve._get_base_name filename) = true.
Proof.
  unfold Dve._get_base_name, match_backup_pattern.
  destruct (Re.group_dotstar stamp_tail filename) as [g|] eqn:E.
  - apply group_dotstar_prefix in E as (rest & -> & _). apply startswith_app.
  - apply split_first_prefix.
Qed.

Lemma snap_base_name_cut (filename : string) :
  Snap._get_base_name filename = split_first "." (Dve._get_base_name filename).
Proof. unfold Snap._get_base_name, Dve._get_base_name. apply strip_extensions_spec. Qed.

(** X16.  The base name [SnapVersion+Plus] takes from a file name is the
    part before the first dot of the base name the document explorer takes:
    it holds no dot and starts that base name, which starts the file name.
    So every backup the document explorer finds for a file,
    [SnapVersion+Plus] finds too. *)
Theorem snap_batch_holds_dve_batch (filename : string) (names : list string) :
  Snap._get_base_name filename = split_first "." (Dve._get_base_name filename)
  /\ contains "." (Snap._get_base_name filename) = false
  /\ startswith (Dve._get_base_name filename) (Snap._get_base_name filename) = true
  /\ startswith filename (Dve._get_base_name filename) = true
  /\ forall f, f ∈ backups_of (Dve._get_base_name filename) names ->
               f ∈ backups_of (Snap._get_base_name filename) names.
Proof.
  split; [apply snap_base_name_cut|].
  rewrite snap_base_name_cut. split; [apply split_first_no_sep|].
  split; [apply split_first_prefix|]. split; [apply dve_base_name_prefix|].
  intros f Hf. unfold backups_of in *. apply list_elem_of_filter in Hf as [Hf Hin].
  apply list_elem_of_filter. split; [|exact Hin].
  apply andb_prop_elim in Hf as [Hs He]. apply andb_prop_intro. split; [|exact He].
  apply Is_true_eq_left. eapply startswith_trans; [apply Is_true_eq_true; exact Hs|].
  apply split_first_prefix.
Qed.

(** X17.  A backup listed in the directory is among the backups of its own
    base name, in both launchers: a file that ends in [.bak] and is selected
    is part of the batch it selects. *)
Theorem backup_in_its_own_batch (filename : string) (names : list string) :
  filename ∈ names -> endswith filename ".bak" = true ->
  filename ∈ backups_of (Dve._get_base_name filename) names
  /\ filename ∈ backups_of (Snap._get_base_name filename) names.
Proof.
  intros Hin He.
  assert (Hd : filename ∈ backups_of (Dve._get_base_name filename) names).
  { unfold backups_of. apply list_elem_of_filter. split; [|exact Hin].
    rewrite dve_base_name_prefix, He. exact I. }
  split; [exact Hd|].
  unfold backups_of in *. apply list_elem_of_filter. split; [|exact Hin].
  rewrite He, andb_true_r. apply Is_true_eq_left.
  eapply startswith_trans; [apply dve_base_name_prefix|].
  rewrite snap_base_name_cut. apply split_first_prefix.
Qed.

Lemma backup_in_its_own_batch_witness :
  Demo.v2 ∈ backups_of (Dve._get_base_name Demo.v2) Demo.names
  /\ Demo.v2 ∈ backups_of (Snap._get_base_name Demo.v2) Demo.names.
Proof.
  apply (backup_in_its_own_batch Demo.v2 Demo.names).
  - unfold Demo.names. do 2 right. left.
  - vm_compute. reflexivity.
Defined.

(** ** [read_meta_audit] on a stream that cannot be read *)

Lemma stream_text_none (w : world) (p : string) :
  stream_text w p = None ->
  (p +:+ ":meta_audit" ∈ rdeny w)
  \/ ((p +:+ ":meta_audit" ∉ rdeny w)
      /\ nodes w !! (p +:+ ":meta_audit") = Some Undecodable).
Proof.
  unfold stream_text. destruct (decide _) as [Hr|Hr]; [now left|].
  destruct (nodes w !! (p +:+ ":meta_audit")) as [[s|]|]; try discriminate.
  right. auto.
Qed.

Lemma read_text_denied (p : string) (w : world) :
  p ∈ rdeny w -> read_text p w = (Raise PermissionError, w).
Proof. intros H. unfold read_text. now rewrite decide_True by exact H. Qed.

Lemma read_bytes_denied (p : string) (w : world) :
  p ∈ rdeny w -> read_bytes p w = (Raise PermissionError, w).
Proof. intros H. unfold read_bytes. now rewrite decide_True by exact H. Qed.

Lemma read_text_undecodable (p : string) (w : world) :
  p ∉ rdeny w -> nodes w !! p = Some Undecodable ->
  read_text p w = (Raise UnicodeDecodeError, w).
Proof. intros Hr Hn. unfold read_text. rewrite decide_False by exact Hr. now rewrite Hn. Qed.

Lemma read_bytes_present (p : string) (n : node) (w : world) :
  p ∉ rdeny w -> nodes w !! p = Some n -> read_bytes p w = (Ok n, w).
Proof. intros Hr Hn. unfold read_bytes. rewrite decide_False by exact Hr. now rewrite Hn. Qed.

Lemma write_bytes_result (p : string) (n : node) (w : world) :
  p ∉ wdeny w -> write_bytes p n w = (Ok tt, set_nodes (insert p n) w).
Proof. intros H. unfold write_bytes. now rewrite decide_False by exact H. Qed.

Lemma write_bytes_denied (p : string) (n : node) (w : world) :
  p ∈ wdeny w -> write_bytes p n w = (Raise PermissionError, w).
Proof. intros H. unfold write_bytes. now rewrite decide_True by exact H. Qed.

(** The fallback of [read_meta_audit] on bytes that are not UTF-8: no
    entry, and the copy stays in the temporary file when it could be
    written. *)
Lemma snap_read_meta_audit_undecodable (BASE_DIR p : string) (w : world) :
  p +:+ ":meta_audit" ∉ rdeny w ->
  nodes w !! (p +:+ ":meta_audit") = Some Undecodable ->
  exists w',
    Snap.read_meta_audit BASE_DIR p w = (Ok [], w')
    /\ (Snap.temp_path_of BASE_DIR p ∉ wdeny w ->
        nodes w' !! Snap.temp_path_of BASE_DIR p = Some Undecodable).
Proof.
  intros Hr Hn.
  unfold Snap.read_meta_audit, max_retries. cbn [Snap.read_meta_audit_loop].
  unfold max_retries.
  erewrite try_raise by (apply bind_raise, read_text_undecodable; assumption).
  rewrite bind_log. cbn [Nat.add Nat.eqb].
  erewrite try_raise by (apply bind_raise, read_text_undecodable; assumption).
  rewrite bind_log. cbn [Nat.add Nat.eqb].
  erewrite try_raise by (apply bind_raise, read_text_undecodable; assumption).
  rewrite bind_log. cbn [Nat.add Nat.eqb].
  match goal with |- context [try_except _ _ ?w] => set (w3 := w) end.
  assert (Hr3 : p +:+ ":meta_audit" ∉ rdeny w3) by exact Hr.
  assert (Hn3 : nodes w3 !! (p +:+ ":meta_audit") = Some Undecodable) by exact Hn.
  destruct (decide (Snap.temp_path_of BASE_DIR p ∈ wdeny w3)) as [Ht|Ht].
  - erewrite try_raise.
    2: { erewrite bind_ok by (apply read_bytes_present; eassumption).
         apply bind_raise, write_bytes_denied. exact Ht. }
    eexists. split; [reflexivity|]. intros Hbad. now elim Hbad.
  - set (w4 := set_nodes (insert (Snap.temp_path_of BASE_DIR p) Undecodable) w3).
    assert (Hn4 : nodes w4 !! Snap.temp_path_of BASE_DIR p = Some Undecodable)
      by apply lookup_insert_eq.
    destruct (decide (Snap.temp_path_of BASE_DIR p ∈ rdeny w4)) as [Hrt|Hrt].
    + erewrite try_raise.
      2: { erewrite bind_ok by (apply read_bytes_present; eassumption).
           erewrite bind_ok by (apply write_bytes_result; exact Ht).
           apply bind_raise, read_text_denied. exact Hrt. }
      eexists. split; [reflexivity|]. intros _. exact Hn4.
    + erewrite try_raise.
      2: { erewrite bind_ok by (apply read_bytes_present; eassumption).
           erewrite bind_ok by (apply write_bytes_result; exact Ht).
           apply bind_raise, read_text_undecodable; [exact Hrt | exact Hn4]. }
      eexists. split; [reflexivity|]. intros _. exact Hn4.
Qed.

Lemma snap_read_meta_audit_denied (BASE_DIR p : string) (w : world) :
  p +:+ ":meta_audit" ∈ rdeny w ->
  exists w', Snap.read_meta_audit BASE_DIR p w = (Ok [], w') /\ files_eq w w'.
Proof.
  intros Hr.
  unfold Snap.read_meta_audit, max_retries. cbn [Snap.read_meta_audit_loop].
  unfold max_retries.
  erewrite try_raise by (apply bind_raise, read_text_denied; assumption).
  rewrite bind_log. cbn [Nat.add Nat.eqb].
  erewrite try_raise by (apply bind_raise, read_text_denied; assumption).
  rewrite bind_log. cbn [Nat.add Nat.eqb].
  erewrite try_raise by (apply bind_raise, read_text_denied; assumption).
  rewrite bind_log. cbn [Nat.add Nat.eqb].
  erewrite try_raise by (apply bind_raise, read_bytes_denied; assumption).
  eexists. split; [reflexivity|]. repeat split.
Qed.

Lemma dve_read_meta_audit_unreadable (p : string) (w : world) :
  stream_text w p = None ->
  exists w', Dve.read_meta_audit p w = (Ok [], w') /\ files_eq w w'.
Proof.
  intros Hs.
  assert (Hread : exists e, e <> FileNotFoundError
                    /\ forall w', files_eq w w' ->
                         read_text (p +:+ ":meta_audit") w' = (Raise e, w')).
  { apply stream_text_none in Hs as [Hr|[Hr Hn]].
    - exists PermissionError. split; [discriminate|]. intros w' (_ & Hr' & _).
      apply read_text_denied. now rewrite Hr'.
    - exists UnicodeDecodeError. split; [discriminate|]. intros w' (Hn' & Hr' & _).
      apply read_text_undecodable; [now rewrite Hr' | now rewrite Hn']. }
  destruct Hread as (e & Hne & Hread).
  unfold Dve.read_meta_audit, max_retries. cbn [Dve.read_meta_audit_loop].
  unfold max_retries.
  set (b := bool_decide (is_Some (nodes w !! (p +:+ ":meta_audit")))
            || bool_decide (is_Some (dirs w !! (p +:+ ":meta_audit")))).
  assert (Hex : forall w', files_eq w w' ->
                  path_exists (p +:+ ":meta_audit") w' = (Ok b, w')).
  { intros w' (Hn' & _ & _ & Hd' & _). unfold path_exists. now rewrite Hn', Hd'. }
  destruct b eqn:Eb.
  - erewrite try_raise with (e := e).
    2: { erewrite bind_ok by (apply Hex, files_eq_refl). cbn [negb].
         apply bind_raise, Hread, files_eq_refl. }
    destruct e; try (now elim Hne); cbv beta iota; rewrite bind_log; cbn [Nat.eqb];
      (erewrite try_raise;
       [|erewrite bind_ok by (apply Hex; repeat split); cbn [negb];
         apply bind_raise, Hread; repeat split]);
      cbv beta iota; rewrite bind_log; cbn [Nat.eqb];
      (erewrite try_raise;
       [|erewrite bind_ok by (apply Hex; repeat split); cbn [negb];
         apply bind_raise, Hread; repeat split]);
      cbv beta iota; rewrite bind_log; cbn [Nat.eqb]; rewrite bind_log;
      eexists; (split; [reflexivity | repeat split]).
  - exists w. split; [|apply files_eq_refl]. apply try_ok.
    erewrite bind_ok by (apply Hex, files_eq_refl). reflexivity.
Qed.

(** X19.  [read_meta_audit], in both launchers, never raises: it returns the
    entries of the audit stream in the order of the stream, and no entry
    when the stream cannot be read, whatever the retries and the fallback
    do. *)
Theorem read_meta_audit_lines (BASE_DIR p : string) (w : world) :
  fst (Snap.read_meta_audit BASE_DIR p w) = Ok (stream_lines w p)
  /\ fst (Dve.read_meta_audit p w) = Ok (stream_lines w p).
Proof.
  unfold stream_lines. destruct (stream_text w p) as [s|] eqn:Hs.
  - destruct (snap_read_meta_audit_stream BASE_DIR p s w Hs) as (w1 & -> & _).
    destruct (dve_read_meta_audit_stream p s w Hs) as (w2 & -> & _). now split.
  - destruct (dve_read_meta_audit_unreadable p w Hs) as (w2 & -> & _).
    split; [|reflexivity].
    apply stream_text_none in Hs as [Hr|[Hr Hn]].
    + now destruct (snap_read_meta_audit_denied BASE_DIR p w Hr) as (w1 & -> & _).
    + now destruct (snap_read_meta_audit_undecodable BASE_DIR p w Hr Hn) as (w1 & -> & _).
Qed.

(** X20.  When the audit stream holds bytes that are not UTF-8 and the
    temporary file can be written, [read_meta_audit] of [SnapVersion+Plus]
    returns no entry and leaves the copy it made in the temporary file: the
    fallback removes the file only after a read that succeeds. *)
Theorem read_meta_audit_leaves_copy (BASE_DIR p : string) (w : world) :
  p +:+ ":meta_audit" ∉ rdeny w ->
  nodes w !! (p +:+ ":meta_audit") = Some Undecodable ->
  Snap.temp_path_of BASE_DIR p ∉ wdeny w ->
  fst (Snap.read_meta_audit BASE_DIR p w) = Ok []
  /\ nodes (snd (Snap.read_meta_audit BASE_DIR p w)) !! Snap.temp_path_of BASE_DIR p
     = Some Undecodable.
Proof.
  intros Hr Hn Ht.
  destruct (snap_read_meta_audit_undecodable BASE_DIR p w Hr Hn) as (w1 & -> & H).
  split; [reflexivity | now apply H].
Qed.

Lemma read_meta_audit_leaves_copy_witness :
  fst (Snap.read_meta_audit "C:\s" "f.bak"
         (World {["f.bak:meta_audit" := Undecodable]} ∅ ∅ ∅ ∅ [])) = Ok []
  /\ nodes (snd (Snap.read_meta_audit "C:\s" "f.bak"
                   (World {["f.bak:meta_audit" := Undecodable]} ∅ ∅ ∅ ∅ [])))
       !! Snap.temp_path_of "C:\s" "f.bak"
     = Some Undecodable.
Proof.
  apply (read_meta_audit_leaves_copy "C:\s" "f.bak"
           (World {["f.bak:meta_audit" := Undecodable]} ∅ ∅ ∅ ∅ [])).
  - vm_compute. discriminate.
  - vm_compute. reflexivity.
  - vm_compute. discriminate.
Defined.

(** ** [append_meta_audit] when the stream cannot be written *)

Lemma snap_append_meta_audit_fallback (BASE_DIR p s : string) (entries : list string)
    (w : world) :
  stream_text w p = Some s -> p +:+ ":meta_audit" ∈ wdeny w ->
  Snap.temp_path_of BASE_DIR p ∉ wdeny w ->
  new_entries_for s entries <> [] ->
  exists w',
    Snap.append_meta_audit BASE_DIR p entries w = (Ok tt, w')
    /\ nodes w' = <[Snap.temp_path_of BASE_DIR p
                    := node_app (default (Text "") (nodes w !! Snap.temp_path_of BASE_DIR p))
                         (Text (entry_lines (new_entries_for s entries)))]> (nodes w).
Proof.
  intros Hs Hw Ht Hnew. unfold Snap.append_meta_audit.
  destruct entries as [|e entries]; [now elim Hnew|].
  destruct (snap_read_meta_audit_stream BASE_DIR p s w Hs) as (w1 & E1 & F1).
  erewrite bind_ok by exact E1.
  fold (new_entries_for s (e :: entries)).
  pose proof F1 as (Hn1 & Hr1 & Hw1 & Hd1 & Hc1).
  destruct (new_entries_for s (e :: entries)) as [|x new]; [now elim Hnew|].
  unfold max_retries. cbn [Snap.append_meta_audit_loop]. unfold max_retries.
  assert (Hw' : p +:+ ":meta_audit" ∈ wdeny w1) by now rewrite Hw1.
  erewrite try_raise by (apply bind_raise, append_text_denied; exact Hw').
  rewrite bind_log. cbn [Nat.add Nat.eqb].
  erewrite try_raise by (apply bind_raise, append_text_denied; exact Hw').
  rewrite bind_log. cbn [Nat.add Nat.eqb].
  erewrite try_raise by (apply bind_raise, append_text_denied; exact Hw').
  rewrite bind_log. cbn [Nat.add Nat.eqb].
  match goal with |- context [try_except _ _ ?w] => set (w3 := w) end.
  assert (Ht3 : Snap.temp_path_of BASE_DIR p ∉ wdeny w3) by (subst w3; cbn; now rewrite Hw1).
  erewrite try_raise.
  2: { erewrite bind_ok by (apply append_text_result; exact Ht3).
       apply bind_raise, open_append_denied. exact Hw'. }
  eexists. split; [reflexivity|]. subst w3. cbn [nodes set_log set_nodes].
  now rewrite Hn1.
Qed.

(** X21.  When the audit stream can be read but not written, the temporary
    file can be written and some entry is new, [append_meta_audit] of
    [SnapVersion+Plus] returns without raising, leaves the stream as it was
    and leaves the new entries at the end of the temporary file, which it
    does not remove. *)
Theorem append_meta_audit_keeps_entries (BASE_DIR p s : string) (entries : list string)
    (w : world) :
  stream_text w p = Some s -> p +:+ ":meta_audit" ∈ wdeny w ->
  Snap.temp_path_of BASE_DIR p ∉ wdeny w ->
  new_entries_for s entries <> [] ->
  let w' := snd (Snap.append_meta_audit BASE_DIR p entries w) in
  fst (Snap.append_meta_audit BASE_DIR p entries w) = Ok tt
  /\ nodes w' !! (p +:+ ":meta_audit") = nodes w !! (p +:+ ":meta_audit")
  /\ nodes w' !! Snap.temp_path_of BASE_DIR p
     = Some (node_app (default (Text "") (nodes w !! Snap.temp_path_of BASE_DIR p))
               (Text (entry_lines (new_entries_for s entries)))).
Proof.
  intros Hs Hw Ht Hnew. cbv zeta.
  destruct (snap_append_meta_audit_fallback BASE_DIR p s entries w Hs Hw Ht Hnew)
    as (w' & -> & Hn).
  cbn [fst snd]. rewrite Hn. split; [reflexivity|]. split.
  - apply lookup_insert_ne, temp_file_not_stream.
  - apply lookup_insert_eq.
Qed.

Lemma append_meta_audit_keeps_entries_witness :
  let w := World ∅ ∅ {["f.bak:meta_audit"]} ∅ ∅ [] in
  let w' := snd (Snap.append_meta_audit "C:\s" "f.bak" ["[t] x"] w) in
  fst (Snap.append_meta_audit "C:\s" "f.bak" ["[t] x"] w) = Ok tt
  /\ nodes w' !! ("f.bak" +:+ ":meta_audit") = nodes w !! ("f.bak" +:+ ":meta_audit")
  /\ nodes w' !! Snap.temp_path_of "C:\s" "f.bak"
     = Some (node_app (default (Text "") (nodes w !! Snap.temp_path_of "C:\s" "f.bak"))
               (Text (entry_lines (new_entries_for "" ["[t] x"])))).
Proof.
  apply (append_meta_audit_keeps_entries "C:\s" "f.bak" "" ["[t] x"]
           (World ∅ ∅ {["f.bak:meta_audit"]} ∅ ∅ [])).
  - vm_compute. reflexivity.
  - vm_compute. reflexivity.
  - vm_compute. discriminate.
  - vm_compute. discriminate.
Defined.

(** ** [save_meta] when a stream cannot be written *)

Lemma write_text_denied (p s : string) (w : world) :
  p ∈ wdeny w -> write_text p s w = (Raise PermissionError, w).
Proof. apply write_bytes_denied. Qed.

(** X22.  When the [:source] stream cannot be written, [save_meta] raises
    nothing and writes nothing: no entry goes to the audit stream
    either. *)
Theorem save_meta_without_source (p text ts : string) (w : world) :
  p +:+ ":source" ∈ wdeny w ->
  exists w', save_meta p text ts w = (Ok tt, w') /\ files_eq w w'.
Proof.
  intros H. unfold save_meta.
  erewrite try_raise by (apply bind_raise, write_text_denied; exact H).
  eexists. split; [reflexivity | apply files_eq_log].
Qed.

Lemma save_meta_without_source_witness :
  exists w', save_meta "f.bak" " tag " "2024-02-01 10:00:00"
               (World ∅ ∅ {["f.bak:source"]} ∅ ∅ []) = (Ok tt, w')
             /\ files_eq (World ∅ ∅ {["f.bak:source"]} ∅ ∅ []) w'.
Proof.
  apply save_meta_without_source. vm_compute. reflexivity.
Defined.

(** X23.  When the [:source] stream can be written and the audit stream
    cannot, [save_meta] raises nothing and still saves the tag: the
    [:source] stream holds the stripped text and no other file changes. *)
Theorem save_meta_without_audit (p text ts : string) (w : world) :
  p +:+ ":source" ∉ wdeny w -> p +:+ ":meta_audit" ∈ wdeny w ->
  exists w',
    save_meta p text ts w = (Ok tt, w')
    /\ nodes w' = <[p +:+ ":source" := Text (strip text)]> (nodes w)
    /\ rdeny w' = rdeny w /\ wdeny w' = wdeny w.
Proof.
  intros Hs Ha. unfold save_meta. eexists. split.
  - apply try_ok. unfold write_text.
    erewrite bind_ok by (apply write_bytes_result; exact Hs).
    erewrite try_raise by (apply append_text_denied; exact Ha). reflexivity.
  - repeat split.
Qed.

Lemma save_meta_without_audit_witness :
  let w := World ∅ ∅ {["f.bak:meta_audit"]} ∅ ∅ [] in
  exists w',
    save_meta "f.bak" " tag " "2024-02-01 10:00:00" w = (Ok tt, w')
    /\ nodes w' = <["f.bak" +:+ ":source" := Text (strip " tag ")]> (nodes w)
    /\ rdeny w' = rdeny w /\ wdeny w' = wdeny w.
Proof.
  apply (save_meta_without_audit "f.bak" " tag " "2024-02-01 10:00:00"
           (World ∅ ∅ {["f.bak:meta_audit"]} ∅ ∅ [])).
  - vm_compute. discriminate.
  - vm_compute. reflexivity.
Defined.

Lemma dve_counted_lines (body : list Difflib.dline) :
  Forall hunk_line body ->
  Dve.change_count (map Difflib.render body)
  = length (filter (fun d => counted_by_dve d) body).
Proof.
  unfold Dve.change_count, count_lines_where.
  induction 1 as [|d body Hd Hbody IH]; [reflexivity|].
  cbn [map]. rewrite (length_filter_cons counted_by_dve).
  rewrite (length_filter_cons
             (fun line => (startswith line "+" || startswith line "-")
                          && negb (startswith line "+++" || startswith line "---"))).
  rewrite IH. f_equal.
  destruct d as [s|s|l|l|l]; cbn [Difflib.render counted_by_dve hunk_line] in *.
  - destruct Hd.
  - destruct s as [|c s]; [discriminate|].
    unfold startswith in *. cbn [String.prefix] in *.
    destruct (ascii_dec "@" c) as [<-|]; [|discriminate]. reflexivity.
  - app_simpl. unfold startswith. cbn. reflexivity.
  - app_simpl. rewrite (startswith_sign "-" l "--").
    destruct (startswith l "--"); unfold startswith; cbn; now destruct l.
  - app_simpl. rewrite (startswith_sign "+" l "++").
    destruct (startswith l "++"); unfold startswith; cbn; now destruct l.
Qed.

(** X24.  The count [load_versions] shows is the number of removed lines
    that do not start with two minus signs plus the number of added lines
    that do not start with two plus signs: a changed line that starts so is
    taken for a file header and left out. *)
Theorem dve_change_count_counted (a b : list string) :
  Dve.change_count (Difflib.unified_diff a b)
  = length (filter (fun d => counted_by_dve d) (Difflib.unified_diff_lines a b)).
Proof.
  unfold Difflib.unified_diff.
  destruct (unified_diff_lines_shape a b) as [->|(body & -> & Hbody)]; [reflexivity|].
  apply Forall_proj1 in Hbody. pose proof (dve_counted_lines body Hbody) as Hc.
  change (map Difflib.render (Difflib.FileHeader "--- " :: Difflib.FileHeader "+++ " :: body))
    with ("--- " :: "+++ " :: map Difflib.render body).
  unfold Dve.change_count, count_lines_where in *.
  rewrite !(length_filter_cons counted_by_dve).
  rewrite !(length_filter_cons
              (fun line => (startswith line "+" || startswith line "-")
                           && negb (startswith line "+++" || startswith line "---"))).
  rewrite Hc. reflexivity.
Qed.

(** ** The log file of the document explorer *)

Lemma last_app_singleton {A : Type} (l : list A) (x : A) : last (l ++ [x]) = Some x.
Proof. induction l as [|y [|z l] IH]; [reflexivity | reflexivity | exact IH]. Qed.

Lemma readlines_last_line (s e : string) :
  terminated s = true -> contains LF e = false ->
  last (readlines (s +:+ e +:+ NL)) = Some (e +:+ NL).
Proof.
  intros Hs He. rewrite readlines_app by exact Hs.
  replace (e +:+ NL) with (e +:+ NL +:+ "") at 1 by now rewrite append_nil_r.
  rewrite readlines_line by exact He. apply last_app_singleton.
Qed.

Lemma last_line_is_appended (s e : string) :
  terminated s = true -> contains LF e = false ->
  last_line_is (s +:+ e +:+ NL) (e +:+ NL) = true.
Proof.
  intros Hs He. unfold last_line_is. rewrite readlines_last_line by assumption.
  apply String.eqb_refl.
Qed.

Section GlobalLogFacts.

Variable dirname : string -> string.
Variable makedirs : string -> M unit.
Hypothesis makedirs_spec : makes_directories makedirs.

(** What one call does to a log file that is there and can be read and
    written, when the directory is made: nothing when the last line is the
    entry, and the entry is appended otherwise. *)
Lemma log_action_global_made (path ts message s : string) (w : world) :
  fst (makedirs (dirname path) w) = Ok tt ->
  path ∉ rdeny w -> path ∉ wdeny w -> nodes w !! path = Some (Text s) ->
  let entry := "[" +:+ ts +:+ "] " +:+ message +:+ NL in
  exists w',
    log_action_global dirname makedirs path ts message w = (Ok tt, w')
    /\ rdeny w' = rdeny w /\ wdeny w' = wdeny w
    /\ nodes w' = (if last_line_is s entry then nodes w
                   else <[path := Text (s +:+ entry)]> (nodes w)).
Proof.
  intros Hok Hr Hw Hn. cbv zeta. unfold log_action_global.
  destruct (makedirs_spec (dirname path) w) as (Hmn & Hmr & Hmw).
  destruct (makedirs (dirname path) w) as [r w0] eqn:Em. cbn [fst snd] in *. subst r.
  assert (Hr0 : path ∉ rdeny w0) by now rewrite Hmr.
  assert (Hw0 : path ∉ wdeny w0) by now rewrite Hmw.
  assert (Hread : read_text path w0 = (Ok s, w0))
    by (apply read_text_present; [exact Hr0 | now rewrite Hmn]).
  assert (Hex : path_exists path w0 = (Ok true, w0)).
  { unfold path_exists. rewrite Hmn, Hn.
    now rewrite (bool_decide_true (is_Some (Some (Text s)))) by eauto. }
  destruct (last_line_is s ("[" +:+ ts +:+ "] " +:+ message +:+ NL)) eqn:El.
  - exists w0. split; [|now repeat split].
    apply try_ok. erewrite bind_ok by exact Em. erewrite bind_ok by exact Hex.
    erewrite bind_ok with (a := true); [reflexivity|].
    erewrite bind_ok by exact Hread. unfold last_line_is in El. now rewrite El.
  - eexists. split.
    { apply try_ok. erewrite bind_ok by exact Em. erewrite bind_ok by exact Hex.
      erewrite bind_ok with (a := false).
      2: { erewrite bind_ok by exact Hread. unfold last_line_is in El. now rewrite El. }
      apply append_text_result. exact Hw0. }
    cbn [rdeny wdeny nodes set_nodes]. rewrite Hmn, Hn. cbn [default node_app].
    now repeat split.
Qed.

(** When the directory cannot be made, nothing is logged. *)
Lemma log_action_global_unmade (path ts message : string) (w : world) (e : exn) :
  fst (makedirs (dirname path) w) = Raise e ->
  exists w',
    log_action_global dirname makedirs path ts message w = (Ok tt, w')
    /\ nodes w' = nodes w.
Proof.
  intros Hraise. unfold log_action_global.
  destruct (makedirs_spec (dirname path) w) as (Hmn & _).
  destruct (makedirs (dirname path) w) as [r w0] eqn:Em. cbn [fst snd] in *. subst r.
  exists w0. split; [|exact Hmn].
  erewrite try_raise by (apply bind_raise; exact Em). reflexivity.
Qed.

Lemma log_action_global_again (path ts message s : string) (w : world) :
  fst (makedirs (dirname path) w) = Ok tt ->
  path ∉ rdeny w -> path ∉ wdeny w -> nodes w !! path = Some (Text s) ->
  terminated s = true -> single_line ts = true -> single_line message = true ->
  let call := log_action_global dirname makedirs path ts message in
  let w1 := snd (call w) in
  fst (call w) = Ok tt
  /\ (exists s1, nodes w1 !! path = Some (Text s1)
                 /\ last_line_is s1 ("[" +:+ ts +:+ "] " +:+ message +:+ NL) = true)
  /\ fst (call w1) = Ok tt
  /\ nodes (snd (call w1)) = nodes w1.
Proof.
  intros Hok Hr Hw Hn Hs Hts Hm. cbv zeta.
  apply single_line_no_LF in Hts, Hm.
  destruct (log_action_global_made path ts message s w Hok Hr Hw Hn)
    as (w1 & -> & Hr1 & Hw1 & Hn1). cbn [fst snd].
  set (entry := "[" +:+ ts +:+ "] " +:+ message +:+ NL) in *.
  assert (H1 : exists s1, nodes w1 !! path = Some (Text s1) /\ last_line_is s1 entry = true).
  { destruct (last_line_is s entry) eqn:El.
    - exists s. rewrite Hn1. now split.
    - exists (s +:+ entry). rewrite Hn1, lookup_insert_eq. split; [reflexivity|].
      subst entry.
      replace ("[" +:+ ts +:+ "] " +:+ message +:+ NL)
        with (("[" +:+ ts +:+ "] " +:+ message) +:+ NL)
        by now rewrite !append_assoc.
      apply last_line_is_appended; [exact Hs|].
      rewrite !contains_app, Hts, Hm. reflexivity. }
  split; [reflexivity|]. split; [exact H1|]. destruct H1 as (s1 & Hn1' & El1).
  destruct (fst (makedirs (dirname path) w1)) as [[]|e] eqn:Em.
  - destruct (log_action_global_made path ts message s1 w1 Em) as (w2 & -> & _ & _ & Hn2).
    + now rewrite Hr1.
    + now rewrite Hw1.
    + exact Hn1'.
    + cbn [fst snd]. fold entry in Hn2. rewrite El1 in Hn2. now split.
  - destruct (log_action_global_unmade path ts message w1 e Em) as (w2 & -> & Hn2).
    now split.
Qed.

End GlobalLogFacts.

(** X25.  A message logged twice with the same time stamp is written once.
    Let [makedirs] make directories only and return at the first call, let
    the log file be a text of whole lines that can be read and written, and
    let the time stamp and the message be of one line each, with no line
    feed and no carriage return.  Then both calls of [log_action_global]
    return, the first leaves the entry as the last line of the file, and
    the second changes no file, whether its [makedirs] returns or raises. *)
Theorem log_action_global_twice (dirname : string -> string) (makedirs : string -> M unit)
    (path ts message s : string) (w : world) :
  makes_directories makedirs ->
  fst (makedirs (dirname path) w) = Ok tt ->
  path ∉ rdeny w -> path ∉ wdeny w -> nodes w !! path = Some (Text s) ->
  terminated s = true -> single_line ts = true -> single_line message = true ->
  let call := log_action_global dirname makedirs path ts message in
  let w1 := snd (call w) in
  fst (call w) = Ok tt
  /\ (exists s1, nodes w1 !! path = Some (Text s1)
                 /\ last_line_is s1 ("[" +:+ ts +:+ "] " +:+ message +:+ NL) = true)
  /\ fst (call w1) = Ok tt
  /\ nodes (snd (call w1)) = nodes w1.
Proof. intros Hm. now apply log_action_global_again. Qed.

Lemma log_action_global_twice_witness :
  let makedirs : string -> M unit := fun d w =>
    if bool_decide (is_Some (dirs w !! d)) then (Ok tt, w)
    else (Raise FileNotFoundError, w) in
  let w := World {[ "C:\l\app.log" := Text ("[2024-02-01 09:00:00] start" +:+ NL) ]}
             ∅ ∅ {[ "C:\l" := ["app.log"] ]} ∅ [] in
  let call := log_action_global (fun _ => "C:\l") makedirs
                "C:\l\app.log" "2024-02-01 09:00:01" "Loaded 3 versions" in
  let w1 := snd (call w) in
  fst (call w) = Ok tt
  /\ (exists s1, nodes w1 !! "C:\l\app.log" = Some (Text s1)
                 /\ last_line_is s1 ("[" +:+ "2024-02-01 09:00:01" +:+ "] "
                                     +:+ "Loaded 3 versions" +:+ NL) = true)
  /\ fst (call w1) = Ok tt
  /\ nodes (snd (call w1)) = nodes w1.
Proof.
  apply (log_action_global_twice (fun _ => "C:\l")
           (fun d w => if bool_decide (is_Some (dirs w !! d)) then (Ok tt, w)
                       else (Raise FileNotFoundError, w))
           "C:\l\app.log" "2024-02-01 09:00:01" "Loaded 3 versions"
           ("[2024-02-01 09:00:00] start" +:+ NL)
           (World {[ "C:\l\app.log" := Text ("[2024-02-01 09:00:00] start" +:+ NL) ]}
              ∅ ∅ {[ "C:\l" := ["app.log"] ]} ∅ [])).
  - intros d w. destruct (bool_decide (is_Some (dirs w !! d))); repeat split.
  - vm_compute. reflexivity.
  - cbn. apply not_elem_of_empty.
  - cbn. apply not_elem_of_empty.
  - vm_compute. reflexivity.
  - vm_compute. reflexivity.
  - vm_compute. reflexivity.
  - vm_compute. reflexivity.
Defined.
